(** * Academic knowledge graph: entity extraction, graph build and planning

    A shallow embedding of [src/academic_graph_builder.py] (class
    [AcademicGraphBuilder]) and [src/graph_enhanced_tools.py] (class
    [GraphEnhancedAcademicPlanner]), with the program filter of
    [agent-docs/tests/populate_supabase_tables.py].

    Conventions.
    - A Python [str] is a [string] of ASCII text: the embedding follows Python
      on the characters 0 to 127.  It does not follow Python's treatment of
      other characters, where [str.upper], [str.lower] and [str.title] change
      letters (and may lengthen the text), [str.isspace], [str.strip],
      [str.split] and [\s] take further white space such as U+0085 and
      U+00A0, and [\w] and [\b] take further letters and digits: a character
      above 127 is here neither a space, a digit, a letter nor a word
      character, and is left as it is.
    - A Python [int] is a [Z]; [None] is the [None] of an [option].
    - A Python [dict] is an insertion-ordered association list ([PyDict]).
    - The Neo4j store is a [graph]: a finite map from node identities to
      property maps, and a list of relationships. *)

From Stdlib Require Import ZArith QArith Ascii List Lia.
From stdpp Require Import base option list gmap strings relations sorting.

Local Open Scope Z_scope.

(** ** Python strings *)

Module PyStr.

Definition code (c : ascii) : N := N_of_ascii c.

Definition in_range (lo hi : N) (c : ascii) : bool :=
  ((lo <=? code c) && (code c <=? hi))%N.

(** [str.isspace] on one ASCII character: TAB..CR, FS..US and the space. *)
Definition is_space (c : ascii) : bool := in_range 9 13 c || in_range 28 32 c.

Definition is_digit (c : ascii) : bool := in_range 48 57 c.
Definition is_upper (c : ascii) : bool := in_range 65 90 c.
Definition is_lower (c : ascii) : bool := in_range 97 122 c.
Definition is_alpha (c : ascii) : bool := is_upper c || is_lower c.

(** [\w] of the [re] module, on ASCII. *)
Definition is_word (c : ascii) : bool :=
  is_alpha c || is_digit c || (code c =? 95)%N.

Definition lower_char (c : ascii) : ascii :=
  if is_upper c then ascii_of_N (code c + 32) else c.
Definition upper_char (c : ascii) : ascii :=
  if is_lower c then ascii_of_N (code c - 32) else c.

Fixpoint map (f : ascii -> ascii) (s : string) : string :=
  match s with
  | EmptyString => EmptyString
  | String c s' => String (f c) (map f s')
  end.

(** [s.lower()] and [s.upper()]. *)
Definition lower : string -> string := map lower_char.
Definition upper : string -> string := map upper_char.

Definition len (s : string) : Z := Z.of_nat (String.length s).

(** [s[:n]] and [s[n:]] for [n >= 0]. *)
Fixpoint take (n : nat) (s : string) : string :=
  match n, s with
  | S n', String c s' => String c (take n' s')
  | _, _ => EmptyString
  end.
Fixpoint drop (n : nat) (s : string) : string :=
  match n, s with
  | S n', String _ s' => drop n' s'
  | _, _ => s
  end.

Fixpoint startswith (p s : string) : bool :=
  match p, s with
  | EmptyString, _ => true
  | String a p', String b s' => if Ascii.eqb a b then startswith p' s' else false
  | String _ _, EmptyString => false
  end.

(** [sub in s]. *)
Fixpoint contains (sub s : string) : bool :=
  startswith sub s ||
  match s with
  | EmptyString => false
  | String _ s' => contains sub s'
  end.

Fixpoint lstrip (s : string) : string :=
  match s with
  | String c s' => if is_space c then lstrip s' else s
  | EmptyString => EmptyString
  end.
Fixpoint rstrip (s : string) : string :=
  match s with
  | EmptyString => EmptyString
  | String c s' =>
      match rstrip s' with
      | EmptyString => if is_space c then EmptyString else String c EmptyString
      | r => String c r
      end
  end.
(** [s.strip()]. *)
Definition strip (s : string) : string := rstrip (lstrip s).

Fixpoint all (p : ascii -> bool) (s : string) : bool :=
  match s with
  | EmptyString => true
  | String c s' => p c && all p s'
  end.

(** [s.isdigit()]: every character is a digit and there is at least one. *)
Definition isdigit (s : string) : bool :=
  match s with
  | EmptyString => false
  | _ => all is_digit s
  end.

(** [s.replace(a, b)] for one-character [a] and [b]. *)
Definition replace_char (a b : ascii) : string -> string :=
  map (fun c => if Ascii.eqb c a then b else c).

(** [s.title()]: a letter that follows a letter is lowered, any other letter
    is raised. *)
Fixpoint title_from (prev_cased : bool) (s : string) : string :=
  match s with
  | EmptyString => EmptyString
  | String c s' =>
      if is_alpha c
      then String (if prev_cased then lower_char c else upper_char c)
                  (title_from true s')
      else String c (title_from false s')
  end.
Definition title : string -> string := title_from false.

(** [s.split()]: the maximal runs of non-space characters. *)
Fixpoint split_from (cur : string) (s : string) : list string :=
  match s with
  | EmptyString => match cur with EmptyString => [] | _ => [cur] end
  | String c s' =>
      if is_space c
      then match cur with
           | EmptyString => split_from EmptyString s'
           | _ => cur :: split_from EmptyString s'
           end
      else split_from (cur +:+ String c EmptyString) s'
  end.
Definition split : string -> list string := split_from EmptyString.

(** [sep.join(l)]. *)
Fixpoint join (sep : string) (l : list string) : string :=
  match l with
  | [] => ""
  | [x] => x
  | x :: l' => x +:+ sep +:+ join sep l'
  end.

(** [int(s)] for a string of decimal digits. *)
Definition digit_val (c : ascii) : Z := Z.of_N (code c) - 48.
Fixpoint int_from (acc : Z) (s : string) : Z :=
  match s with
  | EmptyString => acc
  | String c s' => int_from (10 * acc + digit_val c) s'
  end.
Definition int : string -> Z := int_from 0.

(** [c * n]. *)
Fixpoint repeat (c : ascii) (n : nat) : string :=
  match n with
  | O => EmptyString
  | S n' => String c (repeat c n')
  end.

End PyStr.

(** ** Python dictionaries: insertion-ordered, one entry per key *)

Module PyDict.

Definition t (V : Type) : Type := list (string * V).

Fixpoint get {V} (k : string) (d : t V) : option V :=
  match d with
  | [] => None
  | (k', v) :: d' => if String.eqb k k' then Some v else get k d'
  end.

(** [d[k] = v]: an existing key keeps its position. *)
Fixpoint set {V} (k : string) (v : V) (d : t V) : t V :=
  match d with
  | [] => [(k, v)]
  | (k', v') :: d' =>
      if String.eqb k k' then (k, v) :: d' else (k', v') :: set k v d'
  end.

Definition mem {V} (k : string) (d : t V) : bool :=
  match get k d with Some _ => true | None => false end.

Definition keys {V} (d : t V) : list string := List.map fst d.
Definition values {V} (d : t V) : list V := List.map snd d.

(** [d.update(d2)]. *)
Definition update {V} (d d2 : t V) : t V :=
  fold_left (fun acc kv => set (fst kv) (snd kv) acc) d2 d.

End PyDict.

(** ** The records of the extractor *)

Record CourseInfo := {
  c_code : string;
  c_prefix : string;
  c_number : string;
  c_title : string;
  c_credits : Z;
  c_level : string;
  c_description : string;
  c_prerequisites : list string;
  c_corequisites : list string;
  c_offered_semesters : list string
}.

Record ProgramInfo := {
  p_name : string;
  p_code : string;
  p_type : string;
  p_level : string;
  p_total_credits : Z;
  p_description : string;
  p_department : string;
  p_requirements : list string
}.

Record DepartmentInfo := {
  d_name : string;
  d_code : string;
  d_prefix : string;
  d_description : string;
  d_programs : list string;
  d_courses : list string
}.

(** The dictionary returned by [_extract_academic_data]. *)
Record academic_data := {
  courses : PyDict.t CourseInfo;
  programs : PyDict.t ProgramInfo;
  departments : PyDict.t DepartmentInfo
}.

(** ** The graph store *)

Inductive label := University | Department | Course | Program.

Inductive rel_type :=
| OFFERS_COURSE | BELONGS_TO_DISCIPLINE | PREREQUISITE_FOR
| OFFERS_PROGRAM | BELONGS_TO_DEPARTMENT | HAS_DEPARTMENT.

(** Property values.  [VTime] is a value of Cypher's [datetime()]. *)
Inductive value :=
| VStr (s : string)
| VInt (z : Z)
| VList (l : list string)
| VTime (t : Z).

#[global] Instance label_eq_dec : EqDecision label.
Proof. solve_decision. Defined.
#[global] Instance rel_type_eq_dec : EqDecision rel_type.
Proof. solve_decision. Defined.
#[global] Instance value_eq_dec : EqDecision value.
Proof. solve_decision. Defined.

Definition label_to_nat (l : label) : nat :=
  match l with University => 0 | Department => 1 | Course => 2 | Program => 3 end.
Definition label_of_nat (n : nat) : option label :=
  match n with
  | 0%nat => Some University | 1%nat => Some Department
  | 2%nat => Some Course | 3%nat => Some Program
  | _ => None
  end.
#[global] Instance label_countable : Countable label.
Proof.
  apply (inj_countable label_to_nat label_of_nat).
  intros []; reflexivity.
Defined.

(** The schema makes the natural key unique per label
    ([CREATE CONSTRAINT ... REQUIRE d.prefix IS UNIQUE] and its siblings), so
    a node is identified by its label and the value of its key property. *)
Definition node_id : Type := label * string.

Definition key_prop (l : label) : string :=
  match l with
  | University => "name"
  | Department => "prefix"
  | Course => "code"
  | Program => "name"
  end.

Definition props : Type := gmap string value.
Definition edge : Type := node_id * rel_type * node_id.

Record graph := {
  nodes : gmap node_id (gmap string value);
  edges : list edge
}.

Definition empty_graph : graph := {| nodes := ∅; edges := [] |}.

Definition node_count (g : graph) : nat := size (nodes g).
Definition edge_count (g : graph) : nat := length (edges g).

(** [SET n.p1 = v1, n.p2 = v2, ...]: the listed properties are overwritten,
    the others are kept. *)
Definition set_props (sets : list (string * value)) (n : gmap string value)
  : gmap string value :=
  fold_left (fun n pv => <[fst pv := snd pv]> n) sets n.

(** [MERGE (n:L {key: k}) SET ...] on the node map: the node with that key is
    matched, or created with the key property alone, and then updated. *)
Definition merge_set (i : node_id) (sets : list (string * value))
    (m : gmap node_id (gmap string value)) : gmap node_id (gmap string value) :=
  <[i := set_props sets (default {[key_prop (fst i) := VStr (snd i)]} (m !! i))]> m.

Definition merge_node (l : label) (k : string) (sets : list (string * value))
    (g : graph) : graph :=
  {| nodes := merge_set (l, k) sets (nodes g); edges := edges g |}.

(** [MERGE (a)-[:R]->(b)] for bound [a] and [b]: the relationship is created
    only when there is none. *)
Definition merge_edge (es : list edge) (e : edge) : list edge :=
  if decide (e ∈ es) then es else es ++ [e].

Definition merge_rel (a : node_id) (r : rel_type) (b : node_id) (g : graph) : graph :=
  {| nodes := nodes g; edges := merge_edge (edges g) (a, r, b) |}.

(** [MATCH (n:L {key: k})] finds a node. *)
Definition has_node (g : graph) (i : node_id) : bool :=
  bool_decide (i ∈ dom (nodes g)).

(** The nodes of one label, as [MATCH (n:L)] enumerates them. *)
Definition ids_with_label (l : label) (D : gset node_id) : list node_id :=
  List.filter (fun i => bool_decide (fst i = l)) (elements D).

(** ** [AcademicGraphBuilder._populate_neo4j] *)

Definition university_name : string := "Utah Tech University".

Definition merge_university (now : Z) : graph -> graph :=
  merge_node University university_name
    [("location", VStr "St. George, Utah");
     ("website", VStr "https://utahtech.edu");
     ("created_at", VTime now)].

Definition merge_department (now : Z) (d : DepartmentInfo) : graph -> graph :=
  merge_node Department (d_prefix d)
    [("name", VStr (d_name d));
     ("code", VStr (d_code d));
     ("description", VStr (d_description d));
     ("created_at", VTime now)].

Definition merge_course (now : Z) (c : CourseInfo) : graph -> graph :=
  merge_node Course (c_code c)
    [("prefix", VStr (c_prefix c));
     ("number", VStr (c_number c));
     ("title", VStr (c_title c));
     ("credits", VInt (c_credits c));
     ("level", VStr (c_level c));
     ("description", VStr (c_description c));
     ("prerequisites_text", VStr (PyStr.join ", " (c_prerequisites c)));
     ("offered_semesters", VList (c_offered_semesters c));
     ("created_at", VTime now)].

Definition merge_program (now : Z) (p : ProgramInfo) : graph -> graph :=
  merge_node Program (p_name p)
    [("code", VStr (p_code p));
     ("type", VStr (p_type p));
     ("level", VStr (p_level p));
     ("total_credits", VInt (p_total_credits p));
     ("description", VStr (p_description p));
     ("created_at", VTime now)].

(** [for x in xs: g = f(x, g)]. *)
Definition for_each {A S} (xs : list A) (f : A -> S -> S) (s : S) : S :=
  fold_left (fun s x => f x s) xs s.

(** [now] is what [datetime()] returns during the run. *)
Definition populate_neo4j (E : academic_data) (now : Z) (g : graph) : graph :=
  let g := merge_university now g in
  let g := for_each (PyDict.values (departments E)) (merge_department now) g in
  let g := for_each (PyDict.values (courses E)) (merge_course now) g in
  for_each (PyDict.values (programs E)) (merge_program now) g.

(** ** [AcademicGraphBuilder._extract_department_prefix] *)

Definition dept_mappings : list (string * string) :=
  [("art", "ART"); ("computer science", "CS"); ("nursing", "NURS");
   ("business", "BUS"); ("english", "ENGL"); ("mathematics", "MATH");
   ("biology", "BIOL"); ("chemistry", "CHEM"); ("physics", "PHYS");
   ("psychology", "PSY"); ("history", "HIST"); ("geography", "GEOG")].

Definition extract_department_prefix (department_name : string) : string :=
  let dept_lower := PyStr.strip (PyStr.lower department_name) in
  match List.find (fun kp => PyStr.contains (fst kp) dept_lower) dept_mappings with
  | Some kp => snd kp
  | None =>
      match PyStr.split dept_lower with
      | w :: _ => PyStr.upper (PyStr.take 4 w)
      | [] => ""
      end
  end.

(** Truth value of a Python string. *)
Definition truthy (s : string) : bool :=
  match s with EmptyString => false | _ => true end.

(** ** [AcademicGraphBuilder._create_relationships] *)

(** Step 1: [MATCH (c:Course {code}) MATCH (d:Department {prefix})
    MERGE (d)-[:OFFERS_COURSE]->(c) MERGE (c)-[:BELONGS_TO_DISCIPLINE]->(d)]. *)
Definition link_course_department (c : CourseInfo) (g : graph) : graph :=
  let cn := (Course, c_code c) in
  let dn := (Department, c_prefix c) in
  if has_node g cn && has_node g dn
  then merge_rel cn BELONGS_TO_DISCIPLINE dn (merge_rel dn OFFERS_COURSE cn g)
  else g.

(** Step 2: [MATCH (prereq:Course {code: $prereq_code})
    MATCH (course:Course {code: $course_code})
    MERGE (prereq)-[:PREREQUISITE_FOR]->(course)]. *)
Definition link_prerequisite (course_code prereq_code : string) (g : graph) : graph :=
  let pn := (Course, prereq_code) in
  let cn := (Course, course_code) in
  if has_node g pn && has_node g cn
  then merge_rel pn PREREQUISITE_FOR cn g
  else g.

Definition link_prerequisites (c : CourseInfo) : graph -> graph :=
  for_each (c_prerequisites c) (link_prerequisite (c_code c)).

(** Step 3: [MATCH (p:Program {name}) MATCH (d:Department {prefix})
    MERGE (d)-[:OFFERS_PROGRAM]->(p) MERGE (p)-[:BELONGS_TO_DEPARTMENT]->(d)]. *)
Definition link_program_department (p : ProgramInfo) (g : graph) : graph :=
  if truthy (p_department p) then
    let dept_prefix := extract_department_prefix (p_department p) in
    if truthy dept_prefix then
      let pn := (Program, p_name p) in
      let dn := (Department, dept_prefix) in
      if has_node g pn && has_node g dn
      then merge_rel pn BELONGS_TO_DEPARTMENT dn (merge_rel dn OFFERS_PROGRAM pn g)
      else g
    else g
  else g.

(** Step 4: [MATCH (u:University), (d:Department)
    WHERE NOT EXISTS((u)-[:HAS_DEPARTMENT]->(d))
    MERGE (u)-[:HAS_DEPARTMENT]->(d)]. *)
Definition university_department_pairs (D : gset node_id) : list edge :=
  u ← ids_with_label University D;
  d ← ids_with_label Department D;
  [(u, HAS_DEPARTMENT, d)].

Definition link_university_departments (g : graph) : graph :=
  let unlinked :=
    List.filter (fun e => bool_decide (e ∉ edges g))
                (university_department_pairs (dom (nodes g))) in
  {| nodes := nodes g; edges := fold_left merge_edge unlinked (edges g) |}.

Definition create_relationships (E : academic_data) (g : graph) : graph :=
  let g := for_each (PyDict.values (courses E)) link_course_department g in
  let g := for_each (PyDict.values (courses E)) link_prerequisites g in
  let g := for_each (PyDict.values (programs E)) link_program_department g in
  link_university_departments g.

(** [build_academic_graph], the graph side: populate, then link. *)
Definition build_graph (E : academic_data) (now : Z) (g : graph) : graph :=
  create_relationships E (populate_neo4j E now g).

(** ** The planner's view of the store ([graph_enhanced_tools.py]) *)

(** A field of a result record: a property value, or [None] for [null]. *)
Definition field : Type := option value.

(** Truth value of a field, as Python's [or] and [if] see it. *)
Definition py_truthy (v : field) : bool :=
  match v with
  | None => false
  | Some (VStr s) => truthy s
  | Some (VInt z) => negb (z =? 0)
  | Some (VList l) => match l with [] => false | _ => true end
  | Some (VTime _) => true
  end.

(** [record["credits"] or 3]. *)
Definition or_3 (v : field) : value :=
  match v with
  | Some x => if py_truthy v then x else VInt 3
  | None => VInt 3
  end.

Definition as_int (v : value) : option Z :=
  match v with VInt z => Some z | _ => None end.

Definition sum_Z (l : list Z) : Z := fold_right Z.add 0 l.

(** [sum(vs)]: [None] stands for the [TypeError] that a non-integer raises. *)
Definition py_sum (vs : list value) : option Z :=
  zs ← mapM as_int vs; Some (sum_Z zs).

(** Values that can be put in a Python [set]. *)
Definition hashable (v : field) : bool :=
  match v with Some (VList _) => false | _ => true end.

(** [set(xs)], listed in order of first occurrence. *)
Fixpoint dedup_fields (xs : list field) : list field :=
  match xs with
  | [] => []
  | x :: xs' => x :: List.filter (fun y => bool_decide (y ≠ x)) (dedup_fields xs')
  end.

Definition py_set (xs : list field) : option (list field) :=
  if forallb hashable xs then Some (dedup_fields xs) else None.

Definition course_node (g : graph) (course_code : string) : option (gmap string value) :=
  nodes g !! (Course, course_code).

(** [collect(prereq.code)] over
    [(prereq:Course)-[:PREREQUISITE_FOR]->(course:Course {code: $course_code})],
    followed by [[p for p in ... if p]].  Codes are strings. *)
Definition prereq_code_of (g : graph) (course_code : string) (e : edge) : list string :=
  match e with
  | ((Course, pk), PREREQUISITE_FOR, (Course, ck)) =>
      if String.eqb ck course_code then
        match nodes g !! (Course, pk) with
        | Some n =>
            match n !! "code" with
            | Some (VStr c) => if truthy c then [c] else []
            | _ => []
            end
        | None => []
        end
      else []
  | _ => []
  end.

Definition prerequisites_of (g : graph) (course_code : string) : list string :=
  e ← edges g; prereq_code_of g course_code e.

(** The dictionary stored per course by [validate_course_sequence]. *)
Record course_details := {
  cd_code : field;
  cd_title : field;
  cd_credits : value;
  cd_level : field;
  cd_department : field;
  cd_prerequisites : list string
}.

(** The query of [validate_course_sequence] and [recommend_course_sequence];
    [None] when [result.single()] has no record. *)
Definition course_query (g : graph) (course_code : string) : option course_details :=
  n ← course_node g course_code;
  Some {| cd_code := n !! "code";
          cd_title := n !! "title";
          cd_credits := or_3 (n !! "credits");
          cd_level := n !! "level";
          cd_department := n !! "department";
          cd_prerequisites := prerequisites_of g course_code |}.

(** *** [get_prerequisite_chain] *)

Record PrerequisitePath := {
  target_course : string;
  path : list field;
  total_credits : Z;
  semesters_needed : Z
}.

Definition is_prereq_edge_into (t : node_id) (e : edge) : bool :=
  bool_decide (snd (fst e) = PREREQUISITE_FOR) && bool_decide (snd e = t).

(** The paths of at most [fuel] relationships that end in [t] and use no
    relationship twice; a relationship is identified by its position. *)
Fixpoint trails_to (fuel : nat) (es : list (nat * edge)) (used : list nat)
    (t : node_id) : list (list node_id) :=
  match fuel with
  | O => []
  | S fuel' =>
      ie ← List.filter (fun ie => is_prereq_edge_into t (snd ie)
                                  && bool_decide (fst ie ∉ used)) es;
      let s := fst (fst (snd ie)) in
      [s; t] :: List.map (fun p => p ++ [t]) (trails_to fuel' es (fst ie :: used) s)
  end.

Definition indexed {A} (l : list A) : list (nat * A) := imap (fun i x => (i, x)) l.

Definition path_depth (p : list node_id) : Z := Z.of_nat (length p) - 1.

Definition starts_at_course (p : list node_id) : bool :=
  match p with
  | (Course, _) :: _ => true
  | _ => false
  end.

(** [MATCH path = (start:Course)-[:PREREQUISITE_FOR*1..10]->(target:Course {code})
    WITH path, length(path) as depth WHERE depth <= $max_depth
    ... ORDER BY depth DESC]. *)
Definition chain_paths (g : graph) (course_code : string) (max_depth : Z)
  : list (list node_id) :=
  let found :=
    List.filter (fun p => starts_at_course p && (path_depth p <=? max_depth))
      (if has_node g (Course, course_code)
       then trails_to 10 (indexed (edges g)) [] (Course, course_code)
       else []) in
  d ← rev (seq 1 10);
  List.filter (fun p => path_depth p =? Z.of_nat d) found.

Definition node_prop (g : graph) (p : string) (i : node_id) : field :=
  n ← nodes g !! i; n !! p.

Definition chain_entry (g : graph) (course_code : string) (p : list node_id)
  : option PrerequisitePath :=
  let course_path := List.map (node_prop g "code") p in
  let credit_path := List.map (node_prop g "credits") p in
  let depth := path_depth p in
  credits ← mapM (fun v => v ≫= as_int) credit_path;
  Some {| target_course := course_code;
          path := course_path;
          total_credits := sum_Z credits;
          semesters_needed := Z.max 1 ((depth + 1) / 2) |}.

Definition get_prerequisite_chain (g : graph) (course_code : string) (max_depth : Z)
  : option (list PrerequisitePath) :=
  mapM (chain_entry g course_code) (chain_paths g course_code max_depth).

(** *** [validate_course_sequence] *)

Record violation := {
  v_course : string;
  v_missing_prerequisites : list string;
  v_message : string
}.

Record sequence_statistics := {
  st_total_courses : Z;
  st_total_credits : Z;
  st_upper_division_credits : Z;
  st_disciplines : list field;
  st_discipline_count : Z
}.

Record validation := {
  valid : bool;
  violations : list violation;
  statistics : sequence_statistics;
  course_details_of : PyDict.t course_details
}.

Definition collect_course_info (g : graph) (course_codes : list string)
  : PyDict.t course_details :=
  for_each course_codes
    (fun course_code info =>
       match course_query g course_code with
       | Some r => PyDict.set course_code r info
       | None => info
       end) [].

Definition mem_str (x : string) (l : list string) : bool :=
  existsb (String.eqb x) l.

(** The loop that checks the prerequisites: the state is the pair of the
    violations found and the courses completed so far. *)
Definition check_course (course_info : PyDict.t course_details) (course_code : string)
    (st : list violation * list string) : list violation * list string :=
  match PyDict.get course_code course_info with
  | Some info =>
      let missing_prereqs :=
        List.filter (fun p => negb (mem_str p (snd st))) (cd_prerequisites info) in
      let vs :=
        match missing_prereqs with
        | [] => fst st
        | _ => fst st ++
                 [{| v_course := course_code;
                     v_missing_prerequisites := missing_prereqs;
                     v_message := course_code +:+ " requires " +:+
                                  PyStr.join ", " missing_prereqs +:+
                                  " which are not completed yet" |}]
        end in
      (vs, snd st ++ [course_code])
  | None => st
  end.

Definition is_upper_division (v : field) : bool :=
  bool_decide (v = Some (VStr "upper-division")).

Definition validate_course_sequence (g : graph) (course_codes : list string)
  : option validation :=
  let course_info := collect_course_info g course_codes in
  let vs := fst (for_each course_codes (check_course course_info) ([], [])) in
  let infos := PyDict.values course_info in
  total ← py_sum (List.map cd_credits infos);
  upper ← py_sum (List.map cd_credits
                    (List.filter (fun i => is_upper_division (cd_level i)) infos));
  disciplines ← py_set (List.map cd_department infos);
  Some {| valid := match vs with [] => true | _ => false end;
          violations := vs;
          statistics :=
            {| st_total_courses := Z.of_nat (length course_info);
               st_total_credits := total;
               st_upper_division_credits := upper;
               st_disciplines := disciplines;
               st_discipline_count := Z.of_nat (length disciplines) |};
          course_details_of := course_info |}.

(** *** [_topological_sort] *)

(** [prerequisite_graph.get(course, [])]. *)
Definition pg_get (prerequisite_graph : PyDict.t (list string)) (course : string)
  : list string :=
  default [] (PyDict.get course prerequisite_graph).

Definition degree_of (in_degree : PyDict.t Z) (course : string) : Z :=
  default 0 (PyDict.get course in_degree).

(** [for course in courses: for prereq in ...: if prereq in in_degree:
    in_degree[course] += 1]. *)
Definition count_prerequisites (courses : list string)
    (prerequisite_graph : PyDict.t (list string)) (in_degree : PyDict.t Z)
  : PyDict.t Z :=
  for_each courses
    (fun course =>
       for_each (pg_get prerequisite_graph course)
         (fun prereq d =>
            if PyDict.mem prereq d
            then PyDict.set course (degree_of d course + 1) d
            else d))
    in_degree.

Record kahn_state := {
  in_degree : PyDict.t Z;
  queue : list string;
  result : list string
}.

(** The body of the inner [for course in courses] of the [while] loop. *)
Definition release (prerequisite_graph : PyDict.t (list string)) (current course : string)
    (st : PyDict.t Z * list string) : PyDict.t Z * list string :=
  if mem_str current (pg_get prerequisite_graph course) then
    let d := PyDict.set course (degree_of (fst st) course - 1) (fst st) in
    if degree_of d course =? 0 then (d, snd st ++ [course]) else (d, snd st)
  else st.

(** One iteration of [while queue]. *)
Definition kahn_step (courses : list string)
    (prerequisite_graph : PyDict.t (list string)) (st : kahn_state) : kahn_state :=
  match queue st with
  | [] => st
  | current :: rest =>
      let dq := for_each courses (release prerequisite_graph current)
                  (in_degree st, rest) in
      {| in_degree := fst dq; queue := snd dq; result := result st ++ [current] |}
  end.

Fixpoint kahn_loop (fuel : nat) (courses : list string)
    (prerequisite_graph : PyDict.t (list string)) (st : kahn_state) : kahn_state :=
  match fuel with
  | O => st
  | S fuel' =>
      match queue st with
      | [] => st
      | _ => kahn_loop fuel' courses prerequisite_graph
               (kahn_step courses prerequisite_graph st)
      end
  end.

Definition kahn_init (courses : list string)
    (prerequisite_graph : PyDict.t (list string)) : kahn_state :=
  let d0 := for_each courses (fun course d => PyDict.set course 0 d) [] in
  let d := count_prerequisites courses prerequisite_graph d0 in
  {| in_degree := d;
     queue := List.map fst (List.filter (fun kv => snd kv =? 0) d);
     result := [] |}.

(** The loop is run for at most [fuel] iterations; [topological_sort] gives it
    one iteration per course, which empties the queue. *)
Definition topological_sort_fuel (fuel : nat) (courses : list string)
    (prerequisite_graph : PyDict.t (list string)) : kahn_state :=
  kahn_loop fuel courses prerequisite_graph (kahn_init courses prerequisite_graph).

Definition topological_sort (courses : list string)
    (prerequisite_graph : PyDict.t (list string)) : list string :=
  result (topological_sort_fuel (length courses) courses prerequisite_graph).

(** *** [recommend_course_sequence] *)

Record CourseNode := {
  cn_code : field;
  cn_title : field;
  cn_credits : value;
  cn_level : field;
  cn_department : field;
  cn_description : string;
  cn_prerequisites : list string
}.

Record AcademicPlan := {
  plan_courses : list string;
  plan_total_credits : Z;
  plan_upper_division_credits : Z;
  plan_disciplines : list field;
  plan_prerequisite_violations : list string;
  recommended_sequence : list (list string)
}.

Definition collect_all_courses (g : graph) (target_courses : list string)
  : PyDict.t CourseNode * PyDict.t (list string) :=
  for_each target_courses
    (fun course_code acc =>
       match course_query g course_code with
       | Some r =>
           (PyDict.set course_code
              {| cn_code := cd_code r; cn_title := cd_title r;
                 cn_credits := cd_credits r; cn_level := cd_level r;
                 cn_department := cd_department r; cn_description := "";
                 cn_prerequisites := cd_prerequisites r |} (fst acc),
            PyDict.set course_code (cd_prerequisites r) (snd acc))
       | None => acc
       end) ([], []).

(** The state of the semester loop: finished semesters, the current semester
    and its credits. *)
Definition pack_course (all_courses : PyDict.t CourseNode)
    (max_credits_per_semester : Z) (course_code : string)
    (st : option (list (list string) * list string * Z))
  : option (list (list string) * list string * Z) :=
  '(semester_sequence, current_semester, current_credits) ← st;
  match PyDict.get course_code all_courses with
  | Some course =>
      credits ← as_int (cn_credits course);
      if (current_credits + credits >? max_credits_per_semester)
         && match current_semester with [] => false | _ => true end
      then Some (semester_sequence ++ [current_semester], [course_code], credits)
      else Some (semester_sequence, current_semester ++ [course_code],
                 current_credits + credits)
  | None => st
  end.

Definition pack_semesters (all_courses : PyDict.t CourseNode)
    (max_credits_per_semester : Z) (sequence : list string)
  : option (list (list string)) :=
  '(semester_sequence, current_semester, _) ←
     for_each sequence (pack_course all_courses max_credits_per_semester)
       (Some ([], [], 0));
  Some match current_semester with
       | [] => semester_sequence
       | _ => semester_sequence ++ [current_semester]
       end.

Definition recommend_course_sequence (g : graph) (target_courses : list string)
    (max_credits_per_semester : Z) (max_semesters : Z) : option AcademicPlan :=
  let '(all_courses, prerequisite_graph) := collect_all_courses g target_courses in
  let sequence := topological_sort target_courses prerequisite_graph in
  semester_sequence ← pack_semesters all_courses max_credits_per_semester sequence;
  let nodes := PyDict.values all_courses in
  total ← py_sum (List.map cn_credits nodes);
  upper ← py_sum (List.map cn_credits
                    (List.filter (fun c => is_upper_division (cn_level c)) nodes));
  disciplines ← py_set (List.map cn_department nodes);
  Some {| plan_courses := PyDict.keys all_courses;
          plan_total_credits := total;
          plan_upper_division_credits := upper;
          plan_disciplines := disciplines;
          plan_prerequisite_violations := [];
          recommended_sequence := semester_sequence |}.

(** *** [analyze_degree_progress] *)

Record progress_info := {
  pi_code : field;
  pi_title : field;
  pi_credits : value;
  pi_level : field;
  pi_department : field
}.

Definition progress_query (g : graph) (course_code : string) : option progress_info :=
  n ← course_node g course_code;
  Some {| pi_code := n !! "code";
          pi_title := n !! "title";
          pi_credits := or_3 (n !! "credits");
          pi_level := n !! "level";
          pi_department := n !! "department" |}.

Record requirement := {
  required : Z;
  current : Z;
  met : bool;
  remaining : Z
}.

Record degree_progress := {
  completed_courses_count : Z;
  completed_credits : Z;
  completed_upper_division_credits : Z;
  completed_disciplines : list field;
  completed_discipline_count : Z;
  remaining_courses_count : Z;
  remaining_course_list : list string;
  remaining_credits : Z;
  remaining_upper_division_credits : Z;
  totals_credits : Z;
  totals_upper_division_credits : Z;
  req_total_credits : requirement;
  req_upper_division_credits : requirement;
  req_disciplines : requirement;
  percentage : Q;
  ready_to_graduate : bool
}.

(** The courses of a list that were found, in the order of the list. *)
Definition found_infos (g : graph) (codes : list string) : list progress_info :=
  code ← codes;
  match progress_query g code with Some i => [i] | None => [] end.

(** [min(100, (total_credits / 120) * 100)], in exact arithmetic. *)
Definition completion_percentage (total_credits : Z) : Q :=
  let x := ((inject_Z total_credits / 120) * 100)%Q in
  if Qle_bool 100 x then 100%Q else x.

Definition analyze_degree_progress (g : graph)
    (completed_courses target_courses : list string) : option degree_progress :=
  let completed := found_infos g completed_courses in
  completed_credits ← py_sum (List.map pi_credits completed);
  completed_upper_division ←
    py_sum (List.map pi_credits
              (List.filter (fun i => is_upper_division (pi_level i)) completed));
  completed_disciplines ← py_set (List.map pi_department completed);
  let remaining_courses :=
    List.filter (fun code => negb (mem_str code completed_courses)) target_courses in
  let remaining := found_infos g remaining_courses in
  remaining_credits ← py_sum (List.map pi_credits remaining);
  remaining_upper_division ←
    py_sum (List.map pi_credits
              (List.filter (fun i => is_upper_division (pi_level i)) remaining));
  let total_credits := completed_credits + remaining_credits in
  let total_upper_division := completed_upper_division + remaining_upper_division in
  let discipline_count := Z.of_nat (length completed_disciplines) in
  let meets_credit_requirement := 120 <=? total_credits in
  let meets_upper_division_requirement := 40 <=? total_upper_division in
  let meets_discipline_requirement := 3 <=? discipline_count in
  Some {| completed_courses_count := Z.of_nat (length completed_courses);
          completed_credits := completed_credits;
          completed_upper_division_credits := completed_upper_division;
          completed_disciplines := completed_disciplines;
          completed_discipline_count := discipline_count;
          remaining_courses_count := Z.of_nat (length remaining_courses);
          remaining_course_list := remaining_courses;
          remaining_credits := remaining_credits;
          remaining_upper_division_credits := remaining_upper_division;
          totals_credits := total_credits;
          totals_upper_division_credits := total_upper_division;
          req_total_credits :=
            {| required := 120; current := total_credits;
               met := meets_credit_requirement;
               remaining := Z.max 0 (120 - total_credits) |};
          req_upper_division_credits :=
            {| required := 40; current := total_upper_division;
               met := meets_upper_division_requirement;
               remaining := Z.max 0 (40 - total_upper_division) |};
          req_disciplines :=
            {| required := 3; current := discipline_count;
               met := meets_discipline_requirement;
               remaining := Z.max 0 (3 - discipline_count) |};
          percentage := completion_percentage total_credits;
          ready_to_graduate :=
            meets_credit_requirement && meets_upper_division_requirement
            && meets_discipline_requirement |}.

(** ** Regular expressions, as the [re] module matches them

    A backtracking matcher for the fragment that the patterns of the program
    use: literals, character sets, bounded and unbounded repetition of a set
    (greedy or lazy), sequence, alternation, optional parts, capture groups,
    [\b], [^] and [$]. *)

Module Re.

Inductive item :=
| IChar (c : ascii)
| IRange (lo hi : ascii)
| ISpace                      (* \s *)
| IDigit.                     (* \d *)

(** [[...]] when [negated] is [false], [[^...]] when it is [true]. *)
Record cset := { negated : bool; items : list item }.

Inductive regex :=
| Lit (s : string)
| Rep (cs : cset) (lo : nat) (hi : option nat) (greedy : bool)
| Seq (r1 r2 : regex)
| Alt (r1 r2 : regex)
| Opt (r : regex)
| Group (n : nat) (r : regex)
| WordBoundary
| StartAnchor
| EndAnchor.

Record flags := { ignorecase : bool; multiline : bool }.

Definition no_flags : flags := {| ignorecase := false; multiline := false |}.
Definition IGNORECASE : flags := {| ignorecase := true; multiline := false |}.
Definition MULTILINE : flags := {| ignorecase := false; multiline := true |}.
Definition MULTILINE_IGNORECASE : flags := {| ignorecase := true; multiline := true |}.

Definition in_item (c : ascii) (i : item) : bool :=
  match i with
  | IChar a => Ascii.eqb c a
  | IRange lo hi => PyStr.in_range (PyStr.code lo) (PyStr.code hi) c
  | ISpace => PyStr.is_space c
  | IDigit => PyStr.is_digit c
  end.

Definition in_items (fl : flags) (c : ascii) (l : list item) : bool :=
  existsb (in_item c) l
  || (ignorecase fl
      && (existsb (in_item (PyStr.lower_char c)) l
          || existsb (in_item (PyStr.upper_char c)) l)).

Definition in_cset (fl : flags) (c : ascii) (cs : cset) : bool :=
  if negated cs then negb (in_items fl c (items cs)) else in_items fl c (items cs).

Definition char_eq (fl : flags) (a b : ascii) : bool :=
  if ignorecase fl
  then Ascii.eqb (PyStr.lower_char a) (PyStr.lower_char b)
  else Ascii.eqb a b.

(** The text of the groups that took part in the match. *)
Definition captures : Type := list (nat * string).

Fixpoint group (n : nat) (cs : captures) : option string :=
  match cs with
  | [] => None
  | (m, s) :: cs' => if Nat.eqb n m then Some s else group n cs'
  end.

(** A position in the subject: the character before it and the text after it. *)
Definition cont (R : Type) : Type := option ascii -> string -> captures -> option R.

Definition orelse {R} (a b : option R) : option R :=
  match a with Some _ => a | None => b end.

Fixpoint lit {R} (fl : flags) (p : string) (prev : option ascii) (s : string)
    (k : option ascii -> string -> option R) : option R :=
  match p with
  | EmptyString => k prev s
  | String a p' =>
      match s with
      | String c s' => if char_eq fl a c then lit fl p' (Some c) s' k else None
      | EmptyString => None
      end
  end.

Definition hi_allows (hi : option nat) : bool :=
  match hi with Some O => false | _ => true end.

Fixpoint rep {R} (fl : flags) (cs : cset) (lo : nat) (hi : option nat)
    (greedy : bool) (prev : option ascii) (s : string)
    (k : option ascii -> string -> option R) : option R :=
  let stop := match lo with O => k prev s | S _ => None end in
  match s with
  | String c s' =>
      if in_cset fl c cs && hi_allows hi then
        let more := rep fl cs (Nat.pred lo) (Nat.pred <$> hi) greedy (Some c) s' k in
        if greedy then orelse more stop else orelse stop more
      else stop
  | EmptyString => stop
  end.

Definition is_word_at (c : option ascii) : bool :=
  match c with Some a => PyStr.is_word a | None => false end.

Definition next_char (s : string) : option ascii :=
  match s with String c _ => Some c | EmptyString => None end.

Definition at_start (fl : flags) (prev : option ascii) : bool :=
  match prev with
  | None => true
  | Some c => multiline fl && Ascii.eqb c "010"
  end.

Definition at_end (fl : flags) (s : string) : bool :=
  match s with
  | EmptyString => true
  | String c EmptyString => Ascii.eqb c "010"
  | String c _ => multiline fl && Ascii.eqb c "010"
  end.

(** The text between two positions of the same subject. *)
Definition consumed (before after : string) : string :=
  PyStr.take (String.length before - String.length after) before.

Fixpoint run {R} (fl : flags) (r : regex) (prev : option ascii) (s : string)
    (cs : captures) (k : cont R) : option R :=
  match r with
  | Lit p => lit fl p prev s (fun prev' s' => k prev' s' cs)
  | Rep c lo hi greedy => rep fl c lo hi greedy prev s (fun prev' s' => k prev' s' cs)
  | Seq r1 r2 => run fl r1 prev s cs (fun prev' s' cs' => run fl r2 prev' s' cs' k)
  | Alt r1 r2 => orelse (run fl r1 prev s cs k) (run fl r2 prev s cs k)
  | Opt r1 => orelse (run fl r1 prev s cs k) (k prev s cs)
  | Group n r1 =>
      run fl r1 prev s cs (fun prev' s' cs' => k prev' s' ((n, consumed s s') :: cs'))
  | WordBoundary =>
      if xorb (is_word_at prev) (is_word_at (next_char s)) then k prev s cs else None
  | StartAnchor => if at_start fl prev then k prev s cs else None
  | EndAnchor => if at_end fl s then k prev s cs else None
  end.

(** A match object: [m.start()], [m.group(0)], the groups, and the text
    that follows [m.end()]. *)
Record match_ := {
  m_start : nat;
  m_text : string;
  m_groups : captures;
  m_after : string
}.

Definition match_at (fl : flags) (r : regex) (start : nat) (prev : option ascii)
    (s : string) : option match_ :=
  run fl r prev s []
    (fun _ s' cs => Some {| m_start := start; m_text := consumed s s';
                            m_groups := cs; m_after := s' |}).

(** [re.match(r, s)]. *)
Definition match_start (fl : flags) (r : regex) (s : string) : option match_ :=
  match_at fl r 0 None s.

Definition try_at (fl : flags) (r : regex) (start : nat) (prev : option ascii)
    (s : string) : option match_ :=
  match match_at fl r start prev s with
  | Some m => match m_text m with EmptyString => None | _ => Some m end
  | None => None
  end.

(** [re.finditer(r, s)] for a pattern that matches no empty text: the
    non-overlapping matches from left to right.  [skip] counts the
    characters of the last match that are still to be passed. *)
Fixpoint scan (fl : flags) (r : regex) (skip : nat) (start : nat)
    (prev : option ascii) (s : string) : list match_ :=
  match s with
  | EmptyString => []
  | String c s' =>
      match skip with
      | S skip' => scan fl r skip' (S start) (Some c) s'
      | O =>
          match try_at fl r start prev s with
          | Some m =>
              m :: scan fl r (Nat.pred (String.length (m_text m))) (S start) (Some c) s'
          | None => scan fl r 0 (S start) (Some c) s'
          end
      end
  end.

Definition finditer (fl : flags) (r : regex) (s : string) : list match_ :=
  scan fl r 0 0 None s.

(** [re.search(r, s)]. *)
Definition search (fl : flags) (r : regex) (s : string) : option match_ :=
  head (finditer fl r s).

(** [re.sub(r, repl, s)] for a pattern that matches no empty text. *)
Fixpoint sub_scan (fl : flags) (r : regex) (repl : string) (skip : nat)
    (prev : option ascii) (s : string) : string :=
  match s with
  | EmptyString => EmptyString
  | String c s' =>
      match skip with
      | S skip' => sub_scan fl r repl skip' (Some c) s'
      | O =>
          match try_at fl r 0 prev s with
          | Some m =>
              repl +:+ sub_scan fl r repl (Nat.pred (String.length (m_text m)))
                         (Some c) s'
          | None => String c (sub_scan fl r repl 0 (Some c) s')
          end
      end
  end.

Definition sub (fl : flags) (r : regex) (repl : string) (s : string) : string :=
  sub_scan fl r repl 0 None s.

(** Building blocks of the patterns. *)
Definition upper_AZ : cset := {| negated := false; items := [IRange "A" "Z"] |}.
Definition space : cset := {| negated := false; items := [ISpace] |}.
Definition digit : cset := {| negated := false; items := [IDigit] |}.
Definition none_of (l : list item) : cset := {| negated := true; items := l |}.

Definition star (cs : cset) : regex := Rep cs 0 None true.
Definition plus (cs : cset) : regex := Rep cs 1 None true.
Definition lazy_star (cs : cset) : regex := Rep cs 0 None false.
Definition between (lo hi : nat) (cs : cset) : regex := Rep cs lo (Some hi) true.
Definition exactly (n : nat) (cs : cset) : regex := Rep cs n (Some n) true.
Definition maybe (cs : cset) : regex := Rep cs 0 (Some 1%nat) true.

Fixpoint cat (l : list regex) : regex :=
  match l with
  | [] => Lit ""
  | [r] => r
  | r :: l' => Seq r (cat l')
  end.

End Re.

(** ** The text extractors of [AcademicGraphBuilder] *)

Import Re.

Definition nl : ascii := "010".

(** [[A-Z]{2,4}\s+\d{4}[A-Z]?], the shape of a course code. *)
Definition code_shape : list regex :=
  [between 2 4 upper_AZ; plus space; exactly 4 digit; maybe upper_AZ].

(** *** [_is_valid_course_code] *)

Definition invalid_prefixes : list string :=
  ["FALL"; "SPRING"; "SUMMER"; "WINTER";
   "IN"; "ON"; "AT"; "TO"; "FOR"; "THE";
   "NTIL"; "CHIN"; "YEAR"; "PAGE";
   "AND"; "OR"; "BUT"; "NOT"; "WITH"].

Definition facility_keywords : list string :=
  ["stadium"; "center"; "building"; "facility"; "hall"; "library"].

Definition is_valid_course_code (prefix number title : string) : bool :=
  if mem_str prefix invalid_prefixes then false
  else if (PyStr.startswith "19" number || PyStr.startswith "20" number)
          && (PyStr.len number =? 4) then false
  else if (PyStr.len (PyStr.strip title) <? 5) || PyStr.isdigit (PyStr.strip title)
       then false
  else if existsb (fun keyword => PyStr.contains keyword (PyStr.lower title))
                  facility_keywords then false
  else true.

(** *** [_extract_course_description] *)

(** [\n[A-Z]{2,4}\s+\d{4}\.], [\n[A-Z][A-Z\s]+:] and [\n\n\n]. *)
Definition end_patterns : list regex :=
  [cat [Lit (String nl ""); between 2 4 upper_AZ; plus space; exactly 4 digit; Lit "."];
   cat [Lit (String nl ""); exactly 1 upper_AZ;
        plus {| negated := false; items := [IRange "A" "Z"; ISpace] |}; Lit ":"];
   Lit (String nl (String nl (String nl "")))].

Definition whitespace_run : regex := plus space.          (* \s+ *)
Definition bold_marker : regex := Lit "**".                (* \*\* *)

Definition extract_course_description (content_after : string) : string :=
  let snippet := PyStr.take 2000 content_after in
  let end_pos :=
    for_each end_patterns
      (fun pattern end_pos =>
         match search no_flags pattern snippet with
         | Some m => Nat.min end_pos (m_start m)
         | None => end_pos
         end) (String.length snippet) in
  let description := PyStr.strip (PyStr.take end_pos snippet) in
  let description := sub no_flags whitespace_run " " description in
  sub no_flags bold_marker "" description.

(** *** [_extract_prerequisites] *)

(** [\b([A-Z]{2,4})\s+(\d{4}[A-Z]?)\b]. *)
Definition course_code_pattern : regex :=
  cat [WordBoundary; Group 1 (between 2 4 upper_AZ); plus space;
       Group 2 (Seq (exactly 4 digit) (maybe upper_AZ)); WordBoundary].

Definition not_dot : cset := none_of [IChar "."].

(** [Prerequisites?:([^.]*?)(?:\.|$)], [Prereq:([^.]*?)(?:\.|$)] and
    [Required:([^.]*?)(?:\.|$)]. *)
Definition prereq_patterns : list regex :=
  [cat [Lit "Prerequisite"; Opt (Lit "s"); Lit ":";
        Group 1 (lazy_star not_dot); Alt (Lit ".") EndAnchor];
   cat [Lit "Prereq:"; Group 1 (lazy_star not_dot); Alt (Lit ".") EndAnchor];
   cat [Lit "Required:"; Group 1 (lazy_star not_dot); Alt (Lit ".") EndAnchor]].

(** [([A-Z]{2,4}\s+\d{4}[A-Z]?)\s+\(Grade [A-Z] or higher\)],
    [([A-Z]{2,4}\s+\d{4}[A-Z]?)\s+or higher] and
    [completion of\s+([A-Z]{2,4}\s+\d{4}[A-Z]?)]. *)
Definition prereq_context_patterns : list regex :=
  [cat [Group 1 (cat code_shape); plus space; Lit "(Grade ";
        exactly 1 upper_AZ; Lit " or higher)"];
   cat [Group 1 (cat code_shape); plus space; Lit "or higher"];
   cat [Lit "completion of"; plus space; Group 1 (cat code_shape)]].

(** [^[A-Z]{2,4}\s+\d{4}[A-Z]?$]. *)
Definition strict_code_pattern : regex :=
  cat (StartAnchor :: code_shape ++ [EndAnchor]).

Definition group_text (n : nat) (m : match_) : string :=
  default "" (group n (m_groups m)).

(** [re.findall] of a pattern with two groups, each pair formatted as
    [f"{prefix.upper()} {number.upper()}"]. *)
Definition find_course_codes (text : string) : list string :=
  List.map (fun m => PyStr.upper (group_text 1 m) +:+ " " +:+ PyStr.upper (group_text 2 m))
    (finditer IGNORECASE course_code_pattern text).

(** [if x not in l: l.append(x)]. *)
Definition append_new (x : string) (l : list string) : list string :=
  if mem_str x l then l else l ++ [x].

Definition normalize_code (s : string) : string :=
  sub no_flags whitespace_run " " (PyStr.upper (PyStr.strip s)).

Definition extract_prerequisites (description : string) : list string :=
  let all_courses := find_course_codes description in
  let prereq_sections :=
    pattern ← prereq_patterns;
    List.map (group_text 1) (finditer IGNORECASE pattern description) in
  let prerequisites :=
    for_each prereq_sections
      (fun section => for_each (find_course_codes section) append_new) [] in
  let prerequisites :=
    match prerequisites, all_courses with
    | [], _ :: _ =>
        for_each prereq_context_patterns
          (fun pattern =>
             for_each (finditer IGNORECASE pattern description)
               (fun m => append_new (normalize_code (group_text 1 m))))
          prerequisites
    | _, _ => prerequisites
    end in
  for_each prerequisites
    (fun prereq cleaned_prereqs =>
       let cleaned := normalize_code prereq in
       match match_start no_flags strict_code_pattern cleaned with
       | Some _ => append_new cleaned cleaned_prereqs
       | None => cleaned_prereqs
       end) [].

(** *** [_extract_courses_from_content] *)

(** [\b([A-Z]{2,4})\s+(\d{4})\.\s+([^.\n]+)\.\s*(?:(\d+)\s*(?:Hours?|Credits?))?]. *)
Definition course_pattern : regex :=
  cat [WordBoundary; Group 1 (between 2 4 upper_AZ); plus space;
       Group 2 (exactly 4 digit); Lit "."; plus space;
       Group 3 (plus (none_of [IChar "."; IChar nl])); Lit "."; star space;
       Opt (cat [Group 4 (plus digit); star space;
                 Alt (Seq (Lit "Hour") (Opt (Lit "s")))
                     (Seq (Lit "Credit") (Opt (Lit "s")))])].

(** The level of a course, from its number. *)
Definition course_level (number : string) : string :=
  if 3000 <=? PyStr.int number then "upper_division"
  else if 5000 <=? PyStr.int number then "graduate"
  else "lower_division".

(** [int] refuses a text of more digits than this with a [ValueError]
    (CPython's default limit on the conversion of integer strings). *)
Definition max_str_digits : nat := 4300.

(** The body of the loop over the matches.  When [int(credits_str)] raises
    [ValueError] the default of 3 credits stays. *)
Definition course_of_match (m : match_) : option CourseInfo :=
  let prefix := PyStr.upper (group_text 1 m) in
  let number := group_text 2 m in
  let title := PyStr.strip (group_text 3 m) in
  let credits_str := group 4 (m_groups m) in
  let code := prefix +:+ " " +:+ number in
  if negb (is_valid_course_code prefix number title) then None
  else
    let credits :=
      match credits_str with
      | Some s =>
          if truthy s then
            if (max_str_digits <? String.length s)%nat then 3 else PyStr.int s
          else 3
      | None => 3
      end in
    let level := course_level number in
    let description := extract_course_description (m_after m) in
    let prerequisites := extract_prerequisites description in
    Some {| c_code := code; c_prefix := prefix; c_number := number;
            c_title := title; c_credits := credits; c_level := level;
            c_description := description; c_prerequisites := prerequisites;
            c_corequisites := [];
            c_offered_semesters := ["Fall"; "Spring"] |}.

Definition extract_courses_from_content (content url : string) : PyDict.t CourseInfo :=
  for_each (finditer MULTILINE course_pattern content)
    (fun m courses =>
       match course_of_match m with
       | Some c => PyDict.set (c_code c) c courses
       | None => courses
       end) [].

(** *** [_extract_department_from_url] and [_extract_programs_from_content] *)

(** [/([^/]+)/?$]. *)
Definition url_tail_pattern : regex :=
  cat [Lit "/"; Group 1 (plus (none_of [IChar "/"])); Opt (Lit "/"); EndAnchor].

Definition extract_department_from_url (url : string) : string :=
  match search no_flags url_tail_pattern url with
  | Some m => PyStr.title (PyStr.replace_char "-" " " (group_text 1 m))
  | None => "Unknown Department"
  end.

Definition not_comma_nl : cset := none_of [IChar ","; IChar nl].

(** [(Bachelor of [^,\n]+)], [(Master of [^,\n]+)],
    [([A-Z][^,\n]+ Certificate)] and [([A-Z][^,\n]+ Minor)]. *)
Definition program_patterns : list regex :=
  [Group 1 (cat [Lit "Bachelor of "; plus not_comma_nl]);
   Group 1 (cat [Lit "Master of "; plus not_comma_nl]);
   Group 1 (cat [exactly 1 upper_AZ; plus not_comma_nl; Lit " Certificate"]);
   Group 1 (cat [exactly 1 upper_AZ; plus not_comma_nl; Lit " Minor"])].

Definition classify_program (program_name : string) : option (string * string) :=
  if PyStr.contains "Bachelor" program_name then Some ("Bachelor", "undergraduate")
  else if PyStr.contains "Master" program_name then Some ("Master", "graduate")
  else if PyStr.contains "Certificate" program_name then Some ("Certificate", "undergraduate")
  else if PyStr.contains "Minor" program_name then Some ("Minor", "undergraduate")
  else None.

Definition program_of_match (url : string) (m : match_) : option ProgramInfo :=
  let program_name := PyStr.strip (group_text 1 m) in
  match classify_program program_name with
  | Some (program_type, level) =>
      let department := extract_department_from_url url in
      Some {| p_name := program_name;
              p_code := PyStr.upper (PyStr.replace_char " " "_" program_name);
              p_type := program_type; p_level := level;
              p_total_credits := 120;
              p_description := program_name +:+ " program";
              p_department := department;
              p_requirements := [] |}
  | None => None
  end.

Definition extract_programs_from_content (content url : string) : PyDict.t ProgramInfo :=
  for_each program_patterns
    (fun pattern =>
       for_each (finditer IGNORECASE pattern content)
         (fun m programs =>
            match program_of_match url m with
            | Some p => PyDict.set (p_name p) p programs
            | None => programs
            end)) [].

(** The course part of the loop of [_extract_academic_data] over the crawled
    pages, given as pairs of content and url. *)
Definition extract_all_courses (pages : list (string * string)) : PyDict.t CourseInfo :=
  for_each pages
    (fun page courses =>
       PyDict.update courses (extract_courses_from_content (fst page) (snd page))) [].

Definition extract_all_programs (pages : list (string * string)) : PyDict.t ProgramInfo :=
  for_each pages
    (fun page programs =>
       PyDict.update programs (extract_programs_from_content (fst page) (snd page))) [].

(** ** [AcademicGraphBuilder._populate_supabase_tables], the program table *)

Record program_row := {
  program_name : string;
  program_type : string;
  row_level : string;
  row_description : option string;
  source_id : string
}.

(** The loop that builds [program_records]; [seen_programs] is the second
    component of the state. *)
Definition add_program_record (program_info : ProgramInfo)
    (st : list program_row * list string) : list program_row * list string :=
  let truncated_name := PyStr.take 500 (p_name program_info) in
  if mem_str truncated_name (snd st) then st
  else
    (fst st ++
       [{| program_name := truncated_name;
           program_type := p_type program_info;
           row_level := p_level program_info;
           row_description :=
             if truthy (p_description program_info)
             then Some (PyStr.take 1000 (p_description program_info))
             else None;
           source_id := "catalog.utahtech.edu" |}],
     snd st ++ [truncated_name]).

Definition program_records (programs : PyDict.t ProgramInfo) : list program_row :=
  fst (for_each (PyDict.values programs) add_program_record ([], [])).

(** [records[i:i + batch_size] for i in range(0, len(records), batch_size)]. *)
Fixpoint batches {A} (fuel : nat) (batch_size : nat) (records : list A) : list (list A) :=
  match fuel with
  | O => []
  | S fuel' =>
      match records with
      | [] => []
      | _ => List.firstn batch_size records
               :: batches fuel' batch_size (List.skipn batch_size records)
      end
  end.

(** The table [academic_programs]: [delete().neq('program_name', '')] keeps
    the rows whose name is empty, and each batch is then written. *)
Definition populate_programs_table (programs : PyDict.t ProgramInfo)
    (table : list program_row) : list program_row :=
  let table := List.filter (fun r => negb (truthy (program_name r))) table in
  match programs with
  | [] => table
  | _ =>
      let records := program_records programs in
      for_each (batches (length records) 100 records)
        (fun batch table => table ++ batch) table
  end.

(** ** The program filter of [SupabaseAcademicPopulator._extract_from_content]
    ([agent-docs/tests/populate_supabase_tables.py]) *)

Record Program_ := {
  prog_name : string;
  degree_type : string;
  prog_department : string;
  prog_description : string;
  prog_requirements : string;
  prog_total_credits : option Z;
  prog_source_id : string
}.

Definition not_pipe : cset := none_of [IChar "|"].

(** [(Bachelor of [^|]+)], [(Master of [^|]+)], [(Associate of [^|]+)],
    [([^|]+Certificate)] and [([^|]+Degree)]. *)
Definition populator_program_patterns : list regex :=
  [Group 1 (cat [Lit "Bachelor of "; plus not_pipe]);
   Group 1 (cat [Lit "Master of "; plus not_pipe]);
   Group 1 (cat [Lit "Associate of "; plus not_pipe]);
   Group 1 (cat [plus not_pipe; Lit "Certificate"]);
   Group 1 (cat [plus not_pipe; Lit "Degree"])].

(** The test that guards [continue]. *)
Definition populator_rejects (program_name : string) (programs : list Program_) : bool :=
  (PyStr.len program_name <? 10)
  || existsb (fun p => String.eqb (prog_name p) program_name) programs
  || mem_str (PyStr.lower program_name) ["degree"; "certificate"]
  || PyStr.contains "|" program_name.

Definition populator_degree_type (program_name : string) : string :=
  let l := PyStr.lower program_name in
  if PyStr.contains "bachelor" l then "Bachelor"
  else if PyStr.contains "master" l then "Master"
  else if PyStr.contains "associate" l then "Associate"
  else if PyStr.contains "certificate" l then "Certificate"
  else "Other".

Definition populator_add_program (source : string) (m : match_)
    (programs : list Program_) : list Program_ :=
  let program_name := PyStr.strip (group_text 1 m) in
  let program_name := PyStr.take 500 (PyStr.strip program_name) in
  if populator_rejects program_name programs then programs
  else programs ++
         [{| prog_name := program_name;
             degree_type := populator_degree_type program_name;
             prog_department := "Unknown";
             prog_description := "";
             prog_requirements := "";
             prog_total_credits := None;
             prog_source_id := source |}].

Definition populator_extract_programs (content source : string)
    (programs : list Program_) : list Program_ :=
  for_each populator_program_patterns
    (fun pattern =>
       for_each (finditer MULTILINE_IGNORECASE pattern content)
         (populator_add_program source)) programs.

(** * Further parts of the builder and of the planner *)

(** ** [AcademicGraphBuilder._populate_supabase_tables], the other tables *)

Record department_row := {
  dr_department_name : string;
  dr_prefix : string;
  dr_description : string;
  dr_source_id : string
}.

Definition department_data (dept_info : DepartmentInfo) : department_row :=
  {| dr_department_name := d_name dept_info;
     dr_prefix := d_prefix dept_info;
     dr_description := d_description dept_info;
     dr_source_id := "catalog.utahtech.edu" |}.

(** The loop that builds [dept_records]; [seen_prefixes] is the second
    component of the state. *)
Definition add_department_record (dept_info : DepartmentInfo)
    (st : list department_row * list string) : list department_row * list string :=
  if mem_str (d_prefix dept_info) (snd st) then st
  else (fst st ++ [department_data dept_info], snd st ++ [d_prefix dept_info]).

Definition department_records (departments : PyDict.t DepartmentInfo)
  : list department_row :=
  fst (for_each (PyDict.values departments) add_department_record ([], [])).

Record course_row := {
  cr_course_code : string;
  cr_title : string;
  cr_credits : Z;
  cr_level : string;
  cr_description : option string;
  cr_prerequisites : option string;
  cr_prefix : string;
  cr_course_number : string;
  cr_source_id : string
}.

Definition course_data (course_info : CourseInfo) : course_row :=
  {| cr_course_code := c_code course_info;
     cr_title := c_title course_info;
     cr_credits := c_credits course_info;
     cr_level := c_level course_info;
     cr_description :=
       if truthy (c_description course_info)
       then Some (PyStr.take 1000 (c_description course_info))
       else None;
     cr_prerequisites :=
       match c_prerequisites course_info with
       | [] => None
       | _ => Some (PyStr.join ", " (c_prerequisites course_info))
       end;
     cr_prefix := c_prefix course_info;
     cr_course_number := c_number course_info;
     cr_source_id := "catalog.utahtech.edu" |}.

(** The loop that builds [course_records]; [seen_courses] is the second
    component of the state. *)
Definition add_course_record (course_info : CourseInfo)
    (st : list course_row * list string) : list course_row * list string :=
  if mem_str (c_code course_info) (snd st) then st
  else (fst st ++ [course_data course_info], snd st ++ [c_code course_info]).

Definition course_records (courses : PyDict.t CourseInfo) : list course_row :=
  fst (for_each (PyDict.values courses) add_course_record ([], [])).

(** The three tables of the store. *)
Record tables := {
  academic_courses : list course_row;
  academic_programs : list program_row;
  academic_departments : list department_row
}.

(** [_populate_supabase_tables] when the calls to the store succeed: each
    table loses its rows whose key is not empty, the departments are written
    in one call, and the courses and the programs in batches of 100. *)
Definition populate_supabase_tables (E : academic_data) (T : tables) : tables :=
  let courses_table :=
    List.filter (fun r => negb (truthy (cr_course_code r))) (academic_courses T) in
  let departments_table :=
    List.filter (fun r => negb (truthy (dr_department_name r))) (academic_departments T) in
  let departments_table :=
    match departments E with
    | [] => departments_table
    | _ => departments_table ++ department_records (departments E)
    end in
  let courses_table :=
    match courses E with
    | [] => courses_table
    | _ =>
        let records := course_records (courses E) in
        for_each (batches (length records) 100 records)
          (fun batch table => table ++ batch) courses_table
    end in
  {| academic_courses := courses_table;
     academic_programs := populate_programs_table (programs E) (academic_programs T);
     academic_departments := departments_table |}.

(** ** The listing queries of the planner

    The queries below enumerate the course nodes.  They are modelled for a
    store that satisfies the uniqueness constraints of the schema, where a
    node is found by its key and no two course nodes have the same [code]. *)

(** [ORDER BY]: Cypher orders lists before date-times, date-times before
    strings, strings before numbers, and [null] after every value; strings
    and lists are compared from their first element on.  Rows with equal
    keys are left in the order of the enumeration. *)
Definition type_rank (v : field) : nat :=
  match v with
  | Some (VList _) => 0
  | Some (VTime _) => 1
  | Some (VStr _) => 2
  | Some (VInt _) => 3
  | None => 4
  end.

Fixpoint list_leb (l1 l2 : list string) : bool :=
  match l1, l2 with
  | [], _ => true
  | _ :: _, [] => false
  | x :: l1', y :: l2' => if String.eqb x y then list_leb l1' l2' else String.leb x y
  end.

Definition cypher_leb (a b : field) : bool :=
  match a, b with
  | Some (VList l1), Some (VList l2) => list_leb l1 l2
  | Some (VTime t1), Some (VTime t2) => t1 <=? t2
  | Some (VStr s1), Some (VStr s2) => String.leb s1 s2
  | Some (VInt z1), Some (VInt z2) => z1 <=? z2
  | _, _ => (type_rank a <=? type_rank b)%nat
  end.

Definition order_by {A} (key : A -> field) (rows : list A) : list A :=
  @merge_sort A (fun a b => cypher_leb (key a) (key b) = true)
    (fun a b => decide (cypher_leb (key a) (key b) = true)) rows.

(** [LIMIT $limit]: the first rows; a negative limit is an error of the
    query, here [None]. *)
Definition limit_rows {A} (limit : Z) (rows : list A) : option (list A) :=
  if limit <? 0 then None else Some (take (Z.to_nat limit) rows).

(** [a = b] and [a <> b] in a [WHERE] clause: neither holds when one side is
    [null]. *)
Definition cypher_eq (a b : field) : bool :=
  match a, b with
  | Some x, Some y => bool_decide (x = y)
  | _, _ => false
  end.

Definition cypher_neq (a b : field) : bool :=
  match a, b with
  | Some x, Some y => bool_decide (x <> y)
  | _, _ => false
  end.

(** [record["description"] or ""]. *)
Definition or_empty (v : field) : value :=
  match v with
  | Some x => if py_truthy v then x else VStr ""
  | None => VStr ""
  end.

(** A [CourseNode] whose description is read from the store. *)
Record CourseListing := {
  cl_code : field;
  cl_title : field;
  cl_credits : value;
  cl_level : field;
  cl_department : field;
  cl_description : value;
  cl_prerequisites : list string
}.

(** The course nodes, as [MATCH (course:Course)] enumerates them, each with
    its key. *)
Definition course_nodes (g : graph) : list (string * gmap string value) :=
  i ← ids_with_label Course (dom (nodes g));
  match nodes g !! i with
  | Some n => [(snd i, n)]
  | None => []
  end.

(** The row that the two listing queries return for a course node, made
    into a [CourseNode]. *)
Definition listing (g : graph) (kn : string * gmap string value) : CourseListing :=
  let n := snd kn in
  {| cl_code := n !! "code";
     cl_title := n !! "title";
     cl_credits := or_3 (n !! "credits");
     cl_level := n !! "level";
     cl_department := n !! "department";
     cl_description := or_empty (n !! "description");
     cl_prerequisites := prerequisites_of g (fst kn) |}.

(** *** [find_courses_by_level] *)

Definition find_courses_by_level (g : graph) (level : string)
    (department : option string) (limit : Z) : option (list CourseListing) :=
  let by_department :=
    match department with
    | Some d => truthy d
    | None => false
    end in
  let matches (kn : string * gmap string value) :=
    cypher_eq (snd kn !! "level") (Some (VStr level))
    && (if by_department
        then cypher_eq (snd kn !! "department") (VStr <$> department)
        else true) in
  limit_rows limit
    (List.map (listing g)
       (order_by (fun kn => snd kn !! "code") (List.filter matches (course_nodes g)))).

(** *** [find_alternative_courses] *)

Definition find_alternative_courses (g : graph) (course_code : string)
    (same_department : bool) (limit : Z) : option (list CourseListing) :=
  match course_node g course_code with
  | None => Some []
  | Some record =>
      let level := record !! "level" in
      let department := record !! "department" in
      let credits := record !! "credits" in
      let matches (kn : string * gmap string value) :=
        cypher_neq (snd kn !! "code") (Some (VStr course_code))
        && cypher_eq (snd kn !! "level") level
        && (if same_department && py_truthy department
            then cypher_eq (snd kn !! "department") department
            else true)
        && (if py_truthy credits
            then cypher_eq (snd kn !! "credits") credits
            else true) in
      limit_rows limit
        (List.map (listing g)
           (order_by (fun kn => snd kn !! "code")
              (List.filter matches (course_nodes g))))
  end.

(** *** [get_course_prerequisites] *)

(** [MATCH (prereq:Course)-[:PREREQUISITE_FOR]->(course:Course {code})
    RETURN prereq.code ORDER BY prereq.code]: one row for each
    relationship. *)
Definition prerequisite_row (g : graph) (course_code : string) (e : edge) : list field :=
  match e with
  | ((Course, pk), PREREQUISITE_FOR, (Course, ck)) =>
      if String.eqb ck course_code
         && has_node g (Course, pk) && has_node g (Course, ck)
      then [node_prop g "code" (Course, pk)]
      else []
  | _ => []
  end.

Definition get_course_prerequisites (g : graph) (course_code : string) : list field :=
  order_by (fun v => v) (e ← edges g; prerequisite_row g course_code e).

(** ** [AcademicGraphBuilder._extract_departments_from_content] *)

(** [str.count]: the occurrences of [sub] in [s] that do not overlap, from
    the left; [skip] characters of the last occurrence are still to pass.
    The empty text occurs once more than [s] has characters. *)
Fixpoint count_skip (sub : string) (skip : nat) (s : string) : Z :=
  match s with
  | EmptyString => if String.eqb sub "" then 1 else 0
  | String _ s' =>
      match skip with
      | S k => count_skip sub k s'
      | O =>
          if PyStr.startswith sub s
          then 1 + count_skip sub (Nat.pred (String.length sub)) s'
          else count_skip sub 0 s'
      end
  end.

Definition str_count (sub s : string) : Z := count_skip sub 0 s.

(** [max(xs, key=key)] on the elements [best :: xs] in the order of
    iteration: the first of the elements with the greatest key. *)
Fixpoint max_by {A} (key : A -> Z) (best : A) (xs : list A) : A :=
  match xs with
  | [] => best
  | x :: xs' => max_by key (if key best <? key x then x else best) xs'
  end.

(** [([A-Z]{2,4})\s+\d{4}]. *)
Definition prefix_pattern : Re.regex :=
  Re.cat [Re.Group 1 (Re.between 2 4 Re.upper_AZ); Re.plus Re.space;
          Re.exactly 4 Re.digit].

(** [re.findall] of a pattern with one group: the text of the group in
    every match. *)
Definition found_prefixes (content : string) : list string :=
  List.map (group_text 1) (Re.finditer Re.no_flags prefix_pattern content).

(** The order in which Python iterates over [set(...)] is not fixed by the
    elements; [iteration] is that order for the set of the prefixes found in
    [content], a list of the distinct prefixes. *)
Definition extract_departments_from_content (iteration : list string)
    (content url : string) : PyDict.t DepartmentInfo :=
  match Re.search Re.no_flags url_tail_pattern url with
  | Some dept_match =>
      let dept_slug := group_text 1 dept_match in
      let dept_name := PyStr.title (PyStr.replace_char "-" " " dept_slug) in
      let main_prefix :=
        match iteration with
        | [] => "UNKN"
        | p :: prefixes => max_by (fun p => str_count p content) p prefixes
        end in
      PyDict.set dept_name
        {| d_name := dept_name;
           d_code := PyStr.upper dept_slug;
           d_prefix := main_prefix;
           d_description := dept_name +:+ " Department";
           d_programs := [];
           d_courses := [] |} []
  | None => []
  end.

(** ** Auxiliary notions for the proofs *)

Definition names (sets : list (string * value)) : list string := List.map fst sets.

(** A node write: the identity of the node and the properties that are set. *)
Definition write : Type := node_id * list (string * value).

Definition apply_writes (W : list write) (m : gmap node_id (gmap string value))
  : gmap node_id (gmap string value) :=
  for_each W (fun w => merge_set (fst w) (snd w)) m.

(** The property names that [populate_neo4j] sets on a node of each label. *)
Definition schema (l : label) : list string :=
  match l with
  | University => ["location"; "website"; "created_at"]
  | Department => ["name"; "code"; "description"; "created_at"]
  | Course => ["prefix"; "number"; "title"; "credits"; "level"; "description";
               "prerequisites_text"; "offered_semesters"; "created_at"]
  | Program => ["code"; "type"; "level"; "total_credits"; "description"; "created_at"]
  end.

Definition conforms (w : write) : Prop := names (snd w) = schema (fst (fst w)).

(** The writes of [populate_neo4j], in program order. *)
Definition university_write (now : Z) : write :=
  ((University, university_name),
   [("location", VStr "St. George, Utah");
    ("website", VStr "https://utahtech.edu");
    ("created_at", VTime now)]).

Definition department_write (now : Z) (d : DepartmentInfo) : write :=
  ((Department, d_prefix d),
   [("name", VStr (d_name d)); ("code", VStr (d_code d));
    ("description", VStr (d_description d)); ("created_at", VTime now)]).

Definition course_write (now : Z) (c : CourseInfo) : write :=
  ((Course, c_code c),
   [("prefix", VStr (c_prefix c)); ("number", VStr (c_number c));
    ("title", VStr (c_title c)); ("credits", VInt (c_credits c));
    ("level", VStr (c_level c)); ("description", VStr (c_description c));
    ("prerequisites_text", VStr (PyStr.join ", " (c_prerequisites c)));
    ("offered_semesters", VList (c_offered_semesters c));
    ("created_at", VTime now)]).

Definition program_write (now : Z) (p : ProgramInfo) : write :=
  ((Program, p_name p),
   [("code", VStr (p_code p)); ("type", VStr (p_type p));
    ("level", VStr (p_level p)); ("total_credits", VInt (p_total_credits p));
    ("description", VStr (p_description p)); ("created_at", VTime now)]).

Definition populate_writes (E : academic_data) (now : Z) : list write :=
  [university_write now]
  ++ List.map (department_write now) (PyDict.values (departments E))
  ++ List.map (course_write now) (PyDict.values (courses E))
  ++ List.map (program_write now) (PyDict.values (programs E)).

Definition merge_edges (es : list edge) (L : list edge) : list edge :=
  fold_left merge_edge L es.

(** A statement that only merges relationships, chosen from the node
    identities that exist. *)
Definition edge_merger (f : graph -> graph) (cands : gset node_id -> list edge) : Prop :=
  forall g, f g = {| nodes := nodes g;
                     edges := merge_edges (edges g) (cands (dom (nodes g))) |}.

Definition guarded (D : gset node_id) (a b : node_id) (L : list edge) : list edge :=
  if bool_decide (a ∈ D) && bool_decide (b ∈ D) then L else [].

Definition course_department_edges (c : CourseInfo) (D : gset node_id) : list edge :=
  let cn := (Course, c_code c) in
  let dn := (Department, c_prefix c) in
  guarded D cn dn [(dn, OFFERS_COURSE, cn); (cn, BELONGS_TO_DISCIPLINE, dn)].

Definition prerequisite_edges (c : CourseInfo) (D : gset node_id) : list edge :=
  flat_map (fun prereq_code =>
              guarded D (Course, prereq_code) (Course, c_code c)
                [((Course, prereq_code), PREREQUISITE_FOR, (Course, c_code c))])
           (c_prerequisites c).

Definition program_department_edges (p : ProgramInfo) (D : gset node_id) : list edge :=
  if truthy (p_department p) && truthy (extract_department_prefix (p_department p)) then
    let pn := (Program, p_name p) in
    let dn := (Department, extract_department_prefix (p_department p)) in
    guarded D pn dn [(dn, OFFERS_PROGRAM, pn); (pn, BELONGS_TO_DEPARTMENT, dn)]
  else [].

(** The relationships that [create_relationships] merges, in program order. *)
Definition relationship_candidates (E : academic_data) (D : gset node_id) : list edge :=
  flat_map (fun c => course_department_edges c D) (PyDict.values (courses E))
  ++ flat_map (fun c => prerequisite_edges c D) (PyDict.values (courses E))
  ++ flat_map (fun p => program_department_edges p D) (PyDict.values (programs E))
  ++ university_department_pairs D.

Definition erase_created_at (g : graph) : graph :=
  {| nodes := delete "created_at" <$> nodes g; edges := edges g |}.

Definition untimed (sets : list (string * value)) : list (string * value) :=
  List.filter (fun pv => negb (String.eqb (fst pv) "created_at")) sets.

Definition same_but_time (w1 w2 : write) : Prop :=
  fst w1 = fst w2 /\ untimed (snd w1) = untimed (snd w2).

(** *** A small catalog used in the examples

    Three courses of one department: CS 1400, then CS 1410, then CS 2420. *)

Definition sample_course (prefix number title : string) (prerequisites : list string)
  : CourseInfo :=
  {| c_code := prefix +:+ " " +:+ number; c_prefix := prefix; c_number := number;
     c_title := title; c_credits := 3; c_level := course_level number;
     c_description := ""; c_prerequisites := prerequisites; c_corequisites := [];
     c_offered_semesters := ["Fall"; "Spring"] |}.

Definition cs_catalog : academic_data :=
  {| courses :=
       [("CS 1400", sample_course "CS" "1400" "Fundamentals of Programming" []);
        ("CS 1410", sample_course "CS" "1410" "Object-Oriented Programming" ["CS 1400"]);
        ("CS 2420", sample_course "CS" "2420" "Data Structures" ["CS 1410"])];
     programs := [];
     departments :=
       [("Computer Science",
         {| d_name := "Computer Science"; d_code := "COMPUTER-SCIENCE";
            d_prefix := "CS"; d_description := "Computer Science Department";
            d_programs := []; d_courses := [] |})] |}.

Definition cs_graph : graph := build_graph cs_catalog 0 empty_graph.

Definition created_at_of (g : graph) (i : node_id) : option value :=
  n ← nodes g !! i; n !! "created_at".

(** [ceil(a / b)] for a positive [b]. *)
Definition ceil_div (a b : Z) : Z := - ((- a) / b).

(** [pathLength]: the number of relationships on a returned path. *)
Definition path_length (p : PrerequisitePath) : Z := Z.of_nat (length (path p)) - 1.

(** The two levels that the extractor can produce. *)
Definition extractor_level (level : string) : Prop :=
  level = "lower_division" \/ level = "upper_division".

(** What [merge_course] leaves on a course node of a graph that only the
    builder wrote: one of the two levels, integer credits, no department. *)
Definition builder_course_node (n : gmap string value) : Prop :=
  (exists level, n !! "level" = Some (VStr level) /\ extractor_level level)
  /\ (exists z, n !! "credits" = Some (VInt z))
  /\ n !! "department" = None.

Definition courses_written_by_builder (m : gmap node_id (gmap string value)) : Prop :=
  forall course_code n, m !! (Course, course_code) = Some n -> builder_course_node n.

(** The three facts that matter about a record read from a builder node. *)
Definition builder_record (credits : value) (level department : field) : Prop :=
  (exists z, credits = VInt z)
  /\ is_upper_division level = false
  /\ hashable department = true.

(** A graph whose course nodes carry the level and department properties that
    the planner reads: four blocks of completed credit, 125 credits in all, 45
    of them upper-division, in four disciplines. *)
Definition credit_block (course_code : string) (credits : Z) (level department : string)
  : graph -> graph :=
  merge_node Course course_code
    [("credits", VInt credits); ("level", VStr level); ("department", VStr department)].

Definition transcript_graph : graph :=
  credit_block "HIST 1700" 20 "lower-division" "History"
    (credit_block "ART 1010" 20 "lower-division" "Art"
       (credit_block "MATH 1210" 40 "lower-division" "Mathematics"
          (credit_block "BIOL 3450" 45 "upper-division" "Biology" empty_graph))).

Definition transcript : list string :=
  ["BIOL 3450"; "MATH 1210"; "ART 1010"; "HIST 1700"].

(** The same transcript with 119 credits: one credit short of 120. *)
Definition short_transcript_graph : graph :=
  credit_block "HIST 1700" 20 "lower-division" "History"
    (credit_block "ART 1010" 20 "lower-division" "Art"
       (credit_block "MATH 1210" 34 "lower-division" "Mathematics"
          (credit_block "BIOL 3450" 45 "upper-division" "Biology" empty_graph))).

(** ** What a transcript amounts to

    The quantities that the degree analysis is about, read off the store and
    the list of courses. *)









(** The state of the loop: the names seen are the names of the records, and
    no name occurs twice. *)
Definition records_state (st : list program_row * list string) : Prop :=
  snd st = List.map program_name (fst st) /\ NoDup (snd st).

(** A program name of 612 characters, and a second name that differs from it
    only after the 500th character. *)
Definition long_name : string := "Bachelor of " +:+ PyStr.repeat "A" 600.

Definition long_program (name : string) : ProgramInfo :=
  {| p_name := name; p_code := ""; p_type := "Bachelor"; p_level := "undergraduate";
     p_total_credits := 120; p_description := name +:+ " program";
     p_department := "Unknown Department"; p_requirements := [] |}.

Definition long_programs : PyDict.t ProgramInfo :=
  [(long_name, long_program long_name);
   (long_name +:+ " in Art", long_program (long_name +:+ " in Art"))].



(** A program name that is long enough, is not the bare word [degree] or
    [certificate], and holds no pipe. *)
Definition acceptable_program_name (name : string) : Prop :=
  10 <= PyStr.len name
  /\ PyStr.lower name <> "degree" /\ PyStr.lower name <> "certificate"
  /\ PyStr.contains "|" name = false.

(** [p] stands before [c] in [l]. *)
Definition precedes (p c : string) (l : list string) : Prop :=
  exists l1 l2 l3, l = l1 ++ p :: l2 ++ c :: l3.

Definition node_of_details (r : course_details) : CourseNode :=
  {| cn_code := cd_code r; cn_title := cd_title r; cn_credits := cd_credits r;
     cn_level := cd_level r; cn_department := cd_department r; cn_description := "";
     cn_prerequisites := cd_prerequisites r |}.

(** [c] requires [p] in the graph, both among the target courses. *)
Definition requires_within (g : graph) (target_courses : list string) (c p : string)
  : Prop :=
  c ∈ target_courses /\ p ∈ target_courses /\ p ∈ prerequisites_of g c.

(** The number of a course code, as a rank: in the sample catalog every
    course has a larger number than its prerequisites. *)
Definition course_number_rank (course_code : string) : nat :=
  Z.to_nat (PyStr.int (PyStr.drop 3 course_code)).

Definition cs_targets : list string := ["CS 2420"; "CS 1410"; "CS 1400"].


(** Every node carries its key in its key property. *)
Definition keyed (m : gmap node_id (gmap string value)) : Prop :=
  forall l k n, m !! (l, k) = Some n -> n !! key_prop l = Some (VStr k).

(** The violations of a course list, computed from the graph alone: a course
    that is in the graph is checked against the courses of the list before
    it that are in the graph, and only its direct prerequisites count. *)
Fixpoint direct_violations (g : graph) (completed : list string)
    (course_codes : list string) : list violation :=
  match course_codes with
  | [] => []
  | course_code :: rest =>
      match course_node g course_code with
      | Some _ =>
          let missing :=
            List.filter (fun p => negb (mem_str p completed))
                        (prerequisites_of g course_code) in
          match missing with
          | [] => []
          | _ => [{| v_course := course_code;
                     v_missing_prerequisites := missing;
                     v_message := course_code +:+ " requires " +:+
                                  PyStr.join ", " missing +:+
                                  " which are not completed yet" |}]
          end ++ direct_violations g (completed ++ [course_code]) rest
      | None => direct_violations g completed rest
      end
  end.




(** ** Further auxiliary notions *)

(** ** Further auxiliary notions *)

(** The value of property [p] on node [i], [None] when the node or the
    property is missing. *)
Definition prop_at (m : gmap node_id (gmap string value)) (i : node_id) (p : string)
  : option value :=
  n ← m !! i; n !! p.

(** The labels that a relationship of each type joins. *)
Definition endpoint_labels (r : rel_type) : label * label :=
  match r with
  | OFFERS_COURSE => (Department, Course)
  | BELONGS_TO_DISCIPLINE => (Course, Department)
  | PREREQUISITE_FOR => (Course, Course)
  | OFFERS_PROGRAM => (Department, Program)
  | BELONGS_TO_DEPARTMENT => (Program, Department)
  | HAS_DEPARTMENT => (University, Department)
  end.

(** A relationship whose two ends are nodes of the graph, with the labels of
    its type. *)
Definition sound_edge (D : gset node_id) (e : edge) : Prop :=
  fst (fst e) ∈ D /\ snd e ∈ D
  /\ (fst (fst (fst e)), fst (snd e)) = endpoint_labels (snd (fst e)).

(** The courses of an entity collection, and their codes. *)
Definition catalog_courses (E : academic_data) : list CourseInfo :=
  PyDict.values (courses E).

Definition catalog_codes (E : academic_data) : list string :=
  List.map c_code (catalog_courses E).

(** The record that the planner reads back for a course that the builder
    wrote into an empty graph. *)
Definition details_read_back (g : graph) (c : CourseInfo) : course_details :=
  {| cd_code := Some (VStr (c_code c));
     cd_title := Some (VStr (c_title c));
     cd_credits := VInt (if c_credits c =? 0 then 3 else c_credits c);
     cd_level := Some (VStr (c_level c));
     cd_department := None;
     cd_prerequisites := prerequisites_of g (c_code c) |}.

(** A course node as [merge_course] leaves it in a graph that held no
    course before: integer credits and no department. *)
Definition plain_course_nodes (m : gmap node_id (gmap string value)) : Prop :=
  forall course_code n, m !! (Course, course_code) = Some n ->
    (exists z, n !! "credits" = Some (VInt z)) /\ n !! "department" = None.

(** What the planner reads from such a node. *)
Definition plain_record (credits : value) (department : field) : Prop :=
  (exists z, credits = VInt z) /\ department = None.

(** Three courses, the first of which lists itself as a prerequisite and is
    required by the third. *)
Definition looping_courses : list string := ["A"; "B"; "C"].

Definition looping_prerequisites : PyDict.t (list string) :=
  [("A", ["A"]); ("C", ["A"])].

(** The credits of a course of the plan, and of a semester. *)
Definition credits_of (all_courses : PyDict.t CourseNode) (course_code : string) : Z :=
  match PyDict.get course_code all_courses with
  | Some course => default 0 (as_int (cn_credits course))
  | None => 0
  end.

Definition semester_credits (all_courses : PyDict.t CourseNode) (semester : list string)
  : Z :=
  sum_Z (List.map (credits_of all_courses) semester).

(** The courses of a list that are in the graph. *)
Definition known_courses (g : graph) (course_codes : list string) : list string :=
  List.filter (fun c => bool_decide (is_Some (course_node g c))) course_codes.

(** Three courses of 4, 4 and 3 credits. *)
Definition plan_course (course_code : string) (credits : Z) : CourseNode :=
  {| cn_code := Some (VStr course_code); cn_title := None; cn_credits := VInt credits;
     cn_level := None; cn_department := None; cn_description := "";
     cn_prerequisites := [] |}.

Definition sample_plan_courses : PyDict.t CourseNode :=
  [("A", plan_course "A" 4); ("B", plan_course "B" 4); ("C", plan_course "C" 3)].

(** Each node of the path is joined to the next one by a [PREREQUISITE_FOR]
    relationship. *)
Fixpoint follows_prerequisites (es : list edge) (p : list node_id) : Prop :=
  match p with
  | a :: (b :: _) as rest => (a, PREREQUISITE_FOR, b) ∈ es /\ follows_prerequisites es rest
  | _ => True
  end.

(** The numbers of the groups of a pattern. *)
Fixpoint group_numbers (r : Re.regex) : list nat :=
  match r with
  | Re.Seq r1 r2 | Re.Alt r1 r2 => group_numbers r1 ++ group_numbers r2
  | Re.Opt r1 => group_numbers r1
  | Re.Group n r1 => n :: group_numbers r1
  | _ => []
  end.

(** The shape of the parts of a course code: a prefix of two to four capital
    letters, and a number of four digits. *)
Definition prefix_shape (prefix : string) : Prop :=
  PyStr.all PyStr.is_upper prefix = true /\ (2 <= String.length prefix <= 4)%nat.

Definition number_shape (number : string) : Prop :=
  PyStr.all PyStr.is_digit number = true /\ String.length number = 4%nat.

(** What holds of every course that the extractor produces. *)
Record extracted_course (c : CourseInfo) : Prop := {
  ec_code : c_code c = c_prefix c +:+ " " +:+ c_number c;
  ec_prefix : prefix_shape (c_prefix c);
  ec_number : number_shape (c_number c);
  ec_valid : is_valid_course_code (c_prefix c) (c_number c) (c_title c) = true;
  ec_level : c_level c = course_level (c_number c);
  ec_prerequisites : c_prerequisites c = extract_prerequisites (c_description c);
  ec_corequisites : c_corequisites c = [];
  ec_semesters : c_offered_semesters c = ["Fall"; "Spring"]
}.

(** A text of the shape of a course code: two to four capital letters,
    white space, four digits, at most one capital letter, and nothing more
    but, possibly, the line feed that [$] lets pass. *)
Definition code_like (p : string) : Prop :=
  exists prefix spaces number suffix ending,
    p = prefix +:+ spaces +:+ number +:+ suffix +:+ ending
    /\ prefix_shape prefix
    /\ PyStr.all PyStr.is_space spaces = true /\ (1 <= String.length spaces)%nat
    /\ number_shape number
    /\ PyStr.all PyStr.is_upper suffix = true /\ (String.length suffix <= 1)%nat
    /\ (ending = "" \/ ending = String nl "").

(** A text with no white space in it. *)
Definition no_space (p : string) : bool := PyStr.all (fun c => negb (PyStr.is_space c)) p.

(** The entries of a list that are the first with their key, given the keys
    already seen. *)
Fixpoint first_by {A} (key : A -> string) (seen : list string) (xs : list A) : list A :=
  match xs with
  | [] => []
  | x :: xs' =>
      if mem_str (key x) seen then first_by key seen xs'
      else x :: first_by key (seen ++ [key x]) xs'
  end.

(** A collection with two departments of the same prefix. *)
Definition twin_departments : academic_data :=
  {| courses := []; programs := [];
     departments :=
       [("Computer Science",
         {| d_name := "Computer Science"; d_code := "COMPUTER-SCIENCE"; d_prefix := "CS";
            d_description := "Computer Science Department";
            d_programs := []; d_courses := [] |});
        ("Computing",
         {| d_name := "Computing"; d_code := "COMPUTING"; d_prefix := "CS";
            d_description := "Computing Department";
            d_programs := []; d_courses := [] |})] |}.

(** A character of a line: any but the white space other than the space
    itself. *)
Definition line_char (c : ascii) : bool := negb (PyStr.is_space c) || Ascii.eqb c " ".

(** [iteration] is an order in which the set of the prefixes found in
    [content] can be iterated. *)
Definition iterates_prefixes (iteration : list string) (content : string) : Prop :=
  iteration ≡ₚ remove_dups (found_prefixes content).

(** A text of ASCII characters. *)
Definition ascii_text (s : string) : bool :=
  PyStr.all (fun c => (PyStr.code c <? 128)%N) s.

(** * Properties *)

(** ** Loops, lists and dictionaries *)

Lemma for_each_nil {A S} (f : A -> S -> S) (s : S) : for_each [] f s = s.
Proof. reflexivity. Qed.

Lemma for_each_cons {A S} (f : A -> S -> S) x xs (s : S) :
  for_each (x :: xs) f s = for_each xs f (f x s).
Proof. reflexivity. Qed.

Lemma for_each_app {A S} (f : A -> S -> S) xs ys (s : S) :
  for_each (xs ++ ys) f s = for_each ys f (for_each xs f s).
Proof. unfold for_each. apply fold_left_app. Qed.

Lemma for_each_invariant {A S} (I : S -> Prop) (f : A -> S -> S) (xs : list A) (s : S) :
  (forall x s', I s' -> I (f x s')) -> I s -> I (for_each xs f s).
Proof.
  intros Hf. revert s. induction xs as [|x xs IH]; intros s Hs; [done|].
  rewrite for_each_cons. apply IH, Hf, Hs.
Qed.

Lemma for_each_append {A} (bs : list (list A)) (table : list A) :
  for_each bs (fun batch table => table ++ batch) table = table ++ concat bs.
Proof.
  revert table. induction bs as [|b bs IH]; intros table.
  - cbn. by rewrite app_nil_r.
  - rewrite for_each_cons, IH. cbn. by rewrite app_assoc.
Qed.

Lemma Forall2_map_same {A B} (R : B -> B -> Prop) (f h : A -> B) (l : list A) :
  (forall x, R (f x) (h x)) -> Forall2 R (List.map f l) (List.map h l).
Proof. intros H. induction l; constructor; auto. Qed.

Lemma filter_none {A} (f : A -> bool) (l : list A) :
  Forall (fun x => f x = false) l -> List.filter f l = [].
Proof.
  induction 1 as [|x l Hx _ IH]; [done|]. cbn. by rewrite Hx.
Qed.

Lemma filter_all {A} (f : A -> bool) (l : list A) :
  (forall x, x ∈ l -> f x = true) -> List.filter f l = l.
Proof.
  intros H. apply forallb_filter_id, forallb_forall. intros x Hx.
  by apply H, list_elem_of_In.
Qed.

Lemma forallb_Forall {A} (f : A -> bool) (l : list A) :
  Forall (fun x => f x = true) l -> forallb f l = true.
Proof. induction 1 as [|x l Hx _ IH]; [done|]. cbn. by rewrite Hx. Qed.

Lemma filter_filter_and {A} (f h : A -> bool) (l : list A) :
  List.filter f (List.filter h l) = List.filter (fun x => h x && f x) l.
Proof.
  induction l as [|x l IH]; [done|]. cbn. destruct (h x); cbn; [|done].
  destruct (f x); by rewrite IH.
Qed.

Lemma elem_of_cons_ne (c c0 : string) (cs : list string) :
  c <> c0 -> (c ∈ c0 :: cs <-> c ∈ cs).
Proof.
  intros Hne. split; [|by right].
  intros H. apply elem_of_cons in H as [?|?]; done.
Qed.

Lemma length_zero_nil {A} (l : list A) : Z.of_nat (length l) = 0 <-> l = [].
Proof. destruct l; cbn [length]; split; (done || lia). Qed.

Lemma length_filter_remove (x : string) (l : list string) :
  NoDup l ->
  length l
  = (length (List.filter (fun p => negb (String.eqb p x)) l)
     + if decide (x ∈ l) then 1 else 0)%nat.
Proof.
  induction 1 as [|y l Hy Hnd IH]; [done|].
  cbn [List.filter length]. destruct (String.eqb_spec y x) as [->|Hne]; cbn [negb].
  - rewrite decide_True by left. rewrite (decide_False (P := x ∈ l)) in IH by done.
    lia.
  - cbn [length]. rewrite IH. destruct (decide (x ∈ l)) as [Hin|Hnin].
    + rewrite decide_True by by right. lia.
    + rewrite decide_False; [lia|]. rewrite elem_of_cons_ne; done.
Qed.

Lemma mem_str_elem (x : string) (l : list string) : mem_str x l = true <-> x ∈ l.
Proof.
  unfold mem_str. rewrite existsb_exists. split.
  - intros (y & Hy & Heq). apply String.eqb_eq in Heq as ->. by apply list_elem_of_In.
  - intros H. exists x. split; [by apply list_elem_of_In | apply String.eqb_refl].
Qed.

Lemma mem_str_not_elem (x : string) (l : list string) : mem_str x l = false <-> x ∉ l.
Proof.
  rewrite <- mem_str_elem. destruct (mem_str x l); split; congruence.
Qed.

Lemma length_take (n : nat) (s : string) :
  String.length (PyStr.take n s) = Nat.min n (String.length s).
Proof.
  revert s. induction n as [|n IH]; intros [|c s]; cbn; try reflexivity.
  by rewrite IH.
Qed.

Lemma values_app {V} (d1 d2 : PyDict.t V) :
  PyDict.values (d1 ++ d2) = PyDict.values d1 ++ PyDict.values d2.
Proof. apply map_app. Qed.

Lemma dict_set_Forall {V} (P : V -> Prop) (k : string) (v : V) (d : PyDict.t V) :
  P v -> Forall P (PyDict.values d) -> Forall P (PyDict.values (PyDict.set k v d)).
Proof.
  intros Hv. induction d as [|[k' v'] d IH]; intros Hd.
  - by repeat constructor.
  - cbn in *. apply Forall_cons in Hd as [Hv' Hd].
    destruct (String.eqb k k'); cbn; constructor; auto.
Qed.

Lemma dict_update_Forall {V} (P : V -> Prop) (d d2 : PyDict.t V) :
  Forall P (PyDict.values d) -> Forall P (PyDict.values d2) ->
  Forall P (PyDict.values (PyDict.update d d2)).
Proof.
  unfold PyDict.update. revert d. induction d2 as [|[k v] d2 IH]; intros d Hd Hd2; [done|].
  cbn in *. apply Forall_cons in Hd2 as [Hv Hd2]. apply IH; [|done].
  by apply dict_set_Forall.
Qed.

Lemma dict_get_set_eq {V} (k : string) (v : V) (d : PyDict.t V) :
  PyDict.get k (PyDict.set k v d) = Some v.
Proof.
  induction d as [|[k' v'] d IH]; cbn.
  - by rewrite String.eqb_refl.
  - destruct (String.eqb k k') eqn:Hk; cbn; rewrite ?String.eqb_refl, ?Hk; done.
Qed.

Lemma dict_get_set_ne {V} (k k' : string) (v : V) (d : PyDict.t V) :
  k <> k' -> PyDict.get k' (PyDict.set k v d) = PyDict.get k' d.
Proof.
  intros Hne. induction d as [|[k0 v0] d IH]; cbn.
  - apply String.eqb_neq in Hne. rewrite String.eqb_sym in Hne. by rewrite Hne.
  - destruct (String.eqb_spec k k0) as [->|Hk]; cbn.
    + apply String.eqb_neq in Hne. rewrite String.eqb_sym in Hne. by rewrite Hne.
    + by rewrite IH.
Qed.

Lemma dict_mem_keys {V} (k : string) (d : PyDict.t V) :
  PyDict.mem k d = true <-> k ∈ PyDict.keys d.
Proof.
  unfold PyDict.mem. induction d as [|[k' v'] d IH]; cbn.
  - split; [discriminate | inversion 1].
  - destruct (String.eqb_spec k k') as [->|Hk].
    + split; [left | done].
    + rewrite IH. split; [by right|]. intros H. apply elem_of_cons in H as [?|?]; done.
Qed.

Lemma dict_mem_mem_str {V} (k : string) (d : PyDict.t V) :
  PyDict.mem k d = mem_str k (PyDict.keys d).
Proof.
  unfold PyDict.mem, mem_str. induction d as [|[k' v'] d IH]; [done|].
  cbn. destruct (String.eqb k k'); [done | exact IH].
Qed.

Lemma dict_keys_set_mem {V} (k : string) (v : V) (d : PyDict.t V) :
  k ∈ PyDict.keys d -> PyDict.keys (PyDict.set k v d) = PyDict.keys d.
Proof.
  induction d as [|[k' v'] d IH]; cbn; intros Hk.
  - inversion Hk.
  - destruct (String.eqb_spec k k') as [->|Hne]; cbn; [done|].
    f_equal. apply IH. apply elem_of_cons in Hk as [?|?]; done.
Qed.

Lemma dict_keys_set_new {V} (k : string) (v : V) (d : PyDict.t V) :
  k ∉ PyDict.keys d -> PyDict.keys (PyDict.set k v d) = PyDict.keys d ++ [k].
Proof.
  induction d as [|[k' v'] d IH]; cbn; intros Hk; [done|].
  destruct (String.eqb_spec k k') as [->|Hne]; cbn.
  - exfalso. apply Hk. left.
  - f_equal. apply IH. intros H. apply Hk. by right.
Qed.

Lemma degree_of_set_eq (k : string) (v : Z) (d : PyDict.t Z) :
  degree_of (PyDict.set k v d) k = v.
Proof. unfold degree_of. by rewrite dict_get_set_eq. Qed.

Lemma degree_of_set_ne (k k' : string) (v : Z) (d : PyDict.t Z) :
  k <> k' -> degree_of (PyDict.set k v d) k' = degree_of d k'.
Proof. intros H. unfold degree_of. by rewrite dict_get_set_ne. Qed.

(** The keys with value 0, for a dictionary as Python keeps it (one entry per
    key). *)
Lemma dict_zero_keys (d : PyDict.t Z) :
  NoDup (PyDict.keys d) ->
  List.map fst (List.filter (fun kv => snd kv =? 0) d)
  = List.filter (fun k => degree_of d k =? 0) (PyDict.keys d).
Proof.
  unfold PyDict.keys.
  induction d as [|[k v] d IH]; [done|]. cbn [List.map fst].
  intros Hnd. apply NoDup_cons in Hnd as [Hk Hnd].
  cbn [List.filter snd]. unfold degree_of at 1. cbn [PyDict.get].
  rewrite String.eqb_refl. cbn [default].
  assert (Htail : List.filter (fun k0 => degree_of ((k, v) :: d) k0 =? 0) (List.map fst d)
                  = List.filter (fun k0 => degree_of d k0 =? 0) (List.map fst d)).
  { apply filter_ext_in. intros k0 Hk0. unfold degree_of. cbn [PyDict.get].
    destruct (String.eqb_spec k0 k) as [->|Hne]; [|done].
    exfalso. apply Hk. by apply list_elem_of_In. }
  rewrite Htail, <- IH by done. unfold id. by destruct (v =? 0).
Qed.

(** ** Idempotence of the graph build *)

(** *** Node writes *)

Lemma set_props_insert (sets : list (string * value)) (p : string) (v : value)
    (n : gmap string value) :
  p ∈ names sets -> set_props sets (<[p := v]> n) = set_props sets n.
Proof.
  revert n. induction sets as [|[q w] sets IH]; intros n Hp.
  - inversion Hp.
  - cbn [set_props fold_left fst snd]. destruct (decide (q = p)) as [->|Hne].
    + by rewrite insert_insert_eq.
    + rewrite insert_insert_ne by done. apply IH.
      cbn in Hp. apply elem_of_cons in Hp as [Hp|Hp]; [congruence|done].
Qed.

Lemma set_props_overwrite (s1 s2 : list (string * value)) (n : gmap string value) :
  names s1 ⊆ names s2 -> set_props s2 (set_props s1 n) = set_props s2 n.
Proof.
  revert n. induction s1 as [|[p v] s1 IH]; intros n Hs; [done|].
  cbn [set_props fold_left fst snd].
  change (set_props s2 (set_props s1 (<[p:=v]> n)) = set_props s2 n).
  rewrite IH.
  - apply set_props_insert. apply Hs. cbn. left.
  - intros x Hx. apply Hs. cbn. by right.
Qed.

Lemma set_props_other (sets : list (string * value)) (n : gmap string value) (p : string) :
  p ∉ names sets -> set_props sets n !! p = n !! p.
Proof.
  revert n. induction sets as [|[q v] sets IH]; intros n Hp; [done|].
  cbn [set_props fold_left fst snd].
  change (set_props sets (<[q:=v]> n) !! p = n !! p).
  rewrite IH.
  - apply lookup_insert_ne. intros ->. apply Hp. left.
  - intros H. apply Hp. by right.
Qed.

Lemma merge_set_overwrite (i : node_id) (s1 s2 : list (string * value))
    (m : gmap node_id (gmap string value)) :
  names s1 ⊆ names s2 -> merge_set i s2 (merge_set i s1 m) = merge_set i s2 m.
Proof.
  intros Hs. unfold merge_set. rewrite lookup_insert_eq. cbn [default].
  rewrite insert_insert_eq. f_equal. by apply set_props_overwrite.
Qed.

Lemma merge_set_commute (i j : node_id) (s1 s2 : list (string * value))
    (m : gmap node_id (gmap string value)) :
  i ≠ j -> merge_set i s1 (merge_set j s2 m) = merge_set j s2 (merge_set i s1 m).
Proof.
  intros Hij. unfold merge_set.
  rewrite !lookup_insert_ne by done. by apply insert_insert_ne.
Qed.

Lemma apply_writes_absorb (W : list write) (w : write)
    (m : gmap node_id (gmap string value)) :
  Forall conforms W -> conforms w -> fst w ∈ List.map fst W ->
  apply_writes W (merge_set (fst w) (snd w) m) = apply_writes W m.
Proof.
  revert m. induction W as [|w' W IH]; intros m HW Hw Hin.
  - inversion Hin.
  - apply Forall_cons in HW as [Hw' HW]. unfold apply_writes. rewrite !for_each_cons.
    destruct (decide (fst w' = fst w)) as [Heq|Hne].
    + rewrite Heq. rewrite merge_set_overwrite; [done|].
      unfold conforms in *. rewrite Hw, Hw', Heq. done.
    + rewrite merge_set_commute by done. apply IH; [done..|].
      cbn in Hin. apply elem_of_cons in Hin as [Hin|Hin]; [congruence|done].
Qed.

Lemma apply_writes_twice (W1 W2 : list write) (m : gmap node_id (gmap string value)) :
  Forall conforms W1 -> Forall conforms W2 -> List.map fst W1 ⊆ List.map fst W2 ->
  apply_writes W2 (apply_writes W1 m) = apply_writes W2 m.
Proof.
  revert m. induction W1 as [|w W1 IH]; intros m H1 H2 Hsub; [done|].
  apply Forall_cons in H1 as [Hw H1].
  unfold apply_writes at 2. rewrite for_each_cons.
  change (apply_writes W2 (apply_writes W1 (merge_set (fst w) (snd w) m)) = apply_writes W2 m).
  rewrite IH; [|done..|].
  - apply apply_writes_absorb; [done..|]. apply Hsub. cbn. left.
  - intros x Hx. apply Hsub. cbn. by right.
Qed.

Lemma dom_apply_writes (W : list write) (m : gmap node_id (gmap string value)) :
  dom (apply_writes W m) = list_to_set (List.map fst W) ∪ dom m.
Proof.
  revert m. induction W as [|w W IH]; intros m.
  - cbn. by rewrite (left_id_L ∅ (∪)).
  - unfold apply_writes. rewrite for_each_cons. fold (apply_writes W (merge_set (fst w) (snd w) m)).
    rewrite IH. unfold merge_set. rewrite dom_insert_L. cbn [List.map list_to_set].
    rewrite (comm_L (∪) {[fst w]} (list_to_set (List.map fst W))).
    by rewrite (assoc_L (∪)).
Qed.

Lemma apply_writes_app (W1 W2 : list write) (m : gmap node_id (gmap string value)) :
  apply_writes (W1 ++ W2) m = apply_writes W2 (apply_writes W1 m).
Proof. apply for_each_app. Qed.

Lemma apply_writes_map {A} (f : A -> write) (g : A -> graph -> graph) (xs : list A) :
  (forall x h, g x h = {| nodes := merge_set (fst (f x)) (snd (f x)) (nodes h);
                          edges := edges h |}) ->
  forall h, for_each xs g h =
            {| nodes := apply_writes (List.map f xs) (nodes h); edges := edges h |}.
Proof.
  intros Hg. induction xs as [|x xs IH]; intros h.
  - by destruct h.
  - rewrite for_each_cons, IH, Hg. reflexivity.
Qed.

Lemma populate_neo4j_writes (E : academic_data) (now : Z) (g : graph) :
  populate_neo4j E now g =
  {| nodes := apply_writes (populate_writes E now) (nodes g); edges := edges g |}.
Proof.
  unfold populate_neo4j, populate_writes.
  rewrite (apply_writes_map (program_write now) (merge_program now)) by reflexivity.
  rewrite (apply_writes_map (course_write now) (merge_course now)) by reflexivity.
  rewrite (apply_writes_map (department_write now) (merge_department now)) by reflexivity.
  cbn [nodes edges]. rewrite !apply_writes_app. reflexivity.
Qed.

Lemma populate_writes_conform (E : academic_data) (now : Z) :
  Forall conforms (populate_writes E now).
Proof.
  unfold populate_writes. repeat (apply Forall_app; split).
  - by constructor.
  - apply List.Forall_map, Forall_forall. intros; reflexivity.
  - apply List.Forall_map, Forall_forall. intros; reflexivity.
  - apply List.Forall_map, Forall_forall. intros; reflexivity.
Qed.

Lemma populate_writes_ids (E : academic_data) (t1 t2 : Z) :
  List.map fst (populate_writes E t1) = List.map fst (populate_writes E t2).
Proof.
  unfold populate_writes. rewrite !map_app, !map_map. reflexivity.
Qed.

(** *** Relationships *)

Lemma merge_edge_incl (es : list edge) (e x : edge) : x ∈ es -> x ∈ merge_edge es e.
Proof.
  unfold merge_edge. case_decide; [done|]. intros. apply elem_of_app. by left.
Qed.

Lemma merge_edge_elem (es : list edge) (e : edge) : e ∈ merge_edge es e.
Proof.
  unfold merge_edge. case_decide; [done|]. apply elem_of_app. right. by apply list_elem_of_singleton.
Qed.

Lemma merge_edges_incl (L es : list edge) (x : edge) : x ∈ es -> x ∈ merge_edges es L.
Proof.
  revert es. induction L as [|e L IH]; intros es Hx; [done|].
  cbn. apply IH. by apply merge_edge_incl.
Qed.

Lemma merge_edges_elem (L es : list edge) (x : edge) : x ∈ L -> x ∈ merge_edges es L.
Proof.
  revert es. induction L as [|e L IH]; intros es Hx; [inversion Hx|].
  cbn. apply elem_of_cons in Hx as [->|Hx].
  - apply merge_edges_incl, merge_edge_elem.
  - by apply IH.
Qed.

Lemma merge_edges_present (L es : list edge) :
  (forall e, e ∈ L -> e ∈ es) -> merge_edges es L = es.
Proof.
  induction L as [|e L IH]; intros H; [done|].
  cbn. unfold merge_edge at 2. rewrite decide_True.
  - apply IH. intros x Hx. apply H. by right.
  - apply H. left.
Qed.

Lemma merge_edges_app (L1 L2 es : list edge) :
  merge_edges es (L1 ++ L2) = merge_edges (merge_edges es L1) L2.
Proof. apply fold_left_app. Qed.

Lemma merge_edges_idem (L es : list edge) :
  merge_edges (merge_edges es L) L = merge_edges es L.
Proof. apply merge_edges_present. intros e He. by apply merge_edges_elem. Qed.

Lemma merge_edges_unlinked (L es0 es : list edge) :
  (forall e, e ∈ es0 -> e ∈ es) ->
  merge_edges es (List.filter (fun e => bool_decide (e ∉ es0)) L) = merge_edges es L.
Proof.
  revert es. induction L as [|e L IH]; intros es Hsub; [done|].
  cbn [List.filter]. case_bool_decide as He.
  - cbn. apply IH. intros x Hx. by apply merge_edge_incl, Hsub.
  - cbn. rewrite IH by done. f_equal. unfold merge_edge. rewrite decide_True; [done|].
    apply Hsub. by destruct (decide (e ∈ es0)).
Qed.

Lemma edge_merger_seq f h cf ch :
  edge_merger f cf -> edge_merger h ch ->
  edge_merger (fun g => h (f g)) (fun D => cf D ++ ch D).
Proof.
  intros Hf Hh g. rewrite Hh, Hf. cbn [nodes edges]. by rewrite merge_edges_app.
Qed.

Lemma edge_merger_for_each {A} (f : A -> graph -> graph)
    (c : A -> gset node_id -> list edge) (xs : list A) :
  (forall x, edge_merger (f x) (c x)) ->
  edge_merger (for_each xs f) (fun D => flat_map (fun x => c x D) xs).
Proof.
  intros Hf. induction xs as [|x xs IH]; intros g.
  - by destruct g.
  - rewrite for_each_cons, IH, !Hf. cbn [nodes edges flat_map]. by rewrite merge_edges_app.
Qed.

Lemma link_course_department_merger (c : CourseInfo) :
  edge_merger (link_course_department c) (course_department_edges c).
Proof.
  intros g. unfold link_course_department, course_department_edges, guarded, has_node.
  destruct (_ && _); [reflexivity | by destruct g].
Qed.

Lemma link_prerequisites_merger (c : CourseInfo) :
  edge_merger (link_prerequisites c) (prerequisite_edges c).
Proof.
  unfold link_prerequisites, prerequisite_edges.
  apply (edge_merger_for_each (link_prerequisite (c_code c))).
  intros p g. unfold link_prerequisite, guarded, has_node.
  destruct (_ && _); [reflexivity | by destruct g].
Qed.

Lemma link_program_department_merger (p : ProgramInfo) :
  edge_merger (link_program_department p) (program_department_edges p).
Proof.
  intros g. unfold link_program_department, program_department_edges, guarded, has_node.
  destruct (truthy (p_department p)); [|by destruct g].
  destruct (truthy (extract_department_prefix _)); [|by destruct g].
  cbn [andb]. destruct (_ && _); [reflexivity | by destruct g].
Qed.

Lemma link_university_departments_merger :
  edge_merger link_university_departments university_department_pairs.
Proof.
  intros g. unfold link_university_departments. f_equal.
  by apply merge_edges_unlinked.
Qed.

Lemma create_relationships_merger (E : academic_data) :
  edge_merger (create_relationships E) (relationship_candidates E).
Proof.
  intros g. unfold create_relationships, relationship_candidates.
  rewrite link_university_departments_merger.
  rewrite !(edge_merger_for_each _ _ _ link_program_department_merger).
  rewrite !(edge_merger_for_each _ _ _ link_prerequisites_merger).
  rewrite !(edge_merger_for_each _ _ _ link_course_department_merger).
  cbn [nodes edges]. by rewrite !merge_edges_app.
Qed.

(** Running the build again overwrites what the first run wrote: the result
    is the graph of a single run at the time of the second one. *)
Lemma build_graph_absorbs (E : academic_data) (t1 t2 : Z) (g : graph) :
  build_graph E t2 (build_graph E t1 g) = build_graph E t2 g.
Proof.
  unfold build_graph.
  rewrite !create_relationships_merger, !populate_neo4j_writes. cbn [nodes edges].
  rewrite apply_writes_twice.
  - rewrite !dom_apply_writes, (populate_writes_ids E t1 t2).
    by rewrite merge_edges_idem.
  - apply populate_writes_conform.
  - apply populate_writes_conform.
  - by rewrite (populate_writes_ids E t1 t2).
Qed.

(** *** The graph up to the time stamps *)

Lemma delete_set_props (sets : list (string * value)) (n : gmap string value) :
  delete "created_at" (set_props sets n)
  = set_props (untimed sets) (delete "created_at" n).
Proof.
  revert n. induction sets as [|[p v] sets IH]; intros n; [done|].
  cbn [set_props fold_left fst snd untimed List.filter].
  change (delete "created_at" (set_props sets (<[p:=v]> n)) =
          set_props (if negb (String.eqb p "created_at")
                     then (p, v) :: untimed sets else untimed sets)
                    (delete "created_at" n)).
  rewrite IH. destruct (String.eqb_spec p "created_at") as [->|Hne]; cbn [negb].
  - by rewrite delete_insert_eq.
  - rewrite delete_insert_ne by done. reflexivity.
Qed.

Lemma erase_merge_set (w1 w2 : write) (m1 m2 : gmap node_id (gmap string value)) :
  same_but_time w1 w2 ->
  delete "created_at" <$> m1 = delete "created_at" <$> m2 ->
  delete "created_at" <$> merge_set (fst w1) (snd w1) m1
  = delete "created_at" <$> merge_set (fst w2) (snd w2) m2.
Proof.
  intros [Hi Hs] Hm. unfold merge_set. rewrite !fmap_insert, !delete_set_props.
  rewrite Hi, Hs, Hm. do 2 f_equal.
  assert (H := f_equal (fun m => m !! fst w2) Hm). cbn beta in H.
  rewrite !lookup_fmap in H.
  destruct (m1 !! fst w2), (m2 !! fst w2); cbn in *; congruence.
Qed.

Lemma erase_apply_writes (W1 W2 : list write) (m1 m2 : gmap node_id (gmap string value)) :
  Forall2 same_but_time W1 W2 ->
  delete "created_at" <$> m1 = delete "created_at" <$> m2 ->
  delete "created_at" <$> apply_writes W1 m1 = delete "created_at" <$> apply_writes W2 m2.
Proof.
  intros HW. revert m1 m2. induction HW as [|w1 w2 W1 W2 Hw HW IH]; intros m1 m2 Hm; [done|].
  unfold apply_writes. rewrite !for_each_cons. apply IH. by apply erase_merge_set.
Qed.

Lemma populate_writes_same_but_time (E : academic_data) (t1 t2 : Z) :
  Forall2 same_but_time (populate_writes E t1) (populate_writes E t2).
Proof.
  unfold populate_writes.
  repeat apply Forall2_app; try (apply Forall2_map_same; intros; by split).
  constructor; [by split | constructor].
Qed.

Lemma build_graph_erase (E : academic_data) (t1 t2 : Z) (g : graph) :
  erase_created_at (build_graph E t2 g) = erase_created_at (build_graph E t1 g).
Proof.
  unfold build_graph, erase_created_at.
  rewrite !create_relationships_merger, !populate_neo4j_writes. cbn [nodes edges].
  rewrite !dom_apply_writes, (populate_writes_ids E t1 t2). f_equal.
  apply erase_apply_writes; [apply populate_writes_same_but_time | done].
Qed.

Lemma node_count_erase (g : graph) : node_count (erase_created_at g) = node_count g.
Proof. unfold node_count, erase_created_at. cbn. apply map_size_fmap. Qed.

(** C1, as stated, fails: a second run of the build stamps every merged node
    with the time of that run, so the graph after two runs (at times 0 and 1)
    differs from the graph after the first run in the [created_at] property. *)
Lemma second_build_changes_created_at :
  build_graph cs_catalog 1 (build_graph cs_catalog 0 empty_graph)
  <> build_graph cs_catalog 0 empty_graph.
Proof.
  intros H.
  apply (f_equal (fun g => created_at_of g (Course, "CS 1400"))) in H.
  vm_compute in H. discriminate.
Qed.

(** C1 (amended): for every entity collection [E], every initial graph and
    all run times, building twice gives the graph of one build except for
    [created_at]: the same nodes with the same other properties, the same
    relationships in the same order, the same node and relationship counts.
    The second run overwrites [created_at], so the result is exactly the
    graph of a single run at the later time, and a second run at the time of
    the first changes nothing. *)
Theorem build_twice_same_graph_up_to_created_at
    (E : academic_data) (t1 t2 : Z) (g : graph) :
  let once := build_graph E t1 g in
  let twice := build_graph E t2 once in
  twice = build_graph E t2 g
  /\ erase_created_at twice = erase_created_at once
  /\ dom (nodes twice) = dom (nodes once)
  /\ edges twice = edges once
  /\ node_count twice = node_count once
  /\ edge_count twice = edge_count once
  /\ build_graph E t1 once = once.
Proof.
  intros once twice.
  assert (Habs : twice = build_graph E t2 g) by apply build_graph_absorbs.
  assert (Her : erase_created_at twice = erase_created_at once).
  { rewrite Habs. apply build_graph_erase. }
  assert (Hed : edges twice = edges once).
  { apply (f_equal edges) in Her. exact Her. }
  assert (Hn : node_count twice = node_count once).
  { rewrite <- (node_count_erase twice), <- (node_count_erase once). by rewrite Her. }
  repeat split; try done.
  - apply (f_equal (fun h => dom (nodes h))) in Her. cbn in Her.
    by rewrite !dom_fmap_L in Her.
  - unfold edge_count. by rewrite Hed.
  - apply build_graph_absorbs.
Qed.

(** *** The store stays well formed *)

Lemma key_not_in_schema (l : label) : key_prop l ∉ schema l.
Proof.
  destruct l; cbn; rewrite !elem_of_cons, elem_of_nil; intuition discriminate.
Qed.

Lemma merge_set_keyed (w : write) (m : gmap node_id (gmap string value)) :
  conforms w -> keyed m -> keyed (merge_set (fst w) (snd w) m).
Proof.
  intros Hw Hm l k n Hn. unfold merge_set in Hn.
  destruct (decide (fst w = (l, k))) as [Heq|Hne].
  - rewrite Heq, lookup_insert_eq in Hn. injection Hn as <-.
    rewrite set_props_other.
    + cbn [fst snd]. destruct (m !! _) as [n'|] eqn:Hn'; cbn [default].
      * by apply (Hm l k).
      * apply lookup_singleton_eq.
    + unfold conforms in Hw. rewrite Hw, Heq. apply key_not_in_schema.
  - rewrite lookup_insert_ne in Hn by done. by apply (Hm l k).
Qed.

Lemma apply_writes_keyed (W : list write) (m : gmap node_id (gmap string value)) :
  Forall conforms W -> keyed m -> keyed (apply_writes W m).
Proof.
  revert m. induction W as [|w W IH]; intros m HW Hm; [done|].
  apply Forall_cons in HW as [Hw HW]. unfold apply_writes. rewrite for_each_cons.
  apply IH; [done|]. by apply merge_set_keyed.
Qed.

Lemma merge_edge_NoDup (es : list edge) (e : edge) : NoDup es -> NoDup (merge_edge es e).
Proof.
  intros Hnd. unfold merge_edge. case_decide; [done|].
  apply NoDup_app. split; [done|]. split; [|apply NoDup_singleton].
  intros x Hx Hx'. apply list_elem_of_singleton in Hx' as ->. done.
Qed.

Lemma merge_edges_NoDup (L es : list edge) : NoDup es -> NoDup (merge_edges es L).
Proof.
  revert es. induction L as [|e L IH]; intros es Hnd; [done|].
  cbn. by apply IH, merge_edge_NoDup.
Qed.

(** The builder keeps the store well formed: every node carries its key, and
    no relationship occurs twice. *)
Lemma build_graph_well_formed (E : academic_data) (now : Z) (g : graph) :
  keyed (nodes g) -> NoDup (edges g) ->
  keyed (nodes (build_graph E now g)) /\ NoDup (edges (build_graph E now g)).
Proof.
  intros Hk Hnd. unfold build_graph.
  rewrite create_relationships_merger, populate_neo4j_writes. cbn [nodes edges]. split.
  - by apply apply_writes_keyed; [apply populate_writes_conform|].
  - by apply merge_edges_NoDup.
Qed.

Lemma empty_graph_well_formed : keyed (nodes empty_graph) /\ NoDup (edges empty_graph).
Proof.
  split; [|constructor]. intros l k n Hn. cbn in Hn. by rewrite lookup_empty in Hn.
Qed.

Lemma prereq_code_of_elem (g : graph) (course_code p : string) (e : edge) :
  keyed (nodes g) -> p ∈ prereq_code_of g course_code e ->
  e = ((Course, p), PREREQUISITE_FOR, (Course, course_code)).
Proof.
  intros Hk. unfold prereq_code_of.
  destruct e as [[[[] pk] []] [[] ck]]; try (intros H; by inversion H).
  destruct (String.eqb_spec ck course_code) as [->|]; [|intros H; by inversion H].
  destruct (nodes g !! (Course, pk)) as [n|] eqn:Hn; [|intros H; by inversion H].
  pose proof (Hk Course pk n Hn) as Hcode. cbn [key_prop] in Hcode. rewrite Hcode.
  destruct (truthy pk); [|intros H; by inversion H].
  intros H. apply list_elem_of_singleton in H as ->. done.
Qed.

Lemma prereq_code_of_NoDup (g : graph) (course_code : string) (e : edge) :
  NoDup (prereq_code_of g course_code e).
Proof.
  unfold prereq_code_of.
  repeat (match goal with
          | |- NoDup (match ?x with _ => _ end) => destruct x
          | |- NoDup (if ?x then _ else _) => destruct x
          end); (apply NoDup_nil_2 || apply NoDup_singleton).
Qed.

(** The builder creates no parallel relationships, so the prerequisites that
    the planner collects for a course are distinct. *)
Lemma prerequisites_of_NoDup (g : graph) (course_code : string) :
  keyed (nodes g) -> NoDup (edges g) -> NoDup (prerequisites_of g course_code).
Proof.
  intros Hk. unfold prerequisites_of. induction 1 as [|e es He Hnd IH]; [constructor|].
  cbn [mbind list_bind]. apply NoDup_app. split; [apply prereq_code_of_NoDup|].
  split; [|exact IH].
  intros p Hp Hp'. apply (prereq_code_of_elem g _ _ _ Hk) in Hp as ->.
  apply list_elem_of_bind in Hp' as (e' & Hp' & He').
  apply (prereq_code_of_elem g _ _ _ Hk) in Hp' as ->. done.
Qed.

Lemma built_graph_prerequisites_distinct (E : academic_data) (now : Z)
    (course_code : string) :
  NoDup (prerequisites_of (build_graph E now empty_graph) course_code).
Proof.
  destruct empty_graph_well_formed as [Hk0 Hnd0].
  destruct (build_graph_well_formed E now empty_graph Hk0 Hnd0) as [Hk Hnd].
  by apply prerequisites_of_NoDup.
Qed.

(** ** Course levels *)

Lemma course_level_cases (number : string) : extractor_level (course_level number).
Proof.
  unfold course_level, extractor_level.
  destruct (3000 <=? PyStr.int number) eqn:H3; [by right|].
  destruct (5000 <=? PyStr.int number) eqn:H5; [lia | by left].
Qed.

Lemma course_level_never_graduate (number : string) : course_level number <> "graduate".
Proof. destruct (course_level_cases number) as [-> | ->]; discriminate. Qed.

Lemma course_level_upper (number : string) :
  course_level number = "upper_division" <-> 3000 <= PyStr.int number.
Proof.
  unfold course_level. destruct (3000 <=? PyStr.int number) eqn:H3.
  - split; [lia | done].
  - destruct (5000 <=? PyStr.int number); split; (discriminate || lia).
Qed.

Lemma course_of_match_level (m : Re.match_) (c : CourseInfo) :
  course_of_match m = Some c -> c_level c = course_level (c_number c).
Proof.
  unfold course_of_match. destruct (negb _); [discriminate|].
  intros H. injection H as <-. reflexivity.
Qed.

Lemma extracted_courses_level (content url : string) :
  Forall (fun c => extractor_level (c_level c))
         (PyDict.values (extract_courses_from_content content url)).
Proof.
  unfold extract_courses_from_content.
  apply (for_each_invariant
           (fun d => Forall (fun c => extractor_level (c_level c)) (PyDict.values d))).
  - intros m d Hd. destruct (course_of_match m) as [c|] eqn:Hc; [|done].
    apply dict_set_Forall; [|done].
    rewrite (course_of_match_level _ _ Hc). apply course_level_cases.
  - constructor.
Qed.

Lemma all_extracted_courses_level (pages : list (string * string)) :
  Forall (fun c => extractor_level (c_level c)) (PyDict.values (extract_all_courses pages)).
Proof.
  unfold extract_all_courses.
  apply (for_each_invariant
           (fun d => Forall (fun c => extractor_level (c_level c)) (PyDict.values d))).
  - intros page d Hd. apply dict_update_Forall; [done|]. apply extracted_courses_level.
  - constructor.
Qed.

(** C2: the extractor accepts the candidate [CS 6000. Advanced Topics.], whose
    number is at least 5000, and gives it the level [upper_division], not
    [graduate]: the test [>= 3000] comes first and shadows the test
    [>= 5000].  The level is [upper_division] for every number from 3000 on
    and [lower_division] below, and never [graduate]. *)
Theorem graduate_number_classified_upper_division :
  List.map (fun c => (c_code c, c_number c, c_level c))
    (PyDict.values
       (extract_courses_from_content "CS 6000. Advanced Topics. 3 Hours."
          "https://catalog.utahtech.edu/courses/cs/"))
  = [("CS 6000", "6000", "upper_division")]
  /\ course_level "5000" = "upper_division"
  /\ (forall number,
        course_level number
        = if 3000 <=? PyStr.int number then "upper_division" else "lower_division").
Proof.
  split; [vm_compute; reflexivity|]. split; [vm_compute; reflexivity|].
  intros number. unfold course_level.
  destruct (3000 <=? PyStr.int number) eqn:H3; [done|].
  destruct (5000 <=? PyStr.int number) eqn:H5; [lia|done].
Qed.

(** ** Prerequisite extraction *)




(** *** A section is found only where a marker stands *)














(** ** Program names *)

Lemma populator_rejects_false (name : string) (programs : list Program_) :
  populator_rejects name programs = false -> acceptable_program_name name.
Proof.
  unfold populator_rejects, acceptable_program_name, mem_str. cbn [existsb].
  rewrite !orb_false_iff. intros [[[Hlen _] [Hd [Hc _]]] Hpipe].
  apply Z.ltb_ge in Hlen. apply String.eqb_neq in Hd, Hc. done.
Qed.

Lemma populator_add_program_filters (source : string) (m : Re.match_)
    (programs : list Program_) (p : Program_) :
  p ∈ populator_add_program source m programs ->
  p ∈ programs \/ acceptable_program_name (prog_name p).
Proof.
  unfold populator_add_program.
  destruct (populator_rejects _ programs) eqn:Hrej; [by left|].
  intros Hp. apply elem_of_app in Hp as [Hp|Hp]; [by left|].
  apply list_elem_of_singleton in Hp as ->. right. cbn.
  by eapply populator_rejects_false.
Qed.

(** The extractor of [populate_supabase_tables.py] does what C4 says: every
    program that it adds has a name of at least 10 characters, different from
    [degree] and [certificate], without a pipe. *)
Lemma populator_filters_program_names (content source : string)
    (programs : list Program_) (p : Program_) :
  p ∈ populator_extract_programs content source programs ->
  p ∈ programs \/ acceptable_program_name (prog_name p).
Proof.
  unfold populator_extract_programs.
  apply (for_each_invariant
           (fun ps => p ∈ ps -> p ∈ programs \/ acceptable_program_name (prog_name p)));
    [|by left].
  intros pattern ps Hps.
  apply (for_each_invariant
           (fun ps => p ∈ ps -> p ∈ programs \/ acceptable_program_name (prog_name p)));
    [|exact Hps].
  intros m ps' Hps' Hp.
  apply populator_add_program_filters in Hp as [Hp|Hp]; [by apply Hps' | by right].
Qed.

(** C4: the extractor of the graph builder has no such filter.  From the page
    text [Art Minor] it produces a program whose name has 9 characters, and
    from [Bachelor of Science | Utah Tech] a program whose name contains a
    pipe; the extractor of [populate_supabase_tables.py] rejects a name of
    fewer than 10 characters. *)
Theorem short_and_piped_program_names_are_accepted :
  List.map (fun p => (p_name p, PyStr.len (p_name p), p_type p))
    (PyDict.values
       (extract_programs_from_content "Art Minor"
          "https://catalog.utahtech.edu/programs/art/"))
  = [("Art Minor", 9, "Minor")]
  /\ List.map (fun p => (p_name p, PyStr.contains "|" (p_name p)))
       (PyDict.values
          (extract_programs_from_content "Bachelor of Science | Utah Tech"
             "https://catalog.utahtech.edu/programs/"))
     = [("Bachelor of Science | Utah Tech", true)]
  /\ populator_extract_programs "A Degree" "catalog.utahtech.edu" [] = [].
Proof. repeat split; vm_compute; reflexivity. Qed.

(** ** Truncated program names *)

Lemma add_program_record_state (p : ProgramInfo) (st : list program_row * list string) :
  records_state st -> records_state (add_program_record p st).
Proof.
  intros [Hseen Hnd]. unfold add_program_record.
  destruct (mem_str _ (snd st)) eqn:Hmem; [done|].
  apply mem_str_not_elem in Hmem. split; cbn [fst snd].
  - by rewrite map_app, Hseen.
  - apply NoDup_app. split; [done|]. split.
    + intros x Hx Hx'. apply list_elem_of_singleton in Hx' as ->. done.
    + apply NoDup_singleton.
Qed.

Lemma add_program_record_seen (p : ProgramInfo) (st : list program_row * list string)
    (x : string) :
  x ∈ snd st -> x ∈ snd (add_program_record p st).
Proof.
  intros Hx. unfold add_program_record. destruct (mem_str _ _); [done|].
  cbn. apply elem_of_app. by left.
Qed.

Lemma add_program_record_key (p : ProgramInfo) (st : list program_row * list string) :
  PyStr.take 500 (p_name p) ∈ snd (add_program_record p st).
Proof.
  unfold add_program_record. destruct (mem_str _ _) eqn:Hmem.
  - by apply mem_str_elem.
  - cbn. apply elem_of_app. right. by apply list_elem_of_singleton.
Qed.

Lemma add_program_record_skip (p : ProgramInfo) (st : list program_row * list string) :
  PyStr.take 500 (p_name p) ∈ snd st -> add_program_record p st = st.
Proof.
  intros H. unfold add_program_record. apply mem_str_elem in H. by rewrite H.
Qed.

Lemma add_all_seen (ps : list ProgramInfo) (st : list program_row * list string)
    (x : string) :
  x ∈ snd st -> x ∈ snd (for_each ps add_program_record st).
Proof.
  revert st. induction ps as [|p ps IH]; intros st Hx; [done|].
  rewrite for_each_cons. by apply IH, add_program_record_seen.
Qed.

Lemma add_all_state (ps : list ProgramInfo) (st : list program_row * list string) :
  records_state st -> records_state (for_each ps add_program_record st).
Proof.
  apply for_each_invariant. intros p st'. apply add_program_record_state.
Qed.

Lemma batches_concat {A} (fuel batch_size : nat) (records : list A) :
  (0 < batch_size)%nat -> (length records <= fuel)%nat ->
  concat (batches fuel batch_size records) = records.
Proof.
  intros Hb. revert records. induction fuel as [|fuel IH]; intros records Hlen.
  - destruct records; [done | cbn in Hlen; lia].
  - destruct records as [|x records]; [done|].
    cbn [batches concat]. rewrite IH.
    + apply firstn_skipn.
    + rewrite length_skipn. cbn [length] in *. lia.
Qed.

Lemma populate_programs_table_rows (programs : PyDict.t ProgramInfo)
    (table : list program_row) :
  populate_programs_table programs table
  = List.filter (fun r => negb (truthy (program_name r))) table
    ++ program_records programs.
Proof.
  unfold populate_programs_table. destruct programs as [|kv programs].
  - cbn. by rewrite app_nil_r.
  - rewrite for_each_append, batches_concat; [done | lia | done].
Qed.

(** C9: a program whose name exceeds 500 characters is stored under the first
    500 characters of its name; a later program whose name agrees with it on
    those 500 characters is skipped: the records are those of the dictionary
    without the later program, no two stored names are equal, and the table
    receives exactly these records. *)
Theorem long_program_name_truncated_and_deduplicated
    (d1 d2 d3 : PyDict.t ProgramInfo) (k1 k2 : string) (p1 p2 : ProgramInfo)
    (table : list program_row) :
  (500 < String.length (p_name p1))%nat ->
  PyStr.take 500 (p_name p2) = PyStr.take 500 (p_name p1) ->
  let programs := d1 ++ (k1, p1) :: d2 ++ (k2, p2) :: d3 in
  let records := program_records programs in
  (exists r, r ∈ records
             /\ program_name r = PyStr.take 500 (p_name p1)
             /\ String.length (program_name r) = 500%nat)
  /\ NoDup (List.map program_name records)
  /\ records = program_records (d1 ++ (k1, p1) :: d2 ++ d3)
  /\ populate_programs_table programs table
     = List.filter (fun r => negb (truthy (program_name r))) table ++ records.
Proof.
  intros Hlong Hsame programs records.
  assert (Hstate : records_state
                     (for_each (PyDict.values programs) add_program_record ([], []))).
  { apply add_all_state. split; [done | constructor]. }
  destruct Hstate as [Hseen Hnd].
  split; [|split; [|split]].
  - assert (Hkey : PyStr.take 500 (p_name p1)
                   ∈ snd (for_each (PyDict.values programs) add_program_record ([], []))).
    { unfold programs, PyDict.values. rewrite map_app. cbn [List.map snd].
      rewrite for_each_app, for_each_cons.
      apply add_all_seen, add_program_record_key. }
    rewrite Hseen in Hkey. apply list_elem_of_In, in_map_iff in Hkey as (r & Hr & Hin).
    exists r. split; [by apply list_elem_of_In|]. split; [done|].
    rewrite Hr, length_take. lia.
  - unfold records, program_records. by rewrite <- Hseen.
  - unfold records, program_records, programs, PyDict.values.
    rewrite !map_app. cbn [List.map snd]. rewrite !map_app. cbn [List.map snd].
    rewrite !for_each_app, !for_each_cons, !for_each_app, !for_each_cons.
    rewrite (add_program_record_skip p2); [done|].
    rewrite Hsame. apply add_all_seen, add_program_record_key.
  - apply populate_programs_table_rows.
Qed.

Lemma long_program_name_truncated_and_deduplicated_witness :
  List.map program_name (populate_programs_table long_programs [])
  = [PyStr.take 500 long_name]
  /\ populate_programs_table long_programs []
     = program_records [(long_name, long_program long_name)].
Proof.
  destruct (long_program_name_truncated_and_deduplicated
              [] [] [] long_name (long_name +:+ " in Art")
              (long_program long_name) (long_program (long_name +:+ " in Art")) [])
    as (_ & _ & Hskip & Htable).
  - vm_compute. lia.
  - vm_compute. reflexivity.
  - cbn [app] in Hskip, Htable. split.
    + vm_compute. reflexivity.
    + unfold long_programs. rewrite Htable. exact Hskip.
Defined.

(** ** Course nodes of a graph that the builder wrote *)

Lemma merge_set_other_label (w : write) (m : gmap node_id (gmap string value)) :
  fst (fst w) <> Course -> courses_written_by_builder m ->
  courses_written_by_builder (merge_set (fst w) (snd w) m).
Proof.
  intros Hl Hm code n Hn. unfold merge_set in Hn.
  rewrite lookup_insert_ne in Hn; [by eapply Hm|].
  intros Heq. apply Hl. by rewrite Heq.
Qed.

Lemma default_node_department (i : node_id) (m : gmap node_id (gmap string value)) :
  fst i = Course -> courses_written_by_builder m ->
  default {[key_prop (fst i) := VStr (snd i)]} (m !! i) !! "department" = None.
Proof.
  destruct i as [l k]. cbn [fst snd]. intros -> Hm.
  destruct (m !! _) as [n'|] eqn:Hn'; cbn [default].
  - by apply (Hm _ _ Hn').
  - by rewrite lookup_singleton_ne.
Qed.

Lemma merge_set_course (now : Z) (c : CourseInfo) (m : gmap node_id (gmap string value)) :
  extractor_level (c_level c) -> courses_written_by_builder m ->
  courses_written_by_builder
    (merge_set (fst (course_write now c)) (snd (course_write now c)) m).
Proof.
  intros Hc Hm code n Hn. unfold merge_set in Hn.
  destruct (decide (c_code c = code)) as [<-|Hne].
  - change (Course, c_code c) with (fst (course_write now c)) in Hn.
    rewrite lookup_insert_eq in Hn. injection Hn as <-.
    unfold set_props. cbn [course_write fold_left fst snd].
    repeat split.
    + exists (c_level c). split; [|done].
      repeat (rewrite lookup_insert_ne by done). by rewrite lookup_insert_eq.
    + exists (c_credits c).
      repeat (rewrite lookup_insert_ne by done). by rewrite lookup_insert_eq.
    + repeat (rewrite lookup_insert_ne by done).
      exact (default_node_department (Course, c_code c) m eq_refl Hm).
  - rewrite lookup_insert_ne in Hn; [by eapply Hm|].
    cbn. congruence.
Qed.

Lemma populate_courses_written_by_builder (E : academic_data) (now : Z)
    (m : gmap node_id (gmap string value)) :
  Forall (fun c => extractor_level (c_level c)) (PyDict.values (courses E)) ->
  courses_written_by_builder m ->
  courses_written_by_builder (apply_writes (populate_writes E now) m).
Proof.
  intros HE Hm. unfold populate_writes. rewrite !apply_writes_app.
  assert (Hother : forall (W : list write) (m' : gmap node_id (gmap string value)),
             Forall (fun w => fst (fst w) <> Course) W ->
             courses_written_by_builder m' ->
             courses_written_by_builder (apply_writes W m')).
  { intros W. induction W as [|w W IH]; intros m' HW Hm'; [done|].
    apply Forall_cons in HW as [Hw HW]. unfold apply_writes. rewrite for_each_cons.
    apply IH; [done|]. by apply merge_set_other_label. }
  apply Hother; [apply List.Forall_map, Forall_forall; intros; discriminate|].
  assert (Hcourses : forall (cs : list CourseInfo) (m' : gmap node_id (gmap string value)),
             Forall (fun c => extractor_level (c_level c)) cs ->
             courses_written_by_builder m' ->
             courses_written_by_builder (apply_writes (List.map (course_write now) cs) m')).
  { intros cs. induction cs as [|c cs IH]; intros m' Hcs Hm'; [done|].
    apply Forall_cons in Hcs as [Hc Hcs]. cbn [List.map].
    unfold apply_writes. rewrite for_each_cons.
    apply IH; [done|]. by apply merge_set_course. }
  apply Hcourses; [done|].
  apply Hother; [apply List.Forall_map, Forall_forall; intros; discriminate|].
  apply Hother; [by repeat constructor|done].
Qed.

Lemma built_graph_courses (E : academic_data) (now : Z) :
  Forall (fun c => extractor_level (c_level c)) (PyDict.values (courses E)) ->
  courses_written_by_builder (nodes (build_graph E now empty_graph)).
Proof.
  intros HE. unfold build_graph.
  rewrite create_relationships_merger, populate_neo4j_writes. cbn [nodes].
  apply populate_courses_written_by_builder; [done|].
  intros code n Hn. cbn in Hn. by rewrite lookup_empty in Hn.
Qed.

(** *** What the planner reads from such a node *)

Lemma py_sum_ints (vs : list value) :
  Forall (fun v => exists z, v = VInt z) vs -> exists z, py_sum vs = Some z.
Proof.
  unfold py_sum. induction 1 as [|v vs [z ->] _ [t IH]].
  - by exists 0.
  - cbn in *. destruct (mapM as_int vs) as [zs|]; [|discriminate].
    cbn. eauto.
Qed.

Lemma or_3_int (z : Z) : exists z', or_3 (Some (VInt z)) = VInt z'.
Proof. unfold or_3. cbn. destruct (negb (z =? 0)); eauto. Qed.

Lemma extractor_level_not_hyphenated (level : string) :
  extractor_level level -> is_upper_division (Some (VStr level)) = false.
Proof. intros [-> | ->]; reflexivity. Qed.

Lemma builder_node_record (n : gmap string value) :
  builder_course_node n ->
  builder_record (or_3 (n !! "credits")) (n !! "level") (n !! "department").
Proof.
  intros ((level & Hl & Hlevel) & (z & Hz) & Hd). rewrite Hl, Hz, Hd.
  split; [apply or_3_int|]. split; [by apply extractor_level_not_hyphenated|done].
Qed.

Lemma course_query_builder (g : graph) (course_code : string) (r : course_details) :
  courses_written_by_builder (nodes g) ->
  course_query g course_code = Some r ->
  builder_record (cd_credits r) (cd_level r) (cd_department r).
Proof.
  intros Hg. unfold course_query, course_node.
  destruct (nodes g !! _) as [n|] eqn:Hn; [|discriminate].
  cbn. intros H. injection H as <-. cbn. by apply builder_node_record, (Hg _ _ Hn).
Qed.

Lemma progress_query_builder (g : graph) (course_code : string) (r : progress_info) :
  courses_written_by_builder (nodes g) ->
  progress_query g course_code = Some r ->
  builder_record (pi_credits r) (pi_level r) (pi_department r).
Proof.
  intros Hg. unfold progress_query, course_node.
  destruct (nodes g !! _) as [n|] eqn:Hn; [|discriminate].
  cbn. intros H. injection H as <-. cbn. by apply builder_node_record, (Hg _ _ Hn).
Qed.

Lemma collect_course_info_builder (g : graph) (course_codes : list string) :
  courses_written_by_builder (nodes g) ->
  Forall (fun r => builder_record (cd_credits r) (cd_level r) (cd_department r))
         (PyDict.values (collect_course_info g course_codes)).
Proof.
  intros Hg. unfold collect_course_info.
  apply (for_each_invariant
           (fun d => Forall (fun r => builder_record (cd_credits r) (cd_level r)
                                        (cd_department r)) (PyDict.values d))).
  - intros c d Hd. destruct (course_query g c) as [r|] eqn:Hr; [|done].
    apply dict_set_Forall; [|done]. by eapply course_query_builder.
  - constructor.
Qed.

Lemma found_infos_builder (g : graph) (codes : list string) :
  courses_written_by_builder (nodes g) ->
  Forall (fun r => builder_record (pi_credits r) (pi_level r) (pi_department r))
         (found_infos g codes).
Proof.
  intros Hg. unfold found_infos. induction codes as [|c codes IH]; [constructor|].
  cbn. apply Forall_app. split; [|exact IH].
  destruct (progress_query g c) as [r|] eqn:Hr; [|constructor].
  constructor; [|constructor]. by eapply progress_query_builder.
Qed.

(** The aggregates over records read from builder nodes: the credit sum is
    defined, the upper-division sum is 0 and the disciplines form a set. *)
Lemma builder_aggregates {R} (credits : R -> value) (level department : R -> field)
    (rs : list R) :
  Forall (fun r => builder_record (credits r) (level r) (department r)) rs ->
  (exists total, py_sum (List.map credits rs) = Some total)
  /\ py_sum (List.map credits (List.filter (fun r => is_upper_division (level r)) rs))
     = Some 0
  /\ py_set (List.map department rs) = Some (dedup_fields (List.map department rs)).
Proof.
  intros H. repeat split.
  - apply py_sum_ints, List.Forall_map. eapply Forall_impl; [exact H|]. by intros r [? _].
  - rewrite filter_none; [done|]. eapply Forall_impl; [exact H|]. by intros r (_ & ? & _).
  - unfold py_set. rewrite forallb_Forall; [done|].
    apply List.Forall_map. eapply Forall_impl; [exact H|]. by intros r (_ & _ & ?).
Qed.

(** ** Prerequisite chains *)

Lemma chain_paths_depth (g : graph) (course_code : string) (max_depth : Z)
    (p : list node_id) :
  p ∈ chain_paths g course_code max_depth ->
  1 <= path_depth p <= 10 /\ path_depth p <= max_depth.
Proof.
  unfold chain_paths. intros Hp.
  apply list_elem_of_bind in Hp as (d & Hp & Hd).
  apply list_elem_of_In, filter_In in Hp as [Hp Hdepth].
  apply filter_In in Hp as [_ Hp].
  apply andb_prop in Hp as [_ Hmax].
  apply list_elem_of_In, in_rev, in_seq in Hd.
  lia.
Qed.

Lemma chain_entry_semesters (g : graph) (course_code : string) (np : list node_id)
    (p : PrerequisitePath) :
  chain_entry g course_code np = Some p ->
  path_length p = path_depth np
  /\ semesters_needed p = Z.max 1 ((path_depth np + 1) / 2).
Proof.
  unfold chain_entry. intros H.
  destruct (mapM _ _) as [credits|]; [|discriminate].
  cbn in H. injection H as <-. unfold path_length. cbn.
  by rewrite length_map.
Qed.

Lemma floor_is_ceiling_iff_odd (n : Z) :
  (n + 1) / 2 = ceil_div (n + 1) 2 <-> Z.odd n = true.
Proof.
  unfold ceil_div. rewrite Z.odd_spec.
  split.
  - intros H. destruct (Z.Even_or_Odd n) as [[k ->]|Hodd]; [|done].
    exfalso. revert H. Z.to_euclidean_division_equations. lia.
  - intros [k ->]. Z.to_euclidean_division_equations. lia.
Qed.

(** C3, as stated, fails: the prerequisite chain of CS 2420 has the path
    CS 1400, CS 1410, CS 2420 of length 2, annotated with 1 semester, while
    [ceil((2 + 1) / 2)] is 2. *)
Lemma two_step_path_needs_one_semester :
  exists p rest,
    get_prerequisite_chain cs_graph "CS 2420" 10 = Some (p :: rest)
    /\ path_length p = 2
    /\ semesters_needed p = 1
    /\ semesters_needed p <> ceil_div (path_length p + 1) 2.
Proof.
  eexists _, _. split; [vm_compute; reflexivity|].
  repeat split; vm_compute; congruence.
Qed.

(** C3 (amended): every path returned by the prerequisite-chain enumeration
    has between 1 and 10 relationships, at most [max_depth], and its
    [semesters_needed] is the quotient [(pathLength + 1) // 2] rounded down;
    this is [ceil((pathLength + 1) / 2)] exactly when the length is odd (a
    path of length 2 is annotated with 1 semester). *)
Theorem semesters_needed_is_floor_of_half
    (g : graph) (course_code : string) (max_depth : Z)
    (paths : list PrerequisitePath) (p : PrerequisitePath) :
  get_prerequisite_chain g course_code max_depth = Some paths ->
  p ∈ paths ->
  1 <= path_length p <= 10
  /\ path_length p <= max_depth
  /\ semesters_needed p = (path_length p + 1) / 2
  /\ (semesters_needed p = ceil_div (path_length p + 1) 2 <-> Z.odd (path_length p) = true).
Proof.
  unfold get_prerequisite_chain. intros Hget Hp.
  apply mapM_Some in Hget.
  apply list_elem_of_lookup in Hp as [i Hi].
  destruct (Forall2_lookup_r _ _ _ _ _ Hget Hi) as (np & Hnp & Hentry).
  apply list_elem_of_lookup_2 in Hnp.
  apply chain_paths_depth in Hnp as [Hd Hmax].
  apply chain_entry_semesters in Hentry as [Hlen Hsem].
  rewrite Hlen, Hsem.
  assert (Hq : 1 <= (path_depth np + 1) / 2).
  { apply Z.div_le_lower_bound; lia. }
  rewrite Z.max_r by lia.
  repeat split; try lia; apply floor_is_ceiling_iff_odd.
Qed.

Lemma semesters_needed_is_floor_of_half_witness :
  exists p rest,
    get_prerequisite_chain cs_graph "CS 2420" 10 = Some (p :: rest)
    /\ semesters_needed p = (path_length p + 1) / 2.
Proof.
  eexists _, _. split; [vm_compute; reflexivity|].
  eapply (semesters_needed_is_floor_of_half cs_graph "CS 2420" 10).
  - vm_compute. reflexivity.
  - left.
Defined.

(** ** Sequence validation *)

Lemma collect_course_info_get (g : graph) (course_codes : list string) (c : string) :
  PyDict.get c (collect_course_info g course_codes)
  = if mem_str c course_codes then course_query g c else None.
Proof.
  unfold collect_course_info.
  set (F := fun course_code info => match course_query g course_code with
                                    | Some r => _ | None => info end).
  assert (H : forall cs (info : PyDict.t course_details),
             PyDict.get c (for_each cs F info)
             = match (if mem_str c cs then course_query g c else None)
               with Some r => Some r | None => PyDict.get c info end).
  { induction cs as [|c0 cs IH]; intros info; [done|].
    rewrite for_each_cons, IH. cbn [mem_str existsb]. fold (mem_str c cs).
    destruct (String.eqb_spec c c0) as [->|Hne]; cbn [orb].
    - unfold F. destruct (course_query g c0) as [r|] eqn:Hr.
      + destruct (mem_str c0 cs); [done | by rewrite dict_get_set_eq].
      + by destruct (mem_str c0 cs).
    - assert (Hinfo : PyDict.get c (F c0 info) = PyDict.get c info).
      { unfold F. destruct (course_query g c0); [|done]. by rewrite dict_get_set_ne. }
      by rewrite Hinfo. }
  rewrite H. cbn [PyDict.get].
  destruct (mem_str c course_codes), (course_query g c); done.
Qed.

Lemma check_courses_direct (g : graph) (all_codes course_codes : list string)
    (vs : list violation) (completed : list string) :
  (forall c, c ∈ course_codes -> c ∈ all_codes) ->
  fst (for_each course_codes (check_course (collect_course_info g all_codes))
         (vs, completed))
  = vs ++ direct_violations g completed course_codes.
Proof.
  revert vs completed. induction course_codes as [|c cs IH]; intros vs completed Hsub.
  - cbn. by rewrite app_nil_r.
  - rewrite for_each_cons. unfold check_course at 2. rewrite collect_course_info_get.
    assert (Hc : mem_str c all_codes = true) by (apply mem_str_elem, Hsub; left).
    rewrite Hc. cbn [direct_violations]. unfold course_query.
    destruct (course_node g c) as [n|]; cbn [mbind option_bind fst snd cd_prerequisites].
    + rewrite IH by (intros x Hx; apply Hsub; by right).
      destruct (List.filter _ _); [done|]. by rewrite <- app_assoc.
    + apply IH. intros x Hx. apply Hsub. by right.
Qed.

(** The violations that [validate_course_sequence] reports are the direct
    ones. *)
Lemma validation_reports_direct_violations (g : graph) (course_codes : list string)
    (r : validation) :
  validate_course_sequence g course_codes = Some r ->
  violations r = direct_violations g [] course_codes
  /\ valid r = match direct_violations g [] course_codes with [] => true | _ => false end.
Proof.
  unfold validate_course_sequence. rewrite (check_courses_direct g course_codes) by done.
  cbn [app].
  destruct (py_sum (List.map cd_credits
                      (PyDict.values (collect_course_info g course_codes))))
    as [total|]; [|discriminate].
  cbn [mbind option_bind].
  destruct (py_sum (List.map cd_credits (List.filter _ _))) as [upper|]; [|discriminate].
  cbn [mbind option_bind].
  destruct (py_set _) as [disciplines|]; [|discriminate]. cbn [mbind option_bind].
  intros H. injection H as <-. done.
Qed.

Lemma validate_on_builder_graph (g : graph) (course_codes : list string) :
  courses_written_by_builder (nodes g) ->
  exists r, validate_course_sequence g course_codes = Some r
            /\ st_upper_division_credits (statistics r) = 0.
Proof.
  intros Hg. unfold validate_course_sequence.
  destruct (builder_aggregates cd_credits cd_level cd_department _
              (collect_course_info_builder g course_codes Hg))
    as ((total & Ht) & Hu & Hs).
  rewrite Ht, Hu, Hs. cbn. eauto.
Qed.

Lemma cs_graph_prerequisites :
  prerequisites_of cs_graph "CS 2420" = ["CS 1410"]
  /\ prerequisites_of cs_graph "CS 1410" = ["CS 1400"]
  /\ prerequisites_of cs_graph "CS 1400" = [].
Proof. repeat split; vm_compute; reflexivity. Qed.

(** C6: on the graph built from the catalog where CS 2420 requires CS 1410 and
    CS 1410 requires CS 1400, the list [CS 2420; CS 1400; CS 1410] has exactly
    one violation, on CS 2420 with missing prerequisite CS 1410, and the list
    [CS 1400; CS 1410; CS 2420] has none. *)
Theorem validation_checks_direct_prerequisites_in_order :
  (fun r => (valid r,
             List.map (fun v => (v_course v, v_missing_prerequisites v)) (violations r)))
    <$> validate_course_sequence cs_graph ["CS 2420"; "CS 1400"; "CS 1410"]
  = Some (false, [("CS 2420", ["CS 1410"])])
  /\ (fun r => (valid r, violations r))
       <$> validate_course_sequence cs_graph ["CS 1400"; "CS 1410"; "CS 2420"]
     = Some (true, [])
  /\ prerequisites_of cs_graph "CS 2420" = ["CS 1410"]
  /\ prerequisites_of cs_graph "CS 1410" = ["CS 1400"]
  /\ prerequisites_of cs_graph "CS 1400" = [].
Proof. repeat split; vm_compute; reflexivity. Qed.

(** ** Topological order of the recommended sequence *)

(** *** Kahn's algorithm as [_topological_sort] runs it *)

Section kahn.

Variable courses : list string.
Variable prerequisite_graph : PyDict.t (list string).

Hypothesis courses_distinct : NoDup courses.
Hypothesis prerequisites_distinct :
  forall c, c ∈ courses -> NoDup (pg_get prerequisite_graph c).

(** The prerequisites of a course that are among the courses. *)
Definition inner (c : string) : list string :=
  List.filter (fun p => mem_str p courses) (pg_get prerequisite_graph c).

(** Those that are not in [res] yet. *)
Definition pending (res : list string) (c : string) : list string :=
  List.filter (fun p => negb (mem_str p res)) (inner c).

Lemma elem_of_inner (p c : string) :
  p ∈ inner c <-> p ∈ pg_get prerequisite_graph c /\ p ∈ courses.
Proof.
  unfold inner. rewrite list_elem_of_In, filter_In, <- list_elem_of_In, mem_str_elem. tauto.
Qed.

Lemma elem_of_pending (res : list string) (p c : string) :
  p ∈ pending res c <-> p ∈ inner c /\ p ∉ res.
Proof.
  unfold pending.
  rewrite list_elem_of_In, filter_In, <- list_elem_of_In, negb_true_iff, mem_str_not_elem.
  tauto.
Qed.

Lemma inner_distinct (c : string) : c ∈ courses -> NoDup (inner c).
Proof.
  intros Hc. unfold inner. apply NoDup_ListNoDup, List.NoDup_filter, NoDup_ListNoDup.
  by apply prerequisites_distinct.
Qed.

Lemma pending_nil (res : list string) (c : string) :
  pending res c = [] <-> forall p, p ∈ inner c -> p ∈ res.
Proof.
  split.
  - intros Hnil p Hp. destruct (decide (p ∈ res)) as [|Hn]; [done|].
    assert (Hin : p ∈ pending res c) by by apply elem_of_pending.
    rewrite Hnil in Hin. inversion Hin.
  - intros H. destruct (pending res c) as [|p l] eqn:Hp; [done|].
    assert (Hin : p ∈ pending res c) by (rewrite Hp; left).
    apply elem_of_pending in Hin as [Hi Hn]. by apply H in Hi.
Qed.

(** [{course: 0 for course in courses}]. *)
Lemma zero_degrees (cs : list string) (d : PyDict.t Z) :
  NoDup (PyDict.keys d ++ cs) -> (forall c, degree_of d c = 0) ->
  let d' := for_each cs (fun course d => PyDict.set course 0 d) d in
  PyDict.keys d' = PyDict.keys d ++ cs /\ forall c, degree_of d' c = 0.
Proof.
  revert d. induction cs as [|c cs IH]; intros d Hnd Hd; cbn zeta.
  - split; [by rewrite app_nil_r | done].
  - rewrite for_each_cons.
    assert (Hc : c ∉ PyDict.keys d).
    { apply NoDup_app in Hnd as (_ & Hdis & _). intros Hin. apply (Hdis c Hin). left. }
    destruct (IH (PyDict.set c 0 d)) as [Hk Hz].
    + rewrite dict_keys_set_new by done. by rewrite <- app_assoc.
    + intros c'. destruct (decide (c = c')) as [->|Hne].
      * apply degree_of_set_eq.
      * by rewrite degree_of_set_ne.
    + split; [|done]. rewrite Hk, dict_keys_set_new by done. by rewrite <- app_assoc.
Qed.

(** The inner loop of the in-degree count, for one course. *)
Lemma count_for_course (c : string) (l : list string) (d : PyDict.t Z) :
  PyDict.keys d = courses -> c ∈ courses ->
  let d' := for_each l (fun prereq d =>
                          if PyDict.mem prereq d
                          then PyDict.set c (degree_of d c + 1) d else d) d in
  PyDict.keys d' = courses
  /\ degree_of d' c
     = degree_of d c + Z.of_nat (length (List.filter (fun p => mem_str p courses) l))
  /\ forall c', c' <> c -> degree_of d' c' = degree_of d c'.
Proof.
  intros Hk Hc. revert d Hk. induction l as [|p l IH]; intros d Hk; cbn zeta.
  - rewrite for_each_nil. split; [done|]. split; [|done].
    cbn [List.filter length]. lia.
  - rewrite for_each_cons. rewrite dict_mem_mem_str, Hk. cbn [List.filter].
    destruct (mem_str p courses).
    + destruct (IH (PyDict.set c (degree_of d c + 1) d)) as (Hk' & Hd' & Ho').
      { rewrite dict_keys_set_mem; [done | by rewrite Hk]. }
      split; [done|]. split.
      * rewrite Hd', degree_of_set_eq. cbn [length]. lia.
      * intros c' Hne. rewrite Ho' by done. by rewrite degree_of_set_ne.
    + by apply IH.
Qed.

Lemma count_prerequisites_degrees (cs : list string) (d : PyDict.t Z) :
  PyDict.keys d = courses -> NoDup cs -> (forall c, c ∈ cs -> c ∈ courses) ->
  let d' := count_prerequisites cs prerequisite_graph d in
  PyDict.keys d' = courses
  /\ forall c, degree_of d' c
               = degree_of d c + if decide (c ∈ cs) then Z.of_nat (length (inner c)) else 0.
Proof.
  unfold count_prerequisites. revert d.
  induction cs as [|c0 cs IH]; intros d Hk Hnd Hsub; cbn zeta.
  - rewrite for_each_nil. split; [done|]. intros c.
    rewrite decide_False by inversion 1. lia.
  - rewrite for_each_cons. apply NoDup_cons in Hnd as [Hc0 Hnd].
    destruct (count_for_course c0 (pg_get prerequisite_graph c0) d Hk) as (Hk' & Hd' & Ho').
    { apply Hsub. left. }
    destruct (IH _ Hk' Hnd) as [Hk'' Hd''].
    { intros c Hc. apply Hsub. by right. }
    split; [done|]. intros c. rewrite Hd''.
    destruct (decide (c = c0)) as [->|Hne].
    + rewrite Hd'. rewrite (decide_False (P := c0 ∈ cs)) by done.
      rewrite decide_True by left. unfold inner. lia.
    + rewrite Ho' by done. destruct (decide (c ∈ cs)) as [Hin|Hnin].
      * rewrite decide_True by by right. done.
      * rewrite decide_False; [done|]. intros H. apply elem_of_cons in H as [?|?]; done.
Qed.

Lemma kahn_init_state :
  let st := kahn_init courses prerequisite_graph in
  PyDict.keys (in_degree st) = courses
  /\ (forall c, c ∈ courses -> degree_of (in_degree st) c = Z.of_nat (length (inner c)))
  /\ queue st = List.filter (fun c => degree_of (in_degree st) c =? 0) courses
  /\ result st = [].
Proof.
  unfold kahn_init. cbn zeta. cbn [in_degree queue result].
  destruct (zero_degrees courses []) as [Hk0 Hz0]; [done | done |].
  cbn in Hk0.
  destruct (count_prerequisites_degrees courses _ Hk0 courses_distinct) as [Hk Hd]; [done|].
  split; [done|]. split.
  - intros c Hc. rewrite Hd, Hz0. by rewrite decide_True.
  - split; [|done]. rewrite dict_zero_keys; rewrite Hk; done.
Qed.

(** One course of the inner loop of [while queue]. *)
Lemma release_unfold (current c0 : string) (d : PyDict.t Z) (q : list string) :
  release prerequisite_graph current c0 (d, q)
  = (if mem_str current (pg_get prerequisite_graph c0)
     then PyDict.set c0 (degree_of d c0 - 1) d else d,
     if mem_str current (pg_get prerequisite_graph c0) && (degree_of d c0 - 1 =? 0)
     then q ++ [c0] else q).
Proof.
  unfold release. cbn [fst snd].
  destruct (mem_str current _); [|done].
  rewrite degree_of_set_eq. by destruct (_ =? 0).
Qed.

(** The inner loop of one iteration of [while queue]. *)
Lemma release_loop (current : string) (cs : list string) (d : PyDict.t Z)
    (q : list string) :
  PyDict.keys d = courses -> NoDup cs -> (forall c, c ∈ cs -> c ∈ courses) ->
  let dq := for_each cs (release prerequisite_graph current) (d, q) in
  PyDict.keys (fst dq) = courses
  /\ (forall c, degree_of (fst dq) c
                = degree_of d c
                  - if decide (c ∈ cs)
                    then (if mem_str current (pg_get prerequisite_graph c) then 1 else 0)
                    else 0)
  /\ snd dq = q ++ List.filter
                     (fun c => mem_str current (pg_get prerequisite_graph c)
                               && (degree_of d c - 1 =? 0)) cs.
Proof.
  revert d q. induction cs as [|c0 cs IH]; intros d q Hk Hnd Hsub; cbn zeta.
  - rewrite for_each_nil. cbn [fst snd List.filter]. split; [done|]. split.
    + intros c. rewrite decide_False by inversion 1. lia.
    + by rewrite app_nil_r.
  - rewrite for_each_cons, release_unfold. apply NoDup_cons in Hnd as [Hc0 Hnd].
    assert (Hsub' : forall c, c ∈ cs -> c ∈ courses) by (intros c Hc; apply Hsub; by right).
    assert (Hc0' : c0 ∈ PyDict.keys d) by (rewrite Hk; apply Hsub; left).
    set (d1 := if mem_str current (pg_get prerequisite_graph c0)
               then PyDict.set c0 (degree_of d c0 - 1) d else d).
    assert (Hk1 : PyDict.keys d1 = courses).
    { unfold d1. destruct (mem_str current _); [|done]. by rewrite dict_keys_set_mem. }
    assert (Hd1 : forall c, c <> c0 -> degree_of d1 c = degree_of d c).
    { intros c Hne. unfold d1. destruct (mem_str current _); [|done].
      by rewrite degree_of_set_ne. }
    assert (Hd10 : degree_of d1 c0
                   = degree_of d c0
                     - if mem_str current (pg_get prerequisite_graph c0) then 1 else 0).
    { unfold d1. destruct (mem_str current _); [|lia]. by rewrite degree_of_set_eq. }
    destruct (IH d1 (if mem_str current (pg_get prerequisite_graph c0)
                        && (degree_of d c0 - 1 =? 0)
                     then q ++ [c0] else q) Hk1 Hnd Hsub') as (Hk' & Hd' & Hq').
    split; [done|]. split.
    + intros c. rewrite Hd'. destruct (decide (c = c0)) as [->|Hne].
      * rewrite (decide_False (P := c0 ∈ cs)) by done. rewrite decide_True by left. lia.
      * rewrite Hd1 by done. destruct (decide (c ∈ cs)) as [Hin|Hnin].
        -- rewrite decide_True by by right. done.
        -- rewrite decide_False; [done|]. by rewrite elem_of_cons_ne.
    + rewrite Hq'. cbn [List.filter].
      assert (Hfilter :
                List.filter (fun c => mem_str current (pg_get prerequisite_graph c)
                                      && (degree_of d1 c - 1 =? 0)) cs
                = List.filter (fun c => mem_str current (pg_get prerequisite_graph c)
                                        && (degree_of d c - 1 =? 0)) cs).
      { apply filter_ext_in. intros c Hc. rewrite Hd1; [done|].
        intros ->. apply Hc0. by apply list_elem_of_In. }
      rewrite Hfilter. destruct (_ && _); [|done]. by rewrite <- app_assoc.
Qed.

Lemma pending_snoc (res : list string) (current c : string) :
  pending (res ++ [current]) c
  = List.filter (fun p => negb (String.eqb p current)) (pending res c).
Proof.
  unfold pending. rewrite filter_filter_and. apply filter_ext. intros p.
  unfold mem_str. rewrite existsb_app. cbn [existsb]. rewrite orb_false_r.
  by rewrite negb_orb.
Qed.

Lemma length_pending_snoc (res : list string) (current c : string) :
  c ∈ courses -> current ∈ courses -> current ∉ res ->
  Z.of_nat (length (pending (res ++ [current]) c))
  = Z.of_nat (length (pending res c))
    - if mem_str current (pg_get prerequisite_graph c) then 1 else 0.
Proof.
  intros Hc Hcur Hres. rewrite pending_snoc.
  assert (Hnd : NoDup (pending res c)).
  { unfold pending. apply NoDup_ListNoDup, List.NoDup_filter, NoDup_ListNoDup.
    by apply inner_distinct. }
  rewrite (length_filter_remove current (pending res c) Hnd).
  destruct (mem_str current (pg_get prerequisite_graph c)) eqn:Hmem.
  - apply mem_str_elem in Hmem. rewrite decide_True; [lia|].
    apply elem_of_pending. split; [|done]. by apply elem_of_inner.
  - apply mem_str_not_elem in Hmem. rewrite decide_False; [lia|].
    intros Hin. apply elem_of_pending in Hin as [Hin _].
    apply elem_of_inner in Hin as [Hin _]. done.
Qed.

(** The loop invariant: the in-degree of a course counts its prerequisites
    that are not in the result yet; the courses in the result or in the queue
    are those with none left; each course of the result comes after its
    prerequisites. *)
Record kahn_inv (st : kahn_state) : Prop := {
  inv_keys : PyDict.keys (in_degree st) = courses;
  inv_nodup : NoDup (result st ++ queue st);
  inv_sub : forall c, c ∈ result st ++ queue st -> c ∈ courses;
  inv_degree : forall c, c ∈ courses ->
    degree_of (in_degree st) c = Z.of_nat (length (pending (result st) c));
  inv_ready : forall c, c ∈ courses ->
    (c ∈ result st ++ queue st <-> pending (result st) c = []);
  inv_order : forall i c, result st !! i = Some c ->
    forall p, p ∈ inner c -> p ∈ take i (result st)
}.

Lemma kahn_init_inv : kahn_inv (kahn_init courses prerequisite_graph).
Proof.
  destruct kahn_init_state as (Hk & Hd & Hq & Hr).
  assert (Hp : forall c, pending [] c = inner c).
  { intros c. unfold pending. apply forallb_filter_id, forallb_forall. done. }
  assert (Hmem : forall c, c ∈ courses ->
                  (c ∈ queue (kahn_init courses prerequisite_graph)
                   <-> pending [] c = [])).
  { intros c Hc. rewrite Hq, list_elem_of_In, filter_In, <- list_elem_of_In, Z.eqb_eq.
    rewrite Hd by done. rewrite Hp, length_zero_nil. tauto. }
  constructor; rewrite ?Hr; cbn [app].
  - done.
  - rewrite Hq. by apply NoDup_ListNoDup, List.NoDup_filter, NoDup_ListNoDup.
  - intros c. rewrite Hq, list_elem_of_In, filter_In, <- list_elem_of_In. tauto.
  - intros c Hc. rewrite Hp. by apply Hd.
  - done.
  - intros i c Hi. by rewrite lookup_nil in Hi.
Qed.

Lemma kahn_step_inv (st : kahn_state) (current : string) (rest : list string) :
  kahn_inv st -> queue st = current :: rest ->
  kahn_inv (kahn_step courses prerequisite_graph st)
  /\ result (kahn_step courses prerequisite_graph st) = result st ++ [current].
Proof.
  intros [Hk Hnd Hsub Hdeg Hready Hord] Hq. unfold kahn_step. rewrite Hq in *.
  destruct (release_loop current courses (in_degree st) rest Hk courses_distinct)
    as (Hk' & Hd' & Hq'); [done|].
  cbn zeta in Hk', Hd', Hq'. cbn [result queue in_degree].
  set (new := List.filter
                (fun c => mem_str current (pg_get prerequisite_graph c)
                          && (degree_of (in_degree st) c - 1 =? 0)) courses) in *.
  assert (Hcur : current ∈ courses).
  { apply Hsub, elem_of_app. right. left. }
  assert (Hcur_res : current ∉ result st).
  { apply NoDup_app in Hnd as (_ & Hdis & _). intros Hin. apply (Hdis _ Hin). left. }
  assert (Hlen : forall c, c ∈ courses ->
                  Z.of_nat (length (pending (result st ++ [current]) c))
                  = degree_of (in_degree st) c
                    - if mem_str current (pg_get prerequisite_graph c) then 1 else 0).
  { intros c Hc. rewrite length_pending_snoc, Hdeg by done. done. }
  assert (Hnew : forall c, c ∈ new <->
                  c ∈ courses /\ mem_str current (pg_get prerequisite_graph c) = true
                  /\ degree_of (in_degree st) c = 1).
  { intros c. unfold new.
    rewrite list_elem_of_In, filter_In, <- list_elem_of_In, andb_true_iff, Z.eqb_eq.
    split; intros (? & ? & ?); repeat split; (done || lia). }
  assert (Hmem : forall c, c ∈ (result st ++ [current]) ++ snd
                     (for_each courses (release prerequisite_graph current)
                        (in_degree st, rest))
                   <-> c ∈ result st ++ current :: rest \/ c ∈ new).
  { intros c. rewrite Hq'. rewrite !elem_of_app, !elem_of_cons, elem_of_nil.
    tauto. }
  split; [|done]. constructor; cbn [result queue in_degree].
  - done.
  - rewrite Hq'. replace ((result st ++ [current]) ++ rest ++ new)
      with ((result st ++ current :: rest) ++ new)
      by (rewrite <- !app_assoc; done).
    apply NoDup_app. split; [done|]. split.
    + intros c Hc Hc'. apply Hnew in Hc' as (Hcc & _ & Hone).
      apply (Hready c Hcc) in Hc. rewrite Hdeg, Hc in Hone by done. done.
    + unfold new. by apply NoDup_ListNoDup, List.NoDup_filter, NoDup_ListNoDup.
  - intros c Hc. apply Hmem in Hc as [Hc|Hc]; [by apply Hsub | by apply Hnew in Hc as [? _]].
  - intros c Hc. rewrite Hd', Hlen by done. by rewrite decide_True.
  - intros c Hc. rewrite Hmem, <- length_zero_nil, Hlen by done. split.
    + intros [Hold|Hn].
      * apply (Hready c Hc) in Hold.
        assert (H0 : pending (result st ++ [current]) c = [])
          by (rewrite pending_snoc, Hold; done).
        rewrite <- Hlen, H0 by done. done.
      * apply Hnew in Hn as (_ & -> & ->). done.
    + intros H. destruct (mem_str current (pg_get prerequisite_graph c)) eqn:Hhit.
      * right. apply Hnew. repeat split; (done || lia).
      * left. apply (Hready c Hc). apply length_zero_nil. rewrite <- Hdeg by done. lia.
  - intros i c Hi p Hp. destruct (decide (i < length (result st))%nat) as [Hlt|Hge].
    + rewrite lookup_app_l in Hi by done. rewrite take_app_le by lia.
      by eapply Hord.
    + rewrite lookup_app_r in Hi by lia.
      apply list_lookup_singleton_Some in Hi as [Hi <-].
      replace i with (length (result st)) by lia. rewrite take_app_length.
      assert (Hin : current ∈ result st ++ current :: rest)
        by (apply elem_of_app; right; left).
      apply (Hready current Hcur) in Hin. by apply (pending_nil (result st) current).
Qed.

(** Every course, once its prerequisites among the courses are in the result,
    is in the result or in the queue; one iteration per course empties the
    queue. *)
Lemma kahn_loop_inv (fuel : nat) (st : kahn_state) :
  kahn_inv st -> (length courses <= length (result st) + fuel)%nat ->
  kahn_inv (kahn_loop fuel courses prerequisite_graph st)
  /\ queue (kahn_loop fuel courses prerequisite_graph st) = [].
Proof.
  revert st. induction fuel as [|fuel IH]; intros st Hinv Hlen.
  - cbn [kahn_loop]. split; [done|].
    assert (Hle : (length (result st ++ queue st) <= length courses)%nat).
    { apply submseteq_length, NoDup_submseteq; [apply Hinv | apply Hinv]. }
    rewrite length_app in Hle. destruct (queue st); [done | cbn [length] in Hle; lia].
  - cbn [kahn_loop]. destruct (queue st) as [|current rest] eqn:Hq; [done|].
    destruct (kahn_step_inv st current rest Hinv Hq) as [Hinv' Hres].
    apply IH; [done|]. rewrite Hres, length_app. cbn [length]. lia.
Qed.

(** [c] requires [p], both among the courses. *)
Definition depends_on (c p : string) : Prop := c ∈ courses /\ p ∈ inner c.

Hypothesis acyclic : forall c, ~ tc depends_on c c.

Lemma depends_on_finite (c : string) : pred_finite (tc depends_on c).
Proof.
  exists courses. intros p Hp. induction Hp as [x y [_ Hy]|x y z _ _ IH]; [|done].
  by apply elem_of_inner in Hy as [_ ?].
Qed.

Lemma depends_on_sn (c : string) : sn depends_on c.
Proof. apply tc_finite_sn; [exact acyclic | apply depends_on_finite]. Qed.

Lemma kahn_final :
  let st := topological_sort_fuel (length courses) courses prerequisite_graph in
  kahn_inv st /\ queue st = [].
Proof.
  apply kahn_loop_inv; [apply kahn_init_inv|].
  destruct kahn_init_state as (_ & _ & _ & ->). cbn [length]. lia.
Qed.

Lemma topological_sort_complete (c : string) :
  c ∈ courses -> c ∈ topological_sort courses prerequisite_graph.
Proof.
  unfold topological_sort. destruct kahn_final as [Hinv Hq]. cbn zeta in Hinv, Hq.
  intros Hc. induction (depends_on_sn c) as [c _ IH].
  assert (Hready := inv_ready _ Hinv c Hc). rewrite Hq, app_nil_r in Hready.
  apply Hready, pending_nil. intros p Hp.
  apply IH; [by split|]. by apply elem_of_inner in Hp as [_ ?].
Qed.

Lemma topological_sort_sound (c : string) :
  c ∈ topological_sort courses prerequisite_graph -> c ∈ courses.
Proof.
  unfold topological_sort. destruct kahn_final as [Hinv Hq]. cbn zeta in Hinv, Hq.
  intros Hc. apply (inv_sub _ Hinv). apply elem_of_app. by left.
Qed.

Lemma topological_sort_NoDup : NoDup (topological_sort courses prerequisite_graph).
Proof.
  unfold topological_sort. destruct kahn_final as [Hinv Hq]. cbn zeta in Hinv, Hq.
  assert (Hnd := inv_nodup _ Hinv). by rewrite Hq, app_nil_r in Hnd.
Qed.

Lemma topological_sort_permutation :
  topological_sort courses prerequisite_graph ≡ₚ courses.
Proof.
  apply NoDup_Permutation; [apply topological_sort_NoDup | done |].
  intros c. split; [apply topological_sort_sound | apply topological_sort_complete].
Qed.

End kahn.

Lemma topological_sort_order (courses : list string)
    (prerequisite_graph : PyDict.t (list string)) (p c : string) :
  NoDup courses ->
  (forall c, c ∈ courses -> NoDup (pg_get prerequisite_graph c)) ->
  (forall c, ~ tc (depends_on courses prerequisite_graph) c c) ->
  c ∈ courses -> p ∈ courses -> p ∈ pg_get prerequisite_graph c ->
  precedes p c (topological_sort courses prerequisite_graph).
Proof.
  intros Hnd Hpnd Hacyc Hc Hp Hpc.
  assert (Hin := topological_sort_complete courses prerequisite_graph Hnd Hpnd Hacyc c Hc).
  revert Hin. unfold topological_sort.
  destruct (kahn_final courses prerequisite_graph Hnd Hpnd) as [Hinv Hq].
  cbn zeta in Hinv, Hq. intros Hin.
  apply list_elem_of_lookup in Hin as [i Hi].
  assert (Hbefore := inv_order _ _ _ Hinv i c Hi p).
  destruct (list_elem_of_split _ _ (Hbefore ltac:(by apply elem_of_inner)))
    as (l1 & l2 & Htake).
  exists l1, l2, (drop (S i) (result (topological_sort_fuel (length courses) courses
                                        prerequisite_graph))).
  rewrite <- (take_drop_middle _ i c Hi) at 1. rewrite Htake. by rewrite <- app_assoc.
Qed.

(** *** The plan built from the graph *)

Lemma collect_all_courses_get (g : graph) (target_courses : list string) (c : string) :
  PyDict.get c (fst (collect_all_courses g target_courses))
  = (if mem_str c target_courses then node_of_details <$> course_query g c else None)
  /\ PyDict.get c (snd (collect_all_courses g target_courses))
     = (if mem_str c target_courses then cd_prerequisites <$> course_query g c else None).
Proof.
  unfold collect_all_courses.
  set (F := fun course_code acc => match course_query g course_code with
                                   | Some r => _ | None => acc end).
  assert (H : forall cs (acc : PyDict.t CourseNode * PyDict.t (list string)),
             PyDict.get c (fst (for_each cs F acc))
             = match (if mem_str c cs then node_of_details <$> course_query g c else None)
               with Some n => Some n | None => PyDict.get c (fst acc) end
             /\ PyDict.get c (snd (for_each cs F acc))
                = match (if mem_str c cs then cd_prerequisites <$> course_query g c
                         else None)
                  with Some l => Some l | None => PyDict.get c (snd acc) end).
  { induction cs as [|c0 cs IH]; intros acc; [done|].
    rewrite for_each_cons. destruct (IH (F c0 acc)) as [IH1 IH2].
    rewrite IH1, IH2. cbn [mem_str existsb].
    fold (mem_str c cs). destruct (String.eqb_spec c c0) as [->|Hne]; cbn [orb].
    - unfold F. destruct (course_query g c0) as [r|] eqn:Hr; cbn [fmap option_fmap option_map].
      + destruct (mem_str c0 cs); cbn [fst snd]; [done|].
        rewrite !dict_get_set_eq. split; reflexivity.
      + destruct (mem_str c0 cs); cbv beta iota; done.
    - assert (Hacc : PyDict.get c (fst (F c0 acc)) = PyDict.get c (fst acc)
                     /\ PyDict.get c (snd (F c0 acc)) = PyDict.get c (snd acc)).
      { unfold F. cbv beta. destruct (course_query g c0); [|done]. cbn [fst snd].
        by rewrite !dict_get_set_ne. }
      destruct Hacc as [-> ->]. done. }
  destruct (H target_courses ([], [])) as [H1 H2]. rewrite H1, H2. cbn [fst snd PyDict.get].
  destruct (mem_str c target_courses), (course_query g c); done.
Qed.

Lemma collected_prerequisites (g : graph) (target_courses : list string) (c : string) :
  c ∈ target_courses -> is_Some (course_node g c) ->
  pg_get (snd (collect_all_courses g target_courses)) c = prerequisites_of g c.
Proof.
  intros Hc [n Hn]. unfold pg_get.
  rewrite (proj2 (collect_all_courses_get g target_courses c)).
  apply mem_str_elem in Hc. rewrite Hc. unfold course_query. by rewrite Hn.
Qed.

Lemma collected_course (g : graph) (target_courses : list string) (c : string) :
  c ∈ target_courses -> is_Some (course_node g c) ->
  PyDict.mem c (fst (collect_all_courses g target_courses)) = true.
Proof.
  intros Hc [n Hn]. unfold PyDict.mem.
  rewrite (proj1 (collect_all_courses_get g target_courses c)).
  apply mem_str_elem in Hc. rewrite Hc. unfold course_query. by rewrite Hn.
Qed.

(** The semesters, read in order, are the courses of the sequence that were
    found. *)
Lemma pack_semesters_concat (all_courses : PyDict.t CourseNode) (max_credits : Z)
    (sequence : list string) (semesters : list (list string)) :
  pack_semesters all_courses max_credits sequence = Some semesters ->
  concat semesters = List.filter (fun c => PyDict.mem c all_courses) sequence.
Proof.
  unfold pack_semesters.
  assert (H : forall seq ss cur cr ss' cur' cr',
             for_each seq (pack_course all_courses max_credits) (Some (ss, cur, cr))
             = Some (ss', cur', cr') ->
             concat ss' ++ cur'
             = concat ss ++ cur ++ List.filter (fun c => PyDict.mem c all_courses) seq).
  { induction seq as [|c seq IH]; intros ss cur cr ss' cur' cr' Hrun.
    - cbn in Hrun. injection Hrun as <- <- <-. cbn. by rewrite app_nil_r.
    - rewrite for_each_cons in Hrun. unfold pack_course at 2 in Hrun.
      cbn [mbind option_bind] in Hrun. cbn [List.filter]. unfold PyDict.mem at 1.
      destruct (PyDict.get c all_courses) as [course|]; [|by apply IH in Hrun].
      destruct (as_int (cn_credits course)) as [credits|]; cbn [mbind option_bind] in Hrun.
      + destruct (_ && _).
        * apply IH in Hrun. rewrite Hrun, concat_app. cbn. by rewrite app_nil_r, <- !app_assoc.
        * apply IH in Hrun. rewrite Hrun. by rewrite <- !app_assoc.
      + exfalso. clear -Hrun. induction seq as [|c' seq IH']; [discriminate|].
        rewrite for_each_cons in Hrun. by apply IH'. }
  destruct (for_each sequence _ _) as [[[ss cur] cr]|] eqn:Hrun; [|discriminate].
  cbn [mbind option_bind]. intros Hsem. injection Hsem as <-.
  apply H in Hrun. cbn in Hrun. rewrite <- Hrun.
  destruct cur; [by rewrite app_nil_r|]. rewrite concat_app. cbn. by rewrite app_nil_r.
Qed.

Lemma recommended_sequence_concat (g : graph) (target_courses : list string)
    (max_credits max_semesters : Z) (plan : AcademicPlan) :
  recommend_course_sequence g target_courses max_credits max_semesters = Some plan ->
  concat (recommended_sequence plan)
  = List.filter (fun c => PyDict.mem c (fst (collect_all_courses g target_courses)))
      (topological_sort target_courses (snd (collect_all_courses g target_courses))).
Proof.
  unfold recommend_course_sequence.
  destruct (collect_all_courses g target_courses) as [all_courses pg]. cbn [fst snd].
  destruct (pack_semesters _ _ _) as [semesters|] eqn:Hpack; [|discriminate].
  cbn [mbind option_bind].
  destruct (py_sum (List.map cn_credits (PyDict.values all_courses))) as [total|];
    [|discriminate].
  cbn [mbind option_bind].
  destruct (py_sum (List.map cn_credits (List.filter _ _))) as [upper|]; [|discriminate].
  cbn [mbind option_bind].
  destruct (py_set _) as [disciplines|]; [|discriminate]. cbn [mbind option_bind].
  intros H. injection H as <-. cbn [recommended_sequence].
  by apply pack_semesters_concat in Hpack.
Qed.

(** On a graph whose course nodes the builder wrote, a plan is returned. *)
Lemma pack_semesters_returns (all_courses : PyDict.t CourseNode) (max_credits : Z)
    (sequence : list string) :
  Forall (fun n => exists z, cn_credits n = VInt z) (PyDict.values all_courses) ->
  is_Some (pack_semesters all_courses max_credits sequence).
Proof.
  intros Hall. unfold pack_semesters.
  assert (Hget : forall c n, PyDict.get c all_courses = Some n ->
                             exists z, cn_credits n = VInt z).
  { intros c n. induction all_courses as [|[k v] d IH]; cbn; [discriminate|].
    apply Forall_cons in Hall as [Hv Hd].
    destruct (String.eqb c k); [intros [= <-]; done | by apply IH]. }
  assert (H : forall seq st, is_Some (for_each seq (pack_course all_courses max_credits)
                                        (Some st))).
  { induction seq as [|c seq IH]; intros [[ss cur] cr]; [by eexists|].
    rewrite for_each_cons. unfold pack_course at 2. cbn [mbind option_bind].
    destruct (PyDict.get c all_courses) as [n|] eqn:Hn; [|apply IH].
    destruct (Hget c n Hn) as [z ->]. cbn [as_int mbind option_bind].
    destruct (_ && _); apply IH. }
  destruct (H sequence ([], [], 0)) as [[[ss cur] cr] ->]. by eexists.
Qed.

Lemma collected_courses_builder (g : graph) (target_courses : list string) :
  courses_written_by_builder (nodes g) ->
  Forall (fun n => builder_record (cn_credits n) (cn_level n) (cn_department n))
         (PyDict.values (fst (collect_all_courses g target_courses))).
Proof.
  intros Hg. unfold collect_all_courses.
  apply (for_each_invariant
           (fun acc => Forall (fun n => builder_record (cn_credits n) (cn_level n)
                                          (cn_department n)) (PyDict.values (fst acc)))).
  - intros c acc Hacc. destruct (course_query g c) as [r|] eqn:Hr; [|done].
    cbn [fst]. apply dict_set_Forall; [|done]. cbn. by eapply course_query_builder.
  - constructor.
Qed.

Lemma recommend_on_builder_graph (g : graph) (target_courses : list string)
    (max_credits max_semesters : Z) :
  courses_written_by_builder (nodes g) ->
  is_Some (recommend_course_sequence g target_courses max_credits max_semesters).
Proof.
  intros Hg. unfold recommend_course_sequence.
  pose proof (collected_courses_builder g target_courses Hg) as Hall.
  destruct (collect_all_courses g target_courses) as [all_courses pg]. cbn [fst] in Hall.
  destruct (pack_semesters_returns all_courses max_credits
              (topological_sort target_courses pg)) as [semesters ->].
  { eapply Forall_impl; [exact Hall|]. by intros n [? _]. }
  destruct (builder_aggregates cn_credits cn_level cn_department _ Hall)
    as ((total & Ht) & Hu & Hs).
  cbn [mbind option_bind]. rewrite Ht. cbn [mbind option_bind].
  rewrite Hu. cbn [mbind option_bind]. rewrite Hs. by eexists.
Qed.

Lemma tc_impl {A} (R S : relation A) (x y : A) :
  (forall a b, R a b -> S a b) -> tc R x y -> tc S x y.
Proof.
  intros H. induction 1 as [a b Hab|a b c Hab _ IH].
  - by apply tc_once, H.
  - eapply tc_l; [by apply H | exact IH].
Qed.

Lemma ranked_acyclic {A} (R : relation A) (rank : A -> nat) :
  (forall x y, R x y -> (rank y < rank x)%nat) -> forall x, ~ tc R x x.
Proof.
  intros H x Hx.
  assert (Hlt : forall a b, tc R a b -> (rank b < rank a)%nat).
  { induction 1 as [a b Hab|a b c Hab _ IH]; [by apply H|].
    apply H in Hab. lia. }
  apply Hlt in Hx. lia.
Qed.

Lemma has_node_course (g : graph) (course_code : string) :
  has_node g (Course, course_code) = true -> is_Some (course_node g course_code).
Proof.
  unfold has_node, course_node. intros H. apply bool_decide_eq_true in H.
  by apply elem_of_dom in H.
Qed.

(** X27: the recommended order on a store without repeated prerequisites.
    For distinct target courses that are all in the graph, when the
    prerequisites that the query collects for each of them have no
    repetition (as on every graph that the builder writes, where no
    relationship is held twice) and the prerequisite relation among the
    target courses has no cycle, the order that the topological sort produces
    contains every target course once and places every prerequisite before
    the course that requires it; the semesters of every recommended plan,
    read in order, are this sequence. *)
Theorem recommended_order_respects_prerequisites
    (g : graph) (target_courses : list string) :
  NoDup target_courses ->
  (forall c, c ∈ target_courses -> is_Some (course_node g c)) ->
  (forall c, c ∈ target_courses -> NoDup (prerequisites_of g c)) ->
  (forall c, ~ tc (requires_within g target_courses) c c) ->
  let order :=
    topological_sort target_courses (snd (collect_all_courses g target_courses)) in
  order ≡ₚ target_courses
  /\ (forall p c, c ∈ target_courses -> p ∈ target_courses ->
                  p ∈ prerequisites_of g c -> precedes p c order)
  /\ (forall max_credits max_semesters plan,
        recommend_course_sequence g target_courses max_credits max_semesters = Some plan ->
        concat (recommended_sequence plan) = order).
Proof.
  intros Hnd Hpresent Hsimple Hacyclic order.
  set (pg := snd (collect_all_courses g target_courses)) in *.
  assert (Hpg : forall c, c ∈ target_courses -> pg_get pg c = prerequisites_of g c).
  { intros c Hc. apply collected_prerequisites; [done | by apply Hpresent]. }
  assert (Hdistinct : forall c, c ∈ target_courses -> NoDup (pg_get pg c)).
  { intros c Hc. rewrite Hpg by done. by apply Hsimple. }
  assert (Hacyc : forall c, ~ tc (depends_on target_courses pg) c c).
  { intros c Hc. apply (Hacyclic c). eapply tc_impl; [|exact Hc].
    intros a b [Ha Hb]. apply elem_of_inner in Hb as [Hb Hb'].
    rewrite Hpg in Hb by done. by repeat split. }
  assert (Hperm : order ≡ₚ target_courses)
    by by apply topological_sort_permutation.
  split; [exact Hperm|]. split.
  - intros p c Hc Hp Hpc. apply topological_sort_order; try done.
    by rewrite Hpg.
  - intros max_credits max_semesters plan Hplan.
    rewrite (recommended_sequence_concat _ _ _ _ _ Hplan).
    apply filter_all. intros c Hc.
    assert (Hc' : c ∈ target_courses) by by rewrite <- Hperm.
    apply collected_course; [done | by apply Hpresent].
Qed.

Lemma recommended_order_respects_prerequisites_witness :
  let order := topological_sort cs_targets (snd (collect_all_courses cs_graph cs_targets)) in
  order = ["CS 1400"; "CS 1410"; "CS 2420"]
  /\ precedes "CS 1400" "CS 1410" order
  /\ precedes "CS 1410" "CS 2420" order
  /\ (fun plan => concat (recommended_sequence plan))
       <$> recommend_course_sequence cs_graph cs_targets 15 8
     = Some order.
Proof.
  assert (Hcases : forall c, c ∈ cs_targets -> c = "CS 2420" \/ c = "CS 1410" \/ c = "CS 1400").
  { intros c Hc. unfold cs_targets in Hc.
    rewrite !elem_of_cons, elem_of_nil in Hc. tauto. }
  destruct cs_graph_prerequisites as (H2420 & H1410 & H1400).
  destruct (recommended_order_respects_prerequisites cs_graph cs_targets)
    as (_ & Hbefore & Hplan).
  - apply NoDup_ListNoDup. repeat constructor; cbn; intuition discriminate.
  - intros c Hc. destruct (Hcases c Hc) as [-> | [-> | ->]];
      apply has_node_course; vm_compute; reflexivity.
  - intros c Hc. apply NoDup_ListNoDup.
    destruct (Hcases c Hc) as [-> | [-> | ->]]; rewrite ?H2420, ?H1410, ?H1400;
      repeat constructor; cbn; intuition discriminate.
  - apply (ranked_acyclic _ course_number_rank). intros c p (Hc & _ & Hp).
    destruct (Hcases c Hc) as [-> | [-> | ->]];
      rewrite ?H2420, ?H1410, ?H1400, ?elem_of_cons, ?elem_of_nil in Hp;
      [destruct Hp as [-> | []] | destruct Hp as [-> | []] | destruct Hp];
      apply Nat.ltb_lt; vm_compute; reflexivity.
  - cbn zeta. split; [vm_compute; reflexivity|]. split; [|split].
    + apply Hbefore; rewrite ?H1410; unfold cs_targets; rewrite ?elem_of_cons; tauto.
    + apply Hbefore; rewrite ?H2420; unfold cs_targets; rewrite ?elem_of_cons; tauto.
    + destruct (recommend_course_sequence cs_graph cs_targets 15 8) as [plan|] eqn:Hrec;
        [|vm_compute in Hrec; discriminate].
      cbn [fmap option_fmap option_map]. f_equal. by eapply Hplan.
Defined.


(** ** Degree progress *)


(** The record that [analyze_degree_progress] returns, in terms of the five
    aggregates it computes. *)
Lemma analyze_degree_progress_fields (g : graph) (completed target : list string)
    (r : degree_progress) :
  analyze_degree_progress g completed target = Some r ->
  totals_credits r = completed_credits r + remaining_credits r
  /\ totals_upper_division_credits r
     = completed_upper_division_credits r + remaining_upper_division_credits r
  /\ remaining_course_list r
     = List.filter (fun code => negb (mem_str code completed)) target
  /\ py_sum (List.map pi_credits (found_infos g (remaining_course_list r)))
     = Some (remaining_credits r)
  /\ py_sum (List.map pi_credits
               (List.filter (fun i => is_upper_division (pi_level i))
                  (found_infos g (remaining_course_list r))))
     = Some (remaining_upper_division_credits r)
  /\ ready_to_graduate r
     = (120 <=? totals_credits r) && (40 <=? totals_upper_division_credits r)
       && (3 <=? completed_discipline_count r)
  /\ remaining (req_total_credits r) = Z.max 0 (120 - totals_credits r)
  /\ percentage r = completion_percentage (totals_credits r).
Proof.
  unfold analyze_degree_progress. intros H.
  destruct (py_sum (List.map pi_credits (found_infos g completed))) as [cc|];
    [|discriminate].
  cbn [mbind option_bind] in H.
  destruct (py_sum (List.map pi_credits (List.filter _ (found_infos g completed))))
    as [cu|]; [|discriminate].
  cbn [mbind option_bind] in H.
  destruct (py_set _) as [cd|]; [|discriminate].
  cbn [mbind option_bind] in H.
  destruct (py_sum (List.map pi_credits (found_infos g _))) as [rc|] eqn:Hrc;
    [|discriminate].
  cbn [mbind option_bind] in H.
  destruct (py_sum (List.map pi_credits (List.filter _ (found_infos g _))))
    as [ru|] eqn:Hru; [|discriminate].
  cbn [mbind option_bind] in H.
  injection H as <-. cbn. repeat split; done.
Qed.













(** One credit short: 119 completed credits, 45 of them upper-division, in
    four disciplines, are not enough, and one credit remains. *)
Lemma one_credit_short_not_ready :
  (fun r => (completed_credits r, completed_upper_division_credits r,
             completed_discipline_count r, ready_to_graduate r,
             remaining (req_total_credits r)))
    <$> analyze_degree_progress short_transcript_graph transcript []
  = Some (119, 45, 4, false, 1).
Proof. vm_compute. reflexivity. Qed.

Lemma analyze_on_builder_graph (g : graph) (completed target : list string) :
  courses_written_by_builder (nodes g) ->
  exists r, analyze_degree_progress g completed target = Some r
            /\ completed_upper_division_credits r = 0
            /\ remaining_upper_division_credits r = 0
            /\ totals_upper_division_credits r = 0
            /\ ready_to_graduate r = false.
Proof.
  intros Hg. unfold analyze_degree_progress.
  destruct (builder_aggregates pi_credits pi_level pi_department _
              (found_infos_builder g completed Hg))
    as ((total & Ht) & Hu & Hs).
  destruct (builder_aggregates pi_credits pi_level pi_department _
              (found_infos_builder g
                 (List.filter (fun code => negb (mem_str code completed)) target) Hg))
    as ((total' & Ht') & Hu' & _).
  rewrite Ht, Hu, Hs, Ht', Hu'. cbn. eexists. split; [reflexivity|]. cbn.
  repeat split. by rewrite andb_false_r.
Qed.

(** ** The spelling of the upper-division level *)

(** C10: every course that the extractor produces has the level
    [lower_division] or [upper_division], spelled with an underscore, while the
    planner counts a course as upper-division only when its level is the
    string [upper-division]; so on the graph built from extracted courses, the
    upper-division credits reported by sequence validation and by degree
    progress analysis are 0 for every list of courses. *)
Theorem upper_division_credits_always_zero
    (pages : list (string * string)) (extracted_programs : PyDict.t ProgramInfo)
    (extracted_departments : PyDict.t DepartmentInfo) (now : Z) :
  let E := {| courses := extract_all_courses pages;
              programs := extracted_programs;
              departments := extracted_departments |} in
  let g := build_graph E now empty_graph in
  Forall (fun c => c_level c = "lower_division" \/ c_level c = "upper_division")
         (PyDict.values (courses E))
  /\ (forall v : field, is_upper_division v = true <-> v = Some (VStr "upper-division"))
  /\ (forall course_codes,
        exists r, validate_course_sequence g course_codes = Some r
                  /\ st_upper_division_credits (statistics r) = 0)
  /\ (forall completed target,
        exists r, analyze_degree_progress g completed target = Some r
                  /\ completed_upper_division_credits r = 0
                  /\ remaining_upper_division_credits r = 0
                  /\ totals_upper_division_credits r = 0
                  /\ ready_to_graduate r = false).
Proof.
  intros E g.
  assert (HE : Forall (fun c => extractor_level (c_level c)) (PyDict.values (courses E)))
    by apply all_extracted_courses_level.
  assert (Hg : courses_written_by_builder (nodes g)) by by apply built_graph_courses.
  split; [exact HE|]. split.
  { intros v. unfold is_upper_division. by rewrite bool_decide_eq_true. }
  split.
  - intros codes. by apply validate_on_builder_graph.
  - intros completed target. by apply analyze_on_builder_graph.
Qed.

(** * Further properties *)

(** ** What a build leaves in place *)

Lemma merge_set_lookup_ne (i j : node_id) (sets : list (string * value))
    (m : gmap node_id (gmap string value)) :
  i <> j -> merge_set i sets m !! j = m !! j.
Proof. intros Hne. unfold merge_set. by rewrite lookup_insert_ne. Qed.

Lemma merge_set_lookup_eq (i : node_id) (sets : list (string * value))
    (m : gmap node_id (gmap string value)) :
  merge_set i sets m !! i
  = Some (set_props sets (default {[key_prop (fst i) := VStr (snd i)]} (m !! i))).
Proof. unfold merge_set. by rewrite lookup_insert_eq. Qed.

Lemma apply_writes_cons (w : write) (W : list write)
    (m : gmap node_id (gmap string value)) :
  apply_writes (w :: W) m = apply_writes W (merge_set (fst w) (snd w) m).
Proof. reflexivity. Qed.

Lemma apply_writes_untouched (W : list write) (m : gmap node_id (gmap string value))
    (i : node_id) :
  i ∉ List.map fst W -> apply_writes W m !! i = m !! i.
Proof.
  revert m. induction W as [|w W IH]; intros m Hi; [done|].
  rewrite apply_writes_cons. cbn [List.map] in Hi.
  apply not_elem_of_cons in Hi as [Hne Hi].
  rewrite (IH _ Hi). by apply merge_set_lookup_ne.
Qed.

Lemma merge_set_prop_kept (w : write) (m : gmap node_id (gmap string value))
    (i : node_id) (p : string) :
  conforms w -> p ∉ schema (fst i) -> is_Some (m !! i) ->
  prop_at (merge_set (fst w) (snd w) m) i p = prop_at m i p.
Proof.
  intros Hw Hp [n Hn]. unfold prop_at.
  destruct (decide (fst w = i)) as [<-|Hne].
  - rewrite merge_set_lookup_eq, Hn. cbn [default mbind option_bind].
    apply set_props_other. unfold conforms in Hw. by rewrite <- Hw in Hp.
  - by rewrite merge_set_lookup_ne.
Qed.

Lemma merge_set_is_Some (i j : node_id) (sets : list (string * value))
    (m : gmap node_id (gmap string value)) :
  is_Some (m !! j) -> is_Some (merge_set i sets m !! j).
Proof.
  intros H. destruct (decide (i = j)) as [->|Hne].
  - rewrite merge_set_lookup_eq. eauto.
  - by rewrite merge_set_lookup_ne.
Qed.

Lemma apply_writes_prop_kept (W : list write) (m : gmap node_id (gmap string value))
    (i : node_id) (p : string) :
  Forall conforms W -> p ∉ schema (fst i) -> is_Some (m !! i) ->
  prop_at (apply_writes W m) i p = prop_at m i p.
Proof.
  intros HW Hp. revert m. induction HW as [|w W Hw _ IH]; intros m Hi; [done|].
  rewrite apply_writes_cons, IH; [|by apply merge_set_is_Some].
  by apply merge_set_prop_kept.
Qed.

Lemma merge_edge_extends (es : list edge) (e : edge) :
  exists added, merge_edge es e = es ++ added.
Proof.
  unfold merge_edge. destruct (decide (e ∈ es)).
  - exists []. by rewrite app_nil_r.
  - by exists [e].
Qed.

Lemma merge_edges_extends (L es : list edge) :
  exists added, merge_edges es L = es ++ added.
Proof.
  revert es. induction L as [|e L IH]; intros es.
  - exists []. cbn. by rewrite app_nil_r.
  - cbn [merge_edges fold_left]. fold (merge_edges (merge_edge es e) L).
    destruct (merge_edge_extends es e) as [a1 ->].
    destruct (IH (es ++ a1)) as [a2 ->].
    exists (a1 ++ a2). by rewrite app_assoc.
Qed.

Lemma build_graph_nodes (E : academic_data) (now : Z) (g : graph) :
  nodes (build_graph E now g) = apply_writes (populate_writes E now) (nodes g).
Proof.
  unfold build_graph. by rewrite create_relationships_merger, populate_neo4j_writes.
Qed.

Lemma build_graph_edges (E : academic_data) (now : Z) (g : graph) :
  edges (build_graph E now g)
  = merge_edges (edges g)
      (relationship_candidates E (dom (nodes (build_graph E now g)))).
Proof.
  rewrite build_graph_nodes. unfold build_graph.
  by rewrite create_relationships_merger, populate_neo4j_writes.
Qed.

(** X1: a build removes nothing.  Every node of the graph is still there,
    the relationships of the graph are still there, in their order, before
    the new ones, a node that the entity collection does not name is
    unchanged, and on every node the properties that the build does not set
    for its label keep their values. *)
Theorem build_removes_nothing (E : academic_data) (now : Z) (g : graph) :
  let g' := build_graph E now g in
  dom (nodes g) ⊆ dom (nodes g')
  /\ (exists added, edges g' = edges g ++ added)
  /\ (forall i, i ∉ List.map fst (populate_writes E now) ->
                nodes g' !! i = nodes g !! i)
  /\ (forall i p, is_Some (nodes g !! i) -> p ∉ schema (fst i) ->
                  prop_at (nodes g') i p = prop_at (nodes g) i p).
Proof.
  cbv zeta. split; [|split; [|split]].
  - rewrite build_graph_nodes, dom_apply_writes. apply union_subseteq_r.
  - rewrite build_graph_edges. apply merge_edges_extends.
  - intros i Hi. rewrite build_graph_nodes. by apply apply_writes_untouched.
  - intros i p Hi Hp. rewrite build_graph_nodes.
    apply apply_writes_prop_kept; [apply populate_writes_conform|done..].
Qed.

(** ** Relationships join nodes of the right kind *)

Lemma merge_edges_origin (L es : list edge) (x : edge) :
  x ∈ merge_edges es L -> x ∈ es \/ x ∈ L.
Proof.
  revert es. induction L as [|e L IH]; intros es Hx; [by left|].
  cbn [merge_edges fold_left] in Hx. fold (merge_edges (merge_edge es e) L) in Hx.
  apply IH in Hx as [Hx|Hx]; [|right; by apply elem_of_cons; right].
  unfold merge_edge in Hx. destruct (decide (e ∈ es)); [by left|].
  apply elem_of_app in Hx as [Hx|Hx]; [by left|].
  apply list_elem_of_singleton in Hx as ->. right. by apply elem_of_cons; left.
Qed.

Lemma guarded_sound (D : gset node_id) (a b : node_id) (L : list edge) (e : edge) :
  e ∈ guarded D a b L -> a ∈ D /\ b ∈ D /\ e ∈ L.
Proof.
  unfold guarded.
  destruct (bool_decide (a ∈ D)) eqn:Ha; destruct (bool_decide (b ∈ D)) eqn:Hb;
    cbn [andb]; try (intros H; by inversion H).
  apply bool_decide_eq_true in Ha, Hb. done.
Qed.

Lemma ids_with_label_elem (l : label) (D : gset node_id) (i : node_id) :
  i ∈ ids_with_label l D <-> i ∈ D /\ fst i = l.
Proof.
  unfold ids_with_label. rewrite list_elem_of_In, filter_In, <- list_elem_of_In.
  rewrite elem_of_elements, bool_decide_eq_true. done.
Qed.

Lemma relationship_candidates_sound (E : academic_data) (D : gset node_id) (e : edge) :
  e ∈ relationship_candidates E D -> sound_edge D e.
Proof.
  unfold relationship_candidates. rewrite !elem_of_app.
  rewrite !list_elem_of_In, !in_flat_map.
  intros [(c & _ & H)|[(c & _ & H)|[(p & _ & H)|H]]].
  - apply list_elem_of_In, guarded_sound in H as (Ha & Hb & H).
    apply elem_of_cons in H as [->|H]; [by repeat split|].
    apply list_elem_of_singleton in H as ->. by repeat split.
  - unfold prerequisite_edges in H. apply in_flat_map in H as (q & _ & H).
    apply list_elem_of_In, guarded_sound in H as (Ha & Hb & H).
    apply list_elem_of_singleton in H as ->. by repeat split.
  - unfold program_department_edges in H.
    destruct (truthy (p_department p) && truthy _); [|by inversion H].
    apply list_elem_of_In, guarded_sound in H as (Ha & Hb & H).
    apply elem_of_cons in H as [->|H]; [by repeat split|].
    apply list_elem_of_singleton in H as ->. by repeat split.
  - apply list_elem_of_In in H. unfold university_department_pairs in H.
    apply list_elem_of_bind in H as (u & H & Hu).
    apply list_elem_of_bind in H as (d & H & Hd).
    apply list_elem_of_singleton in H as ->.
    apply ids_with_label_elem in Hu as [Hu Hul], Hd as [Hd Hdl].
    repeat split; [done..|]. cbn. by rewrite Hul, Hdl.
Qed.

(** X2: a build keeps the graph well formed.  If, before the build, every
    node carries its key, no relationship occurs twice, and every
    relationship joins two nodes of the graph that have the labels of its
    type, then the same holds after the build; in particular it holds for a
    graph built from the empty one. *)
Theorem build_keeps_graph_well_formed (E : academic_data) (now : Z) (g : graph) :
  keyed (nodes g) -> NoDup (edges g) ->
  Forall (sound_edge (dom (nodes g))) (edges g) ->
  let g' := build_graph E now g in
  keyed (nodes g') /\ NoDup (edges g')
  /\ Forall (sound_edge (dom (nodes g'))) (edges g').
Proof.
  intros Hk Hnd Hs. cbv zeta.
  destruct (build_graph_well_formed E now g Hk Hnd) as [Hk' Hnd'].
  split; [done|]. split; [done|].
  apply Forall_forall. intros e He. rewrite build_graph_edges in He.
  apply merge_edges_origin in He as [He|He].
  - rewrite Forall_forall in Hs. destruct (Hs e He) as (Ha & Hb & Hl).
    assert (Hsub : dom (nodes g) ⊆ dom (nodes (build_graph E now g))).
    { rewrite build_graph_nodes, dom_apply_writes. apply union_subseteq_r. }
    split; [by apply Hsub|]. split; [by apply Hsub|done].
  - by apply relationship_candidates_sound in He.
Qed.

Lemma build_keeps_graph_well_formed_witness :
  let g' := build_graph cs_catalog 0 empty_graph in
  keyed (nodes g') /\ NoDup (edges g')
  /\ Forall (sound_edge (dom (nodes g'))) (edges g').
Proof.
  apply (build_keeps_graph_well_formed cs_catalog 0 empty_graph).
  - apply empty_graph_well_formed.
  - apply empty_graph_well_formed.
  - constructor.
Defined.

(** ** From the builder to the planner *)

Lemma merge_edges_from_nil (L : list edge) (x : edge) :
  x ∈ merge_edges [] L <-> x ∈ L.
Proof.
  split.
  - intros H. apply merge_edges_origin in H as [H|H]; [by inversion H|done].
  - apply merge_edges_elem.
Qed.

Lemma built_nodes_dom (E : academic_data) (now : Z) (i : node_id) :
  i ∈ dom (nodes (build_graph E now empty_graph))
  <-> i ∈ List.map fst (populate_writes E now).
Proof.
  rewrite build_graph_nodes, dom_apply_writes. cbn [nodes empty_graph].
  rewrite dom_empty_L, (right_id_L ∅ (∪)). apply elem_of_list_to_set.
Qed.

Lemma built_course_node (E : academic_data) (now : Z) (code : string) :
  (Course, code) ∈ dom (nodes (build_graph E now empty_graph))
  <-> code ∈ catalog_codes E.
Proof.
  rewrite built_nodes_dom. unfold populate_writes, catalog_codes, catalog_courses.
  rewrite !List.map_app, !List.map_map, !elem_of_app.
  rewrite !list_elem_of_In, !in_map_iff. split.
  - intros [H|[H|[H|H]]]; destruct H as [x [H Hx]]; try discriminate.
    + destruct Hx as [<-|[]]. discriminate.
    + exists x. split; [|done]. by injection H.
  - intros [x [H Hx]]. right. right. left. exists x. by rewrite <- H.
Qed.

Lemma prerequisite_edge_candidate (E : academic_data) (D : gset node_id)
    (p c : string) :
  ((Course, p), PREREQUISITE_FOR, (Course, c)) ∈ relationship_candidates E D
  <-> (exists ci, ci ∈ catalog_courses E /\ c_code ci = c /\ p ∈ c_prerequisites ci)
      /\ (Course, p) ∈ D /\ (Course, c) ∈ D.
Proof.
  unfold relationship_candidates. rewrite !elem_of_app. split.
  - intros [H|[H|[H|H]]].
    + apply list_elem_of_In, in_flat_map in H as (ci & _ & H).
      apply list_elem_of_In, guarded_sound in H as (_ & _ & H).
      apply elem_of_cons in H as [H|H]; [discriminate|].
      apply list_elem_of_singleton in H. discriminate.
    + apply list_elem_of_In, in_flat_map in H as (ci & Hci & H).
      unfold prerequisite_edges in H. apply in_flat_map in H as (q & Hq & H).
      apply list_elem_of_In, guarded_sound in H as (Ha & Hb & H).
      apply list_elem_of_singleton in H. injection H as Hp Hc. subst p c.
      split; [|done]. exists ci. by rewrite !list_elem_of_In.
    + apply list_elem_of_In, in_flat_map in H as (pi & _ & H).
      unfold program_department_edges in H.
      destruct (truthy (p_department pi) && truthy _); [|by inversion H].
      apply list_elem_of_In, guarded_sound in H as (_ & _ & H).
      apply elem_of_cons in H as [H|H]; [discriminate|].
      apply list_elem_of_singleton in H. discriminate.
    + unfold university_department_pairs in H.
      apply list_elem_of_bind in H as (u & H & Hu).
      apply list_elem_of_bind in H as (d & H & Hd).
      apply list_elem_of_singleton in H. discriminate.
  - intros ((ci & Hci & <- & Hp) & Ha & Hb). right. left.
    apply list_elem_of_In, in_flat_map. exists ci.
    split; [by apply list_elem_of_In|].
    unfold prerequisite_edges. apply in_flat_map. exists p.
    split; [by apply list_elem_of_In|].
    unfold guarded. rewrite !bool_decide_eq_true_2 by done. by left.
Qed.

Lemma prerequisites_of_keyed (g : graph) (course_code p : string) :
  keyed (nodes g) ->
  p ∈ prerequisites_of g course_code
  <-> p <> "" /\ (Course, p) ∈ dom (nodes g)
      /\ ((Course, p), PREREQUISITE_FOR, (Course, course_code)) ∈ edges g.
Proof.
  intros Hk. unfold prerequisites_of. rewrite list_elem_of_bind. split.
  - intros (e & Hp & He).
    pose proof (prereq_code_of_elem g course_code p e Hk Hp) as ->.
    split; [|split; [|done]].
    + intros ->. unfold prereq_code_of in Hp. rewrite String.eqb_refl in Hp.
      destruct (nodes g !! (Course, "")) as [n|] eqn:Hn; [|by inversion Hp].
      pose proof (Hk Course "" n Hn) as Hcode. cbn [key_prop] in Hcode.
      rewrite Hcode in Hp. cbn in Hp. by inversion Hp.
    + unfold prereq_code_of in Hp. rewrite String.eqb_refl in Hp.
      apply elem_of_dom. destruct (nodes g !! (Course, p)); [eauto|by inversion Hp].
  - intros (Hne & Hd & He). eexists; split; [|exact He].
    unfold prereq_code_of. rewrite String.eqb_refl.
    apply elem_of_dom in Hd as [n Hn]. rewrite Hn.
    pose proof (Hk Course p n Hn) as Hcode. cbn [key_prop] in Hcode. rewrite Hcode.
    destruct p; [done|]. cbn. by apply list_elem_of_singleton.
Qed.

(** X3: the prerequisites written by the builder are the ones the planner
    reads.  On a graph built from the empty one, [p] is a direct
    prerequisite of [c] for the planner exactly when some course of the
    collection with code [c] lists [p] among its prerequisites, [p] is itself
    the code of a course of the collection, and [p] is not empty.  A listed
    prerequisite that is not a course of the collection is dropped. *)
Theorem built_prerequisites_read_back (E : academic_data) (now : Z) (p c : string) :
  p ∈ prerequisites_of (build_graph E now empty_graph) c
  <-> p <> ""
      /\ p ∈ catalog_codes E
      /\ exists ci, ci ∈ catalog_courses E /\ c_code ci = c /\ p ∈ c_prerequisites ci.
Proof.
  destruct (build_graph_well_formed E now empty_graph) as [Hk _];
    [apply empty_graph_well_formed..|].
  rewrite (prerequisites_of_keyed _ _ _ Hk), build_graph_edges.
  cbn [edges empty_graph]. rewrite merge_edges_from_nil, prerequisite_edge_candidate.
  rewrite !built_course_node. split.
  - intros (Hne & Hp & Hci & _ & _). done.
  - intros (Hne & Hp & ci & Hci & Hc & Hpi). split; [done|]. split; [done|].
    split; [by exists ci|]. split; [done|]. rewrite <- Hc.
    unfold catalog_codes. rewrite list_elem_of_In. apply in_map.
    by apply list_elem_of_In.
Qed.

Lemma course_write_lookup (now : Z) (c : CourseInfo) (n0 : gmap string value) :
  let n := set_props (snd (course_write now c)) n0 in
  n !! "title" = Some (VStr (c_title c))
  /\ n !! "credits" = Some (VInt (c_credits c))
  /\ n !! "level" = Some (VStr (c_level c))
  /\ n !! "code" = n0 !! "code"
  /\ n !! "department" = n0 !! "department".
Proof.
  cbv zeta. unfold set_props. cbn [course_write fold_left fst snd].
  repeat split; repeat (rewrite lookup_insert_ne by done); by rewrite ?lookup_insert_eq.
Qed.

Lemma built_course_node_content (E : academic_data) (now : Z)
    (before after : list CourseInfo) (c : CourseInfo) :
  catalog_courses E = before ++ c :: after ->
  c_code c ∉ List.map c_code after ->
  exists n0, course_node (build_graph E now empty_graph) (c_code c)
             = Some (set_props (snd (course_write now c)) n0).
Proof.
  intros HE Hlast. unfold course_node. rewrite build_graph_nodes. unfold populate_writes.
  unfold catalog_courses in HE. rewrite HE, List.map_app. cbn [List.map].
  rewrite !apply_writes_app, apply_writes_cons.
  rewrite !apply_writes_untouched.
  - change (Course, c_code c) with (fst (course_write now c)).
    rewrite merge_set_lookup_eq. eauto.
  - rewrite List.map_map, list_elem_of_In, in_map_iff.
    intros (x & Hx & Hin). apply Hlast. rewrite list_elem_of_In, in_map_iff.
    exists x. split; [by injection Hx|done].
  - rewrite List.map_map, list_elem_of_In, in_map_iff.
    intros (x & Hx & _). discriminate.
Qed.

Lemma built_graph_plain_courses (E : academic_data) (now : Z) :
  plain_course_nodes (nodes (build_graph E now empty_graph)).
Proof.
  rewrite build_graph_nodes. cbn [nodes empty_graph].
  assert (Hgen : forall (W : list write) (m : gmap node_id (gmap string value)),
             Forall (fun w => fst (fst w) <> Course \/ exists c, w = course_write now c) W ->
             plain_course_nodes m -> plain_course_nodes (apply_writes W m)).
  { intros W. induction W as [|w W IH]; intros m HW Hm; [done|].
    apply Forall_cons in HW as [Hw HW]. rewrite apply_writes_cons. apply IH; [done|].
    intros code n Hn. destruct (decide (fst w = (Course, code))) as [Heq|Hne].
    - destruct Hw as [Hw|[c ->]]; [destruct w as [[l k] sets]; cbn in *; congruence|].
      injection Heq as <-.
      change (Course, c_code c) with (fst (course_write now c)) in Hn.
      rewrite merge_set_lookup_eq in Hn. injection Hn as <-.
      split; [exists (c_credits c); repeat (rewrite lookup_insert_ne by done);
              by rewrite lookup_insert_eq|].
      repeat (rewrite lookup_insert_ne by done).
      destruct (m !! _) as [n'|] eqn:Hn'; cbn [default].
      + by apply (Hm _ _ Hn').
      + by rewrite lookup_singleton_ne.
    - rewrite merge_set_lookup_ne in Hn by done. by apply (Hm _ _ Hn). }
  apply Hgen.
  - unfold populate_writes. rewrite !Forall_app. repeat split.
    + apply Forall_cons. split; [by left|constructor].
    + apply List.Forall_map, Forall_forall. intros d _. by left.
    + apply List.Forall_map, Forall_forall. intros c _. right. by exists c.
    + apply List.Forall_map, Forall_forall. intros p _. by left.
  - intros code n Hn. by rewrite lookup_empty in Hn.
Qed.

(** X4: a course written by the builder is read back by the planner.  For
    the last course of the collection with a given code, on the graph built
    from the empty one, the planner's query returns its code, title and
    level; its credits, except that 0 credits are read as 3; no department;
    and the prerequisites that the graph holds for it. *)
Theorem built_course_read_back (E : academic_data) (now : Z)
    (before after : list CourseInfo) (c : CourseInfo) :
  catalog_courses E = before ++ c :: after ->
  c_code c ∉ List.map c_code after ->
  let g := build_graph E now empty_graph in
  course_query g (c_code c) = Some (details_read_back g c).
Proof.
  intros HE Hlast g.
  destruct (built_course_node_content E now before after c HE Hlast) as [n0 Hn].
  destruct (build_graph_well_formed E now empty_graph) as [Hk _];
    [apply empty_graph_well_formed..|].
  pose proof (Hk Course (c_code c) _ Hn) as Hcode. cbn [key_prop] in Hcode.
  destruct (built_graph_plain_courses E now _ _ Hn) as [_ Hdep].
  subst g. unfold course_query. rewrite Hn.
  cbn [mbind option_bind]. rewrite Hcode, Hdep.
  destruct (course_write_lookup now c n0) as (Ht & Hc & Hl & _ & _).
  rewrite Ht, Hc, Hl. unfold details_read_back, or_3. cbn [py_truthy].
  by destruct (c_credits c =? 0).
Qed.

Lemma built_course_read_back_witness :
  (fun r => (cd_title r, cd_credits r, cd_department r, cd_prerequisites r))
    <$> course_query cs_graph "CS 1410"
  = Some (Some (VStr "Object-Oriented Programming"), VInt 3, None, ["CS 1400"]).
Proof.
  pose proof (built_course_read_back cs_catalog 0
                [sample_course "CS" "1400" "Fundamentals of Programming" []]
                [sample_course "CS" "2420" "Data Structures" ["CS 1410"]]
                (sample_course "CS" "1410" "Object-Oriented Programming" ["CS 1400"])
                eq_refl) as H.
  cbv zeta in H. change (build_graph cs_catalog 0 empty_graph) with cs_graph in H.
  change (c_code (sample_course "CS" "1410" "Object-Oriented Programming" ["CS 1400"]))
    with "CS 1410" in H.
  rewrite H; [|by (rewrite list_elem_of_In; vm_compute; intros [|[]])].
  cbn [fmap option_fmap option_map details_read_back cd_title cd_credits cd_department
       cd_prerequisites].
  change (c_code (sample_course "CS" "1410" "Object-Oriented Programming" ["CS 1400"]))
    with "CS 1410".
  by rewrite (proj1 (proj2 cs_graph_prerequisites)).
Defined.

Lemma dedup_fields_none (xs : list field) :
  Forall (fun d => d = None) xs ->
  (length (dedup_fields xs) <= 1)%nat /\ Forall (fun d => d = None) (dedup_fields xs).
Proof.
  destruct 1 as [|x xs -> Hxs]; [by split; [cbn; lia|constructor]|].
  cbn [dedup_fields]. rewrite filter_none.
  - split; [cbn; lia|by repeat constructor].
  - assert (H : forall l : list field, Forall (fun d => d = None) l ->
                                      Forall (fun d => d = None) (dedup_fields l)).
    { induction 1 as [|y l -> _ IH]; [constructor|]. cbn [dedup_fields].
      constructor; [done|]. apply Forall_forall. intros z Hz.
      apply list_elem_of_In, filter_In in Hz as [Hz _].
      rewrite Forall_forall in IH. by apply IH, list_elem_of_In. }
    eapply Forall_impl; [exact (H xs Hxs)|]. intros d ->.
    by apply bool_decide_eq_false_2; intros Hne.
Qed.

Lemma plain_aggregates {R} (credits : R -> value) (level department : R -> field)
    (rs : list R) :
  Forall (fun r => plain_record (credits r) (department r)) rs ->
  (exists total, py_sum (List.map credits rs) = Some total)
  /\ (exists upper,
        py_sum (List.map credits (List.filter (fun r => is_upper_division (level r)) rs))
        = Some upper)
  /\ py_set (List.map department rs) = Some (dedup_fields (List.map department rs))
  /\ (length (dedup_fields (List.map department rs)) <= 1)%nat
  /\ Forall (fun d => d = None) (dedup_fields (List.map department rs)).
Proof.
  intros H.
  assert (Hnone : Forall (fun d => d = None) (List.map department rs)).
  { apply List.Forall_map. eapply Forall_impl; [exact H|]. by intros r [_ ?]. }
  split; [|split; [|split]].
  - apply py_sum_ints, List.Forall_map. eapply Forall_impl; [exact H|]. by intros r [? _].
  - apply py_sum_ints, List.Forall_map, Forall_forall. intros r Hr.
    apply list_elem_of_In, filter_In in Hr as [Hr _].
    rewrite Forall_forall in H. by apply H, list_elem_of_In.
  - unfold py_set. rewrite forallb_Forall; [done|].
    eapply Forall_impl; [exact Hnone|]. by intros d ->.
  - by apply dedup_fields_none.
Qed.

Lemma plain_node_record (n : gmap string value) :
  (exists z, n !! "credits" = Some (VInt z)) /\ n !! "department" = None ->
  plain_record (or_3 (n !! "credits")) (n !! "department").
Proof. intros [[z ->] ->]. split; [apply or_3_int|done]. Qed.

Lemma collect_course_info_plain (g : graph) (course_codes : list string) :
  plain_course_nodes (nodes g) ->
  Forall (fun r => plain_record (cd_credits r) (cd_department r))
         (PyDict.values (collect_course_info g course_codes)).
Proof.
  intros Hg. unfold collect_course_info.
  apply (for_each_invariant
           (fun d => Forall (fun r => plain_record (cd_credits r) (cd_department r))
                       (PyDict.values d))).
  - intros c d Hd. destruct (course_query g c) as [r|] eqn:Hr; [|done].
    apply dict_set_Forall; [|done]. unfold course_query, course_node in Hr.
    destruct (nodes g !! _) as [n|] eqn:Hn; [|discriminate].
    cbn in Hr. injection Hr as <-. cbn. by apply plain_node_record, (Hg _ _ Hn).
  - constructor.
Qed.

Lemma found_infos_plain (g : graph) (codes : list string) :
  plain_course_nodes (nodes g) ->
  Forall (fun r => plain_record (pi_credits r) (pi_department r)) (found_infos g codes).
Proof.
  intros Hg. unfold found_infos. induction codes as [|c codes IH]; [constructor|].
  cbn. apply Forall_app. split; [|exact IH].
  destruct (progress_query g c) as [r|] eqn:Hr; [|constructor].
  constructor; [|constructor]. unfold progress_query, course_node in Hr.
  destruct (nodes g !! _) as [n|] eqn:Hn; [|discriminate].
  cbn in Hr. injection Hr as <-. cbn. by apply plain_node_record, (Hg _ _ Hn).
Qed.

(** ** No department on the course nodes *)

(** X5: the builder writes no department on a course node, so on a graph
    built from the empty one, whatever the entity collection, sequence
    validation reports at most one discipline, the missing one, and the
    degree analysis counts at most one completed discipline: its discipline
    requirement is never met and [ready_to_graduate] is always [False]. *)
Theorem built_graph_has_no_disciplines (E : academic_data) (now : Z) :
  let g := build_graph E now empty_graph in
  (forall course_codes,
     exists r, validate_course_sequence g course_codes = Some r
               /\ st_discipline_count (statistics r) <= 1
               /\ Forall (fun d => d = None) (st_disciplines (statistics r)))
  /\ (forall completed target,
        exists r, analyze_degree_progress g completed target = Some r
                  /\ completed_discipline_count r <= 1
                  /\ met (req_disciplines r) = false
                  /\ ready_to_graduate r = false).
Proof.
  intros g. pose proof (built_graph_plain_courses E now) as Hg. fold g in Hg. split.
  - intros course_codes. unfold validate_course_sequence.
    destruct (plain_aggregates cd_credits cd_level cd_department _
                (collect_course_info_plain g course_codes Hg))
      as ([total ->] & [upper ->] & -> & Hlen & Hnone).
    cbn [mbind option_bind]. eexists. split; [reflexivity|]. cbn. split; [lia|done].
  - intros completed target. unfold analyze_degree_progress.
    destruct (plain_aggregates pi_credits pi_level pi_department _
                (found_infos_plain g completed Hg))
      as ([total ->] & [upper ->] & -> & Hlen & _).
    destruct (plain_aggregates pi_credits pi_level pi_department _
                (found_infos_plain g
                   (List.filter (fun code => negb (mem_str code completed)) target) Hg))
      as ([rtotal ->] & [rupper ->] & _).
    cbn [mbind option_bind]. eexists. split; [reflexivity|]. cbn.
    assert (H3 : (3 <=? Z.of_nat (length (dedup_fields
                    (List.map pi_department (found_infos g completed))))) = false)
      by (apply Z.leb_gt; lia).
    rewrite H3. split; [lia|]. split; [done|]. by rewrite andb_false_r.
Qed.

(** ** The topological sort when prerequisites form a cycle *)

Lemma kahn_earlier (courses : list string) (prerequisite_graph : PyDict.t (list string))
    (i : nat) (c p : string) :
  NoDup courses ->
  (forall c, c ∈ courses -> NoDup (pg_get prerequisite_graph c)) ->
  topological_sort courses prerequisite_graph !! i = Some c ->
  p ∈ courses -> p ∈ pg_get prerequisite_graph c ->
  exists j, (j < i)%nat /\ topological_sort courses prerequisite_graph !! j = Some p.
Proof.
  intros Hnd Hpnd Hi Hp Hpc. unfold topological_sort in *.
  destruct (kahn_final courses prerequisite_graph Hnd Hpnd) as [Hinv _].
  cbn zeta in Hinv.
  assert (Hbefore := inv_order _ _ _ Hinv i c Hi p ltac:(by apply elem_of_inner)).
  apply list_elem_of_lookup in Hbefore as [j Hj].
  apply lookup_take_Some in Hj as [Hj Hlt]. eauto.
Qed.

Lemma kahn_earlier_tc (courses : list string)
    (prerequisite_graph : PyDict.t (list string)) (c p : string) :
  NoDup courses ->
  (forall c, c ∈ courses -> NoDup (pg_get prerequisite_graph c)) ->
  tc (depends_on courses prerequisite_graph) c p ->
  forall i, topological_sort courses prerequisite_graph !! i = Some c ->
  exists j, (j < i)%nat /\ topological_sort courses prerequisite_graph !! j = Some p.
Proof.
  intros Hnd Hpnd. induction 1 as [x y [Hx Hy]|x y z [Hx Hy] _ IH]; intros i Hi.
  - apply elem_of_inner in Hy as [Hy1 Hy2]. by eapply kahn_earlier.
  - apply elem_of_inner in Hy as [Hy1 Hy2].
    destruct (kahn_earlier _ _ i x y Hnd Hpnd Hi Hy2 Hy1) as (j & Hlt & Hj).
    destruct (IH j Hj) as (k & Hlt' & Hk). exists k. split; [lia|done].
Qed.

Lemma lookup_precedes (l : list string) (j i : nat) (p c : string) :
  (j < i)%nat -> l !! j = Some p -> l !! i = Some c -> precedes p c l.
Proof.
  intros Hlt Hj Hi.
  assert (Hp : take i l !! j = Some p) by (apply lookup_take_Some; done).
  apply list_elem_of_lookup_2, list_elem_of_split in Hp as (l1 & l2 & Htake).
  exists l1, l2, (drop (S i) l).
  rewrite <- (take_drop_middle _ i c Hi) at 1. rewrite Htake. by rewrite <- app_assoc.
Qed.

(** X6: the topological sort needs no acyclic input to end, and leaves out
    what it cannot order.  For distinct courses, when no course lists a
    prerequisite twice, whether the prerequisites have cycles or not: the
    order has no repetition and only holds given courses; a course in
    the order comes after each of its prerequisites among the given courses;
    a course that depends on itself through a chain of prerequisites is not
    in the order; and a given course is left out only if one of its
    prerequisites among the given courses is left out. *)
Theorem topological_sort_leaves_out_cycles (courses : list string)
    (prerequisite_graph : PyDict.t (list string)) :
  NoDup courses ->
  (forall c, c ∈ courses -> NoDup (pg_get prerequisite_graph c)) ->
  let order := topological_sort courses prerequisite_graph in
  NoDup order
  /\ (forall c, c ∈ order -> c ∈ courses)
  /\ (forall p c, c ∈ order -> p ∈ courses -> p ∈ pg_get prerequisite_graph c ->
                  precedes p c order)
  /\ (forall c, tc (depends_on courses prerequisite_graph) c c -> c ∉ order)
  /\ (forall c, c ∈ courses -> c ∉ order ->
                exists p, depends_on courses prerequisite_graph c p /\ p ∉ order).
Proof.
  intros Hnd Hpnd order.
  pose proof (topological_sort_NoDup courses prerequisite_graph Hnd Hpnd) as Hord.
  fold order in Hord.
  split; [done|]. split; [apply (topological_sort_sound _ _ Hnd Hpnd)|].
  split; [|split].
  - intros p c Hc Hp Hpc. apply list_elem_of_lookup in Hc as [i Hi].
    destruct (kahn_earlier _ _ i c p Hnd Hpnd Hi Hp Hpc) as (j & Hlt & Hj).
    by eapply lookup_precedes.
  - intros c Hcyc Hc. apply list_elem_of_lookup in Hc as [i Hi].
    destruct (kahn_earlier_tc _ _ c c Hnd Hpnd Hcyc i Hi) as (j & Hlt & Hj).
    pose proof (NoDup_lookup _ _ _ _ Hord Hi Hj). lia.
  - intros c Hc Hout. unfold order, topological_sort in *.
    destruct (kahn_final courses prerequisite_graph Hnd Hpnd) as [Hinv Hq].
    cbn zeta in Hinv, Hq.
    assert (Hready := inv_ready _ _ _ Hinv c Hc). rewrite Hq, app_nil_r in Hready.
    destruct (pending courses prerequisite_graph
                (result (topological_sort_fuel (length courses) courses
                           prerequisite_graph)) c) as [|p ps] eqn:Hpend.
    + exfalso. by apply Hout, Hready.
    + assert (Hp : p ∈ pending courses prerequisite_graph
                (result (topological_sort_fuel (length courses) courses
                           prerequisite_graph)) c)
        by (rewrite Hpend; apply elem_of_cons; by left).
      apply elem_of_pending in Hp as [Hp1 Hp2]. exists p. by repeat split.
Qed.

Lemma topological_sort_leaves_out_cycles_witness :
  topological_sort looping_courses looping_prerequisites = ["B"]
  /\ "A" ∉ topological_sort looping_courses looping_prerequisites.
Proof.
  split; [vm_compute; reflexivity|].
  assert (Hnd : NoDup looping_courses).
  { apply NoDup_ListNoDup. repeat constructor; cbn; intuition discriminate. }
  assert (Hpnd : forall c, c ∈ looping_courses -> NoDup (pg_get looping_prerequisites c)).
  { intros c Hc. unfold looping_courses in Hc.
    rewrite !elem_of_cons in Hc. destruct Hc as [->|[->|[->|Hc]]]; [..|by inversion Hc];
      vm_compute; apply NoDup_ListNoDup; repeat constructor; cbn; intuition discriminate. }
  apply (topological_sort_leaves_out_cycles looping_courses looping_prerequisites
           Hnd Hpnd).
  apply tc_once. split.
  - apply elem_of_cons. by left.
  - apply elem_of_inner. split; vm_compute; apply elem_of_cons; by left.
Defined.

(** ** Validation of a recommended sequence *)

Lemma direct_violations_known (g : graph) (completed course_codes : list string) :
  direct_violations g completed (known_courses g course_codes)
  = direct_violations g completed course_codes.
Proof.
  revert completed. induction course_codes as [|c l IH]; intros completed; [done|].
  unfold known_courses in *. cbn [List.filter direct_violations].
  destruct (course_node g c) as [n|] eqn:Hn.
  - rewrite bool_decide_eq_true_2 by eauto. cbn [direct_violations]. rewrite Hn.
    by rewrite IH.
  - rewrite bool_decide_eq_false_2 by (by intros [? ?]). apply IH.
Qed.

Lemma direct_violations_none (g : graph) (completed l : list string) :
  (forall c p, p ∈ prerequisites_of g c -> is_Some (course_node g p)) ->
  (forall l1 c l2, l = l1 ++ c :: l2 -> is_Some (course_node g c) ->
                   forall p, p ∈ prerequisites_of g c -> p ∈ completed \/ p ∈ l1) ->
  direct_violations g completed l = [].
Proof.
  intros Hnodes. revert completed. induction l as [|c l IH]; intros completed Hl; [done|].
  cbn [direct_violations]. destruct (course_node g c) as [n|] eqn:Hn.
  - rewrite filter_none.
    + cbn [app]. apply IH. intros l1 c' l2 -> Hc' p Hp.
      destruct (Hl (c :: l1) c' l2 eq_refl Hc' p Hp) as [H|H].
      * left. apply elem_of_app. by left.
      * apply elem_of_cons in H as [->|H]; [|by right].
        left. apply elem_of_app. right. by apply list_elem_of_singleton.
    + apply Forall_forall. intros p Hp. apply negb_false_iff, mem_str_elem.
      destruct (Hl [] c l eq_refl ltac:(eauto) p Hp) as [H|H]; [done|by inversion H].
  - apply IH. intros l1 c' l2 -> Hc' p Hp.
    destruct (Hl (c :: l1) c' l2 eq_refl Hc' p Hp) as [H|H]; [by left|].
    apply elem_of_cons in H as [->|H]; [|by right].
    exfalso. destruct (Hnodes _ _ Hp) as [n' Hn']. congruence.
Qed.

Lemma collected_unknown (g : graph) (target_courses : list string) (c : string) :
  course_node g c = None ->
  pg_get (snd (collect_all_courses g target_courses)) c = []
  /\ PyDict.mem c (fst (collect_all_courses g target_courses)) = false.
Proof.
  intros Hn. destruct (collect_all_courses_get g target_courses c) as [H1 H2].
  unfold pg_get, PyDict.mem. rewrite H1, H2. unfold course_query. rewrite Hn. cbn.
  by destruct (mem_str c target_courses).
Qed.

Lemma collected_known (g : graph) (target_courses : list string) (c : string) :
  c ∈ target_courses ->
  PyDict.mem c (fst (collect_all_courses g target_courses))
  = bool_decide (is_Some (course_node g c)).
Proof.
  intros Hc. destruct (course_node g c) as [n|] eqn:Hn.
  - rewrite bool_decide_eq_true_2 by eauto. apply collected_course; [done|eauto].
  - rewrite bool_decide_eq_false_2 by (by intros [? ?]).
    by apply collected_unknown.
Qed.

(** X7: a recommended sequence passes validation.  On a graph where every
    node carries its key and no relationship occurs twice, for distinct
    target courses that hold every prerequisite of each of them, the
    semesters of a recommended plan, read in order, have no prerequisite
    violation. *)
Theorem recommended_sequence_is_valid (g : graph) (target_courses : list string)
    (max_credits max_semesters : Z) (plan : AcademicPlan) (r : validation) :
  keyed (nodes g) -> NoDup (edges g) -> NoDup target_courses ->
  (forall c p, c ∈ target_courses -> p ∈ prerequisites_of g c -> p ∈ target_courses) ->
  recommend_course_sequence g target_courses max_credits max_semesters = Some plan ->
  validate_course_sequence g (concat (recommended_sequence plan)) = Some r ->
  valid r = true /\ violations r = [].
Proof.
  intros Hk Hed Hnd Hclosed Hplan Hr.
  apply validation_reports_direct_violations in Hr as [Hv Hvalid].
  rewrite Hvalid, Hv. clear Hv Hvalid.
  rewrite (recommended_sequence_concat _ _ _ _ _ Hplan).
  set (pg := snd (collect_all_courses g target_courses)).
  assert (Hpnd : forall c, c ∈ target_courses -> NoDup (pg_get pg c)).
  { intros c Hc. destruct (course_node g c) as [n|] eqn:Hn.
    - unfold pg. rewrite collected_prerequisites by eauto.
      by apply prerequisites_of_NoDup.
    - unfold pg. rewrite (proj1 (collected_unknown g target_courses c Hn)). constructor. }
  assert (Hsub : forall c, c ∈ topological_sort target_courses pg -> c ∈ target_courses)
    by apply (topological_sort_sound _ _ Hnd Hpnd).
  assert (Hfilter :
            List.filter (fun c => PyDict.mem c (fst (collect_all_courses g target_courses)))
              (topological_sort target_courses pg)
            = known_courses g (topological_sort target_courses pg)).
  { unfold known_courses. apply filter_ext_in. intros c Hc.
    apply collected_known, Hsub. by apply list_elem_of_In. }
  rewrite Hfilter, direct_violations_known.
  assert (Hnone : direct_violations g [] (topological_sort target_courses pg) = []);
    [|by rewrite Hnone].
  apply direct_violations_none.
  - intros c p Hp. apply (prerequisites_of_keyed _ _ _ Hk) in Hp as (_ & Hd & _).
    by apply elem_of_dom in Hd.
  - intros l1 c l2 Hsplit Hc p Hp. right.
    assert (Hin : c ∈ target_courses).
    { apply Hsub. rewrite Hsplit. apply elem_of_app. right. apply elem_of_cons. by left. }
    assert (Hi : topological_sort target_courses pg !! length l1 = Some c).
    { rewrite Hsplit. by rewrite list_lookup_middle. }
    destruct (kahn_earlier _ _ (length l1) c p Hnd Hpnd Hi) as (j & Hlt & Hj).
    + by eapply Hclosed.
    + unfold pg. by rewrite collected_prerequisites.
    + rewrite Hsplit, lookup_app_l in Hj by done. by eapply list_elem_of_lookup_2.
Qed.

Lemma recommended_sequence_is_valid_witness :
  exists plan r,
    recommend_course_sequence cs_graph cs_targets 15 8 = Some plan
    /\ validate_course_sequence cs_graph (concat (recommended_sequence plan)) = Some r
    /\ valid r = true /\ violations r = [].
Proof.
  destruct (recommend_course_sequence cs_graph cs_targets 15 8) as [plan|] eqn:Hplan;
    [|vm_compute in Hplan; discriminate].
  destruct (validate_course_sequence cs_graph (concat (recommended_sequence plan)))
    as [r|] eqn:Hr.
  2: { exfalso. revert Hr.
       assert (Hp : Some plan = recommend_course_sequence cs_graph cs_targets 15 8)
         by (symmetry; exact Hplan).
       vm_compute in Hp. injection Hp as ->. vm_compute. discriminate. }
  exists plan, r. split; [reflexivity|]. split; [exact Hr|].
  destruct (build_graph_well_formed cs_catalog 0 empty_graph) as [Hk Hed];
    [apply empty_graph_well_formed..|].
  apply (recommended_sequence_is_valid cs_graph cs_targets 15 8 plan r Hk Hed);
    [| |exact Hplan|exact Hr].
  - apply NoDup_ListNoDup. repeat constructor; cbn; intuition discriminate.
  - intros c p Hc Hp. unfold cs_targets in *. rewrite !elem_of_cons in Hc.
    destruct cs_graph_prerequisites as (H1 & H2 & H3).
    destruct Hc as [->|[->|[->|Hc]]]; [| | |by inversion Hc].
    + rewrite H1 in Hp. apply list_elem_of_singleton in Hp as ->.
      rewrite !elem_of_cons. tauto.
    + rewrite H2 in Hp. apply list_elem_of_singleton in Hp as ->.
      rewrite !elem_of_cons. tauto.
    + rewrite H3 in Hp. by inversion Hp.
Defined.

(** ** The credits of a semester *)

Lemma sum_Z_app (l1 l2 : list Z) : sum_Z (l1 ++ l2) = sum_Z l1 + sum_Z l2.
Proof.
  unfold sum_Z. induction l1 as [|z l1 IH]; cbn [app fold_right]; lia.
Qed.

Lemma semester_credits_snoc (all_courses : PyDict.t CourseNode) (semester : list string)
    (c : string) :
  semester_credits all_courses (semester ++ [c])
  = semester_credits all_courses semester + credits_of all_courses c.
Proof.
  unfold semester_credits. rewrite List.map_app, sum_Z_app. cbn [List.map].
  unfold sum_Z at 2. cbn [fold_right]. lia.
Qed.

(** X8: the semesters of a plan.  When the credits of the courses are
    integers that are not negative, every semester has at least one course,
    and a semester holds more credits than the limit only when it consists
    of a single course; so when no course alone exceeds the limit, no
    semester does. *)
Theorem semesters_respect_credit_limit (all_courses : PyDict.t CourseNode)
    (max_credits : Z) (sequence : list string) (semesters : list (list string)) :
  (forall c n, PyDict.get c all_courses = Some n ->
               exists z, cn_credits n = VInt z /\ 0 <= z) ->
  pack_semesters all_courses max_credits sequence = Some semesters ->
  Forall (fun semester =>
            semester <> []
            /\ (semester_credits all_courses semester <= max_credits
                \/ length semester = 1%nat)) semesters
  /\ ((forall c, c ∈ sequence -> credits_of all_courses c <= max_credits) ->
      Forall (fun semester => semester_credits all_courses semester <= max_credits)
             semesters).
Proof.
  intros Hcred. unfold pack_semesters.
  set (ok := fun semester : list string =>
               semester <> []
               /\ (semester_credits all_courses semester <= max_credits
                   \/ length semester = 1%nat)).
  set (small := fun semester : list string =>
                  semester_credits all_courses semester <= max_credits).
  assert (H : forall seq ss cur cr ss' cur' cr',
             for_each seq (pack_course all_courses max_credits) (Some (ss, cur, cr))
             = Some (ss', cur', cr') ->
             cr = semester_credits all_courses cur ->
             (Forall ok ss /\ (cur <> [] -> ok cur) ->
              Forall ok ss' /\ (cur' <> [] -> ok cur'))
             /\ ((forall c, c ∈ seq -> credits_of all_courses c <= max_credits) ->
                 Forall small ss /\ (cur <> [] -> small cur) ->
                 Forall small ss' /\ (cur' <> [] -> small cur'))).
  { induction seq as [|c seq IH]; intros ss cur cr ss' cur' cr' Hrun Hcr.
    - cbn in Hrun. injection Hrun as <- <- <-. tauto.
    - rewrite for_each_cons in Hrun. unfold pack_course at 2 in Hrun.
      cbn [mbind option_bind] in Hrun.
      destruct (PyDict.get c all_courses) as [course|] eqn:Hget.
      2: { destruct (IH _ _ _ _ _ _ Hrun Hcr) as [IH1 IH2]. split; [done|].
           intros Hall. apply IH2. intros c' Hc'. apply Hall, elem_of_cons. by right. }
      destruct (Hcred _ _ Hget) as (z & Hz & Hpos). rewrite Hz in Hrun.
      cbn [as_int mbind option_bind] in Hrun.
      assert (Hc : credits_of all_courses c = z).
      { unfold credits_of. by rewrite Hget, Hz. }
      destruct ((cr + z >? max_credits) && _) eqn:Hfull.
      + apply andb_true_iff in Hfull as [Hover Hne].
        assert (Hcur : cur <> []) by (by destruct cur).
        destruct (IH _ _ _ _ _ _ Hrun) as [IH1 IH2].
        { unfold semester_credits. cbn. rewrite Hc. lia. }
        split.
        * intros [Hss Hok]. apply IH1. split.
          -- apply Forall_app. split; [done|]. constructor; [by apply Hok|constructor].
          -- intros _. split; [done|]. by right.
        * intros Hall [Hss Hok]. apply IH2.
          -- intros c' Hc'. apply Hall, elem_of_cons. by right.
          -- split.
             ++ apply Forall_app. split; [done|]. constructor; [by apply Hok|constructor].
             ++ intros _. unfold small, semester_credits. cbn. rewrite Hc.
                pose proof (Hall c ltac:(apply elem_of_cons; by left)). lia.
      + destruct (IH _ _ _ _ _ _ Hrun) as [IH1 IH2].
        { rewrite semester_credits_snoc, Hc. lia. }
        assert (Hcase : cr + z <= max_credits \/ cur = []).
        { apply andb_false_iff in Hfull as [Hle|Hnil].
          - left. rewrite Z.gtb_ltb in Hle. apply Z.ltb_ge in Hle. lia.
          - right. by destruct cur. }
        split.
        * intros [Hss Hok]. apply IH1. split; [done|]. intros _.
          split; [by destruct cur|].
          destruct Hcase as [Hle| ->]; [|by right].
          left. rewrite semester_credits_snoc, Hc. lia.
        * intros Hall [Hss Hok]. apply IH2.
          -- intros c' Hc'. apply Hall, elem_of_cons. by right.
          -- split; [done|]. intros _. unfold small.
             rewrite semester_credits_snoc, Hc.
             destruct Hcase as [Hle| ->]; [lia|].
             unfold semester_credits. cbn.
             pose proof (Hall c ltac:(apply elem_of_cons; by left)). lia. }
  destruct (for_each sequence _ _) as [[[ss cur] cr]|] eqn:Hrun; [|discriminate].
  cbn [mbind option_bind]. intros Hsem. injection Hsem as <-.
  destruct (H _ _ _ _ _ _ _ Hrun eq_refl) as [H1 H2]. split.
  - destruct H1 as [Hss Hcur]; [split; [constructor|done]|].
    destruct cur as [|c cur]; [done|]. apply Forall_app. split; [done|].
    constructor; [by apply Hcur|constructor].
  - intros Hall. destruct (H2 Hall) as [Hss Hcur]; [split; [constructor|done]|].
    destruct cur as [|c cur]; [done|]. apply Forall_app. split; [done|].
    constructor; [by apply Hcur|constructor].
Qed.

Lemma sample_plan_credits (c : string) (n : CourseNode) :
  PyDict.get c sample_plan_courses = Some n -> exists z, cn_credits n = VInt z /\ 0 <= z.
Proof.
  unfold sample_plan_courses. cbn [PyDict.get].
  destruct (String.eqb c "A"); [intros H; injection H as <-; exists 4; by split|].
  destruct (String.eqb c "B"); [intros H; injection H as <-; exists 4; by split|].
  destruct (String.eqb c "C"); [intros H; injection H as <-; exists 3; by split|].
  discriminate.
Qed.

Lemma semesters_respect_credit_limit_witness :
  pack_semesters sample_plan_courses 7 ["A"; "B"; "C"] = Some [["A"]; ["B"; "C"]]
  /\ Forall (fun semester => semester_credits sample_plan_courses semester <= 7)
            [["A"]; ["B"; "C"]].
Proof.
  assert (Hp : pack_semesters sample_plan_courses 7 ["A"; "B"; "C"]
               = Some [["A"]; ["B"; "C"]]) by (vm_compute; reflexivity).
  split; [exact Hp|].
  apply (proj2 (semesters_respect_credit_limit sample_plan_courses 7 _ _
                  sample_plan_credits Hp)).
  intros c Hc. rewrite !elem_of_cons in Hc.
  destruct Hc as [->|[->|[->|Hc]]]; [| | |by inversion Hc]; by vm_compute.
Defined.

(** ** Courses that are not in the graph *)

Lemma for_each_filter {A S} (keep : A -> bool) (f : A -> S -> S) (l : list A) (s : S) :
  (forall x s', keep x = false -> f x s' = s') ->
  for_each (List.filter keep l) f s = for_each l f s.
Proof.
  intros Hskip. revert s. induction l as [|x l IH]; intros s; [done|].
  cbn [List.filter]. destruct (keep x) eqn:Hx.
  - by rewrite !for_each_cons, IH.
  - by rewrite for_each_cons, (Hskip x s Hx), IH.
Qed.

Lemma course_query_unknown (g : graph) (c : string) :
  bool_decide (is_Some (course_node g c)) = false -> course_query g c = None.
Proof.
  intros H. apply bool_decide_eq_false in H. unfold course_query.
  destruct (course_node g c); [exfalso; eauto|done].
Qed.

Lemma collect_course_info_known (g : graph) (course_codes : list string) :
  collect_course_info g (known_courses g course_codes) = collect_course_info g course_codes.
Proof.
  unfold collect_course_info, known_courses. apply for_each_filter.
  intros c info Hc. by rewrite (course_query_unknown g c Hc).
Qed.

Lemma known_courses_app (g : graph) (l1 l2 : list string) :
  known_courses g (l1 ++ l2) = known_courses g l1 ++ known_courses g l2.
Proof. apply List.filter_app. Qed.

(** X9: sequence validation ignores the courses that are not in the graph.
    Validating a list gives the same result as validating the courses of
    the list that are in the graph: the others raise no violation, are not
    counted, and do not count as completed; so taking a course that is not
    in the graph out of a list, or putting it in, changes nothing. *)
Theorem validation_ignores_unknown_courses (g : graph) (course_codes : list string) :
  validate_course_sequence g (known_courses g course_codes)
  = validate_course_sequence g course_codes
  /\ (forall before after c,
        course_codes = before ++ c :: after -> course_node g c = None ->
        validate_course_sequence g (before ++ after)
        = validate_course_sequence g course_codes).
Proof.
  assert (H : forall l, validate_course_sequence g (known_courses g l)
                        = validate_course_sequence g l).
  { intros l. unfold validate_course_sequence.
    rewrite collect_course_info_known.
    assert (Hloop : for_each (known_courses g l)
                      (check_course (collect_course_info g l)) ([], [])
                    = for_each l (check_course (collect_course_info g l)) ([], [])).
    { unfold known_courses. apply for_each_filter. intros c st Hc.
      unfold check_course. rewrite collect_course_info_get.
      rewrite (course_query_unknown g c Hc). by destruct (mem_str c l). }
    by rewrite Hloop. }
  split; [apply H|].
  intros before after c -> Hc. rewrite <- (H (before ++ after)), <- (H (before ++ c :: after)).
  rewrite !known_courses_app. unfold known_courses at 4. cbn [List.filter].
  rewrite Hc. by rewrite bool_decide_eq_false_2 by (by intros [? ?]).
Qed.

(** ** Completed credits *)

Lemma py_sum_app (a b : list value) (x y : Z) :
  py_sum a = Some x -> py_sum b = Some y -> py_sum (a ++ b) = Some (x + y).
Proof.
  unfold py_sum. intros Ha Hb.
  destruct (mapM as_int a) as [za|] eqn:Hza; [|discriminate].
  destruct (mapM as_int b) as [zb|] eqn:Hzb; [|discriminate].
  cbn in Ha, Hb. injection Ha as <-. injection Hb as <-.
  assert (Hab : mapM as_int (a ++ b) = Some (za ++ zb)).
  { apply mapM_Some. apply Forall2_app; by apply mapM_Some. }
  rewrite Hab. cbn. by rewrite sum_Z_app.
Qed.

Lemma found_infos_app (g : graph) (l1 l2 : list string) :
  found_infos g (l1 ++ l2) = found_infos g l1 ++ found_infos g l2.
Proof. unfold found_infos. apply bind_app. Qed.

Lemma analyze_completed_fields (g : graph) (completed target : list string)
    (r : degree_progress) :
  analyze_degree_progress g completed target = Some r ->
  py_sum (List.map pi_credits (found_infos g completed)) = Some (completed_credits r)
  /\ py_sum (List.map pi_credits
               (List.filter (fun i => is_upper_division (pi_level i))
                  (found_infos g completed)))
     = Some (completed_upper_division_credits r)
  /\ completed_courses_count r = Z.of_nat (length completed).
Proof.
  unfold analyze_degree_progress. intros H.
  destruct (py_sum (List.map pi_credits (found_infos g completed))) as [cc|];
    [|discriminate].
  cbn [mbind option_bind] in H.
  destruct (py_sum (List.map pi_credits (List.filter _ (found_infos g completed))))
    as [cu|]; [|discriminate].
  cbn [mbind option_bind] in H.
  destruct (py_set _) as [cd|]; [|discriminate].
  cbn [mbind option_bind] in H.
  destruct (py_sum (List.map pi_credits (found_infos g _))) as [rc|]; [|discriminate].
  cbn [mbind option_bind] in H.
  destruct (py_sum (List.map pi_credits (List.filter _ (found_infos g _))))
    as [ru|]; [|discriminate].
  cbn [mbind option_bind] in H.
  injection H as <-. cbn. repeat split; done.
Qed.

(** X10: the completed credits of the degree analysis are summed over the
    list of completed courses as it is given.  For a list made of two parts,
    the completed credits, the completed upper-division credits and the
    number of completed courses are the sums of those of the parts,
    whatever the target courses; a course listed twice is counted twice. *)
Theorem completed_credits_are_additive (g : graph)
    (completed1 completed2 target target1 target2 : list string)
    (r r1 r2 : degree_progress) :
  analyze_degree_progress g (completed1 ++ completed2) target = Some r ->
  analyze_degree_progress g completed1 target1 = Some r1 ->
  analyze_degree_progress g completed2 target2 = Some r2 ->
  completed_credits r = completed_credits r1 + completed_credits r2
  /\ completed_upper_division_credits r
     = completed_upper_division_credits r1 + completed_upper_division_credits r2
  /\ completed_courses_count r = completed_courses_count r1 + completed_courses_count r2.
Proof.
  intros H H1 H2.
  apply analyze_completed_fields in H as (Hc & Hu & Hn).
  apply analyze_completed_fields in H1 as (Hc1 & Hu1 & Hn1).
  apply analyze_completed_fields in H2 as (Hc2 & Hu2 & Hn2).
  rewrite found_infos_app in Hc, Hu.
  rewrite List.map_app, (py_sum_app _ _ _ _ Hc1 Hc2) in Hc.
  rewrite List.filter_app, List.map_app, (py_sum_app _ _ _ _ Hu1 Hu2) in Hu.
  injection Hc as <-. injection Hu as <-.
  rewrite Hn, Hn1, Hn2, length_app. split; [done|]. split; [done|lia].
Qed.

Lemma completed_credits_are_additive_witness :
  exists r, analyze_degree_progress transcript_graph (transcript ++ transcript) [] = Some r
            /\ completed_credits r = 250.
Proof.
  destruct (analyze_degree_progress transcript_graph transcript []) as [r1|] eqn:H1;
    [|vm_compute in H1; discriminate].
  destruct (analyze_degree_progress transcript_graph (transcript ++ transcript) [])
    as [r|] eqn:H; [|vm_compute in H; discriminate].
  exists r. split; [reflexivity|].
  destruct (completed_credits_are_additive _ _ _ _ _ _ _ _ _ H H1 H1) as (Hc & _ & _).
  rewrite Hc.
  assert (Hr : Some r1 = analyze_degree_progress transcript_graph transcript [])
    by (symmetry; exact H1).
  vm_compute in Hr. injection Hr as ->. reflexivity.
Defined.

(** ** The paths of a prerequisite chain *)

Lemma follows_prerequisites_snoc (es : list edge) (p : list node_id) (s t : node_id) :
  follows_prerequisites es p -> last p = Some s -> (s, PREREQUISITE_FOR, t) ∈ es ->
  follows_prerequisites es (p ++ [t]).
Proof.
  induction p as [|a p IH]; [done|]. intros Hp Hlast He.
  destruct p as [|b p].
  - cbn in Hlast. injection Hlast as ->. by split.
  - destruct Hp as [Hab Hp]. split; [done|]. by apply IH.
Qed.

Lemma indexed_elem {A} (l : list A) (ie : nat * A) : ie ∈ indexed l -> snd ie ∈ l.
Proof.
  unfold indexed. intros H. apply elem_of_lookup_imap_1 in H as (i & y & -> & Hy).
  by eapply list_elem_of_lookup_2.
Qed.

Lemma trails_to_chain (fuel : nat) (es : list edge) (used : list nat) (t : node_id)
    (p : list node_id) :
  p ∈ trails_to fuel (indexed es) used t ->
  last p = Some t /\ follows_prerequisites es p.
Proof.
  revert used t p. induction fuel as [|fuel IH]; intros used t p Hp; [by inversion Hp|].
  cbn [trails_to] in Hp. apply list_elem_of_bind in Hp as (ie & Hp & Hie).
  apply list_elem_of_In, filter_In in Hie as [Hie Hok].
  apply andb_prop in Hok as [Hok _]. unfold is_prereq_edge_into in Hok.
  apply andb_prop in Hok as [Hrel Hto].
  apply bool_decide_eq_true in Hrel, Hto.
  apply list_elem_of_In, indexed_elem in Hie.
  assert (He : (fst (fst (snd ie)), PREREQUISITE_FOR, t) ∈ es).
  { destruct ie as [i [[a r] b]]. cbn in *. by subst. }
  apply elem_of_cons in Hp as [->|Hp].
  - by repeat split.
  - apply list_elem_of_In, in_map_iff in Hp as (q & <- & Hq).
    apply list_elem_of_In, IH in Hq as [Hlast Hq].
    split; [apply last_snoc|]. by eapply follows_prerequisites_snoc.
Qed.

Lemma chain_paths_chain (g : graph) (course_code : string) (max_depth : Z)
    (p : list node_id) :
  p ∈ chain_paths g course_code max_depth ->
  last p = Some (Course, course_code) /\ follows_prerequisites (edges g) p.
Proof.
  unfold chain_paths. intros Hp.
  apply list_elem_of_bind in Hp as (d & Hp & _).
  apply list_elem_of_In, filter_In in Hp as [Hp _].
  apply filter_In in Hp as [Hp _].
  destruct (has_node g (Course, course_code)); [|by inversion Hp].
  by apply list_elem_of_In, trails_to_chain in Hp.
Qed.

Lemma by_depth_sorted (found : list (list node_id)) (ds : list nat) :
  StronglySorted (fun a b => (b < a)%nat) ds ->
  StronglySorted (fun p q => path_depth q <= path_depth p)
    (d ← ds; List.filter (fun p => path_depth p =? Z.of_nat d) found).
Proof.
  induction 1 as [|d ds Hds IH Hlt]; [constructor|].
  cbn [mbind list_bind]. apply StronglySorted_app_2; [| |exact IH].
  - intros p q Hp Hq.
    apply list_elem_of_In, filter_In in Hp as [_ Hp]. apply Z.eqb_eq in Hp.
    apply list_elem_of_bind in Hq as (d' & Hq & Hd').
    apply list_elem_of_In, filter_In in Hq as [_ Hq]. apply Z.eqb_eq in Hq.
    rewrite Forall_forall in Hlt. specialize (Hlt d' Hd'). lia.
  - clear. induction found as [|p found IHf]; [constructor|].
    cbn [List.filter]. destruct (path_depth p =? Z.of_nat d) eqn:Hp; [|exact IHf].
    constructor; [exact IHf|]. apply Forall_forall. intros q Hq.
    apply list_elem_of_In, filter_In in Hq as [_ Hq].
    apply Z.eqb_eq in Hp, Hq. lia.
Qed.

Lemma chain_paths_sorted (g : graph) (course_code : string) (max_depth : Z) :
  StronglySorted (fun p q => path_depth q <= path_depth p)
    (chain_paths g course_code max_depth).
Proof.
  unfold chain_paths. apply by_depth_sorted.
  cbn. repeat (constructor; [|repeat constructor; lia]). constructor.
Qed.

Lemma Forall2_sorted {A B} (R : relation A) (S : relation B) (T : A -> B -> Prop)
    (l : list A) (k : list B) :
  (forall x y x' y', T x x' -> T y y' -> R x y -> S x' y') ->
  Forall2 T l k -> StronglySorted R l -> StronglySorted S k.
Proof.
  intros HT. induction 1 as [|x x' l k Hx Hlk IH]; intros Hs; [constructor|].
  apply StronglySorted_inv in Hs as [Hs Hall]. constructor; [by apply IH|].
  apply Forall_forall. intros y' Hy'.
  apply list_elem_of_lookup in Hy' as [i Hi].
  destruct (Forall2_lookup_r _ _ _ _ _ Hlk Hi) as (y & Hy & HTy).
  rewrite Forall_forall in Hall. eapply HT; [exact Hx|exact HTy|].
  by eapply Hall, list_elem_of_lookup_2.
Qed.

(** X11: the paths of a prerequisite chain.  They are returned longest
    first; each is annotated with the course asked for and lists the [code]
    properties of a path of the graph that ends at that course and follows
    [PREREQUISITE_FOR] relationships, with the sum of the [credits] of all
    its nodes, the course asked for included.  No path is returned for a
    course that is not in the graph, or when [max_depth] is less than 1. *)
Theorem prerequisite_chain_paths (g : graph) (course_code : string) (max_depth : Z)
    (paths : list PrerequisitePath) :
  get_prerequisite_chain g course_code max_depth = Some paths ->
  StronglySorted (fun p q => path_length q <= path_length p) paths
  /\ (forall p, p ∈ paths ->
        target_course p = course_code
        /\ exists np credits,
             path p = List.map (node_prop g "code") np
             /\ last np = Some (Course, course_code)
             /\ follows_prerequisites (edges g) np
             /\ mapM (fun v => v ≫= as_int) (List.map (node_prop g "credits") np)
                = Some credits
             /\ total_credits p = sum_Z credits)
  /\ (course_node g course_code = None -> paths = [])
  /\ (max_depth < 1 -> paths = []).
Proof.
  unfold get_prerequisite_chain. intros H. apply mapM_Some_1 in H.
  split; [|split; [|split]].
  - eapply Forall2_sorted; [|exact H|apply chain_paths_sorted].
    intros x y x' y' Hx Hy Hxy. cbv beta in Hx, Hy.
    apply chain_entry_semesters in Hx as [-> _], Hy as [-> _]. done.
  - intros p Hp. apply list_elem_of_lookup in Hp as [i Hi].
    destruct (Forall2_lookup_r _ _ _ _ _ H Hi) as (np & Hnp & Hentry).
    apply list_elem_of_lookup_2, chain_paths_chain in Hnp as [Hlast Hchain].
    unfold chain_entry in Hentry.
    destruct (mapM _ _) as [credits|] eqn:Hcredits; [|discriminate].
    cbn in Hentry. injection Hentry as <-. cbn. split; [done|].
    exists np, credits. done.
  - intros Hnone.
    assert (Hempty : chain_paths g course_code max_depth = []).
    { unfold chain_paths, has_node.
      rewrite bool_decide_eq_false_2.
      - cbn. reflexivity.
      - intros Hd. apply elem_of_dom in Hd as [n Hn].
        change (course_node g course_code = Some n) in Hn. congruence. }
    rewrite Hempty in H. by inversion H.
  - intros Hd. destruct paths as [|p paths]; [done|]. exfalso.
    inversion H as [|np p' nps ps' Hentry Hrest Heq1 Heq2]. subst.
    assert (Hin : np ∈ chain_paths g course_code max_depth).
    { rewrite <- Heq1. apply elem_of_cons. by left. }
    apply chain_paths_depth in Hin. lia.
Qed.

Lemma prerequisite_chain_paths_witness :
  exists paths,
    get_prerequisite_chain cs_graph "CS 2420" 10 = Some paths
    /\ List.map path paths
       = [[Some (VStr "CS 1400"); Some (VStr "CS 1410"); Some (VStr "CS 2420")];
          [Some (VStr "CS 1410"); Some (VStr "CS 2420")]]
    /\ StronglySorted (fun p q => path_length q <= path_length p) paths.
Proof.
  destruct (get_prerequisite_chain cs_graph "CS 2420" 10) as [paths|] eqn:H;
    [|vm_compute in H; discriminate].
  exists paths. split; [reflexivity|].
  split; [|exact (proj1 (prerequisite_chain_paths _ _ _ _ H))].
  assert (Hp : Some paths = get_prerequisite_chain cs_graph "CS 2420" 10)
    by (symmetry; exact H).
  vm_compute in Hp. injection Hp as ->. reflexivity.
Defined.

(** ** How the matcher runs a pattern *)

Lemma orelse_Some {R} (a b : option R) (x : R) :
  Re.orelse a b = Some x -> a = Some x \/ b = Some x.
Proof. destruct a; cbn; [by left|by right]. Qed.

Lemma lit_inv {R} (fl : Re.flags) (p : string) (prev : option ascii) (s : string)
    (k : option ascii -> string -> option R) (x : R) :
  Re.lit fl p prev s k = Some x ->
  (String.length p <= String.length s)%nat
  /\ exists prev', k prev' (PyStr.drop (String.length p) s) = Some x.
Proof.
  revert prev s. induction p as [|a p IH]; intros prev s H.
  - cbn in *. split; [lia|]. exists prev. by destruct s.
  - destruct s as [|c s]; [discriminate|]. cbn [Re.lit] in H.
    destruct (Re.char_eq fl a c); [|discriminate].
    apply IH in H as [Hlen H]. cbn. split; [lia|done].
Qed.

Lemma drop_drop_string (n m : nat) (s : string) :
  PyStr.drop n (PyStr.drop m s) = PyStr.drop (m + n) s.
Proof.
  revert s. induction m as [|m IH]; intros s; [by destruct n, s|].
  destruct s as [|c s]; [by destruct n|]. cbn. apply IH.
Qed.

Lemma take_drop_string (n : nat) (s : string) : PyStr.take n s +:+ PyStr.drop n s = s.
Proof.
  revert s. induction n as [|n IH]; intros s; [by destruct s|].
  destruct s as [|c s]; [done|]. cbn [PyStr.take PyStr.drop].
  change (String c (PyStr.take n s) +:+ PyStr.drop n s)
    with (String c (PyStr.take n s +:+ PyStr.drop n s)). by rewrite IH.
Qed.

Lemma length_drop_string (n : nat) (s : string) :
  String.length (PyStr.drop n s) = (String.length s - n)%nat.
Proof.
  revert s. induction n as [|n IH]; intros s; [destruct s; cbn; lia|].
  destruct s as [|c s]; [done|]. cbn. apply IH.
Qed.

Lemma consumed_drop (n : nat) (s : string) :
  (n <= String.length s)%nat -> Re.consumed s (PyStr.drop n s) = PyStr.take n s.
Proof.
  intros Hn. unfold Re.consumed. rewrite length_drop_string. f_equal. lia.
Qed.

(** A repetition takes a number of characters of the set that lies within
    its bounds, and goes on with the rest. *)
Lemma rep_inv {R} (fl : Re.flags) (cs : Re.cset) (lo : nat) (hi : option nat)
    (greedy : bool) (prev : option ascii) (s : string)
    (k : option ascii -> string -> option R) (x : R) :
  Re.rep fl cs lo hi greedy prev s k = Some x ->
  exists n prev',
    (lo <= n <= String.length s)%nat
    /\ (forall h, hi = Some h -> (n <= h)%nat)
    /\ PyStr.all (fun c => Re.in_cset fl c cs) (PyStr.take n s) = true
    /\ k prev' (PyStr.drop n s) = Some x.
Proof.
  revert lo hi prev. induction s as [|c s IH]; intros lo hi prev H.
  - cbn in H. destruct lo; [|discriminate]. exists 0%nat, prev.
    repeat split; [cbn; lia..| |done]. intros h _. lia.
  - cbn [Re.rep] in H.
    assert (Hstop : match lo with O => k prev (String c s) | S _ => None end = Some x ->
                    exists n prev',
                      (lo <= n <= String.length (String c s))%nat
                      /\ (forall h, hi = Some h -> (n <= h)%nat)
                      /\ PyStr.all (fun c => Re.in_cset fl c cs)
                           (PyStr.take n (String c s)) = true
                      /\ k prev' (PyStr.drop n (String c s)) = Some x).
    { intros Hk. destruct lo; [|discriminate]. exists 0%nat, prev.
      repeat split; [cbn; lia..| |done]. intros h _. lia. }
    destruct (Re.in_cset fl c cs && Re.hi_allows hi) eqn:Hc; [|by apply Hstop].
    apply andb_prop in Hc as [Hc Hhi].
    assert (Hmore : Re.rep fl cs (Nat.pred lo) (Nat.pred <$> hi) greedy (Some c) s k
                    = Some x ->
                    exists n prev',
                      (lo <= n <= String.length (String c s))%nat
                      /\ (forall h, hi = Some h -> (n <= h)%nat)
                      /\ PyStr.all (fun c => Re.in_cset fl c cs)
                           (PyStr.take n (String c s)) = true
                      /\ k prev' (PyStr.drop n (String c s)) = Some x).
    { intros Hr. apply IH in Hr as (n & prev' & Hn & Hh & Hall & Hk).
      exists (S n), prev'. repeat split.
      - lia.
      - cbn. lia.
      - intros h ->. destruct h as [|h]; [discriminate|].
        specialize (Hh h eq_refl). lia.
      - cbn [PyStr.take PyStr.all]. by rewrite Hc, Hall.
      - exact Hk. }
    destruct greedy; apply orelse_Some in H as [H|H]; auto.
Qed.

(** A pattern only adds captures, of its own groups, in front of those it
    was given. *)
Lemma run_captures {R} (fl : Re.flags) (r : Re.regex) (prev : option ascii) (s : string)
    (cs : Re.captures) (k : Re.cont R) (x : R) :
  Re.run fl r prev s cs k = Some x ->
  exists prev' s' cs',
    k prev' s' (cs' ++ cs) = Some x
    /\ Forall (fun nc => fst nc ∈ group_numbers r) cs'.
Proof.
  revert prev s cs k. induction r as [p|c lo hi greedy|r1 IH1 r2 IH2|r1 IH1 r2 IH2|r1 IH1|n r1 IH1| | |];
    intros prev s cs k H; cbn [Re.run] in H.
  - apply lit_inv in H as [_ [prev' H]]. eexists _, _, []. split; [exact H|constructor].
  - apply rep_inv in H as (m & prev' & _ & _ & _ & H). eexists _, _, []. split; [exact H|constructor].
  - apply IH1 in H as (p1 & s1 & cs1 & H & Hcs1).
    apply IH2 in H as (p2 & s2 & cs2 & H & Hcs2).
    exists p2, s2, (cs2 ++ cs1). rewrite <- app_assoc. split; [done|].
    cbn [group_numbers]. apply Forall_app. split.
    + eapply Forall_impl; [exact Hcs2|]. intros nc Hnc. apply elem_of_app. by right.
    + eapply Forall_impl; [exact Hcs1|]. intros nc Hnc. apply elem_of_app. by left.
  - cbn [group_numbers]. apply orelse_Some in H as [H|H].
    + apply IH1 in H as (p1 & s1 & cs1 & H & Hcs1). exists p1, s1, cs1. split; [done|].
      eapply Forall_impl; [exact Hcs1|]. intros nc Hnc. apply elem_of_app. by left.
    + apply IH2 in H as (p1 & s1 & cs1 & H & Hcs1). exists p1, s1, cs1. split; [done|].
      eapply Forall_impl; [exact Hcs1|]. intros nc Hnc. apply elem_of_app. by right.
  - apply orelse_Some in H as [H|H]; [by apply IH1 in H|].
    exists prev, s, []. by split.
  - apply IH1 in H as (p1 & s1 & cs1 & H & Hcs1).
    exists p1, s1, ((n, Re.consumed s s1) :: cs1). split; [done|].
    cbn [group_numbers]. constructor; [apply elem_of_cons; by left|].
    eapply Forall_impl; [exact Hcs1|]. intros nc Hnc. apply elem_of_cons. by right.
  - destruct (xorb _ _); [|discriminate]. exists prev, s, []. by split.
  - destruct (Re.at_start fl prev); [|discriminate]. exists prev, s, []. by split.
  - destruct (Re.at_end fl s); [|discriminate]. exists prev, s, []. by split.
Qed.

Lemma group_app_other (n : nat) (cs' cs : Re.captures) :
  Forall (fun nc => fst nc <> n) cs' -> Re.group n (cs' ++ cs) = Re.group n cs.
Proof.
  induction 1 as [|[m t] cs' Hm _ IH]; [done|]. cbn [app Re.group].
  cbn in Hm. destruct (Nat.eqb_spec n m) as [->|]; [done|exact IH].
Qed.

(** Every match that a scan returns was found by the matcher at some place
    of the subject. *)
Lemma scan_elem (fl : Re.flags) (r : Re.regex) (s : string) (m : Re.match_) :
  forall skip start prev,
    m ∈ Re.scan fl r skip start prev s ->
    exists start' prev' s', Re.match_at fl r start' prev' s' = Some m.
Proof.
  induction s as [|c s IH]; intros skip start prev Hm; [by inversion Hm|].
  cbn [Re.scan] in Hm. destruct skip as [|skip]; [|by eapply IH].
  unfold Re.try_at in Hm.
  destruct (Re.match_at fl r start prev (String c s)) as [m0|] eqn:Hm0; [|by eapply IH].
  destruct (Re.m_text m0); [by eapply IH|].
  apply elem_of_cons in Hm as [->|Hm]; [eauto|by eapply IH].
Qed.

Lemma finditer_elem (fl : Re.flags) (r : Re.regex) (s : string) (m : Re.match_) :
  m ∈ Re.finditer fl r s ->
  exists start prev s', Re.match_at fl r start prev s' = Some m.
Proof. apply scan_elem. Qed.

Lemma search_match (fl : Re.flags) (r : Re.regex) (s : string) (m : Re.match_) :
  Re.search fl r s = Some m ->
  exists start prev s', Re.match_at fl r start prev s' = Some m.
Proof.
  unfold Re.search. intros H. apply finditer_elem with (s := s).
  destruct (Re.finditer fl r s); [discriminate|]. injection H as ->.
  apply elem_of_cons. by left.
Qed.

(** The character sets of the patterns, when case counts. *)
Lemma in_cset_upper (fl : Re.flags) (c : ascii) :
  Re.ignorecase fl = false -> Re.in_cset fl c Re.upper_AZ = PyStr.is_upper c.
Proof.
  intros Hfl. unfold Re.in_cset, Re.in_items. cbn. rewrite Hfl. cbn.
  by rewrite !orb_false_r.
Qed.

Lemma in_cset_digit (fl : Re.flags) (c : ascii) :
  Re.ignorecase fl = false -> Re.in_cset fl c Re.digit = PyStr.is_digit c.
Proof.
  intros Hfl. unfold Re.in_cset, Re.in_items. cbn. rewrite Hfl. cbn.
  by rewrite !orb_false_r.
Qed.

Lemma in_cset_space (fl : Re.flags) (c : ascii) :
  Re.ignorecase fl = false -> Re.in_cset fl c Re.space = PyStr.is_space c.
Proof.
  intros Hfl. unfold Re.in_cset, Re.in_items. cbn. rewrite Hfl. cbn.
  by rewrite !orb_false_r.
Qed.

Lemma all_ext (f h : ascii -> bool) (s : string) :
  (forall c, f c = h c) -> PyStr.all f s = PyStr.all h s.
Proof. intros Hfh. induction s as [|c s IH]; [done|]. cbn. by rewrite Hfh, IH. Qed.

Lemma length_take_le (n : nat) (s : string) :
  (n <= String.length s)%nat -> String.length (PyStr.take n s) = n.
Proof. intros Hn. rewrite length_take. lia. Qed.

(** ** The courses that the extractor produces *)

(** A pattern that begins as the course pattern does, whatever follows, as
    long as what follows has no group 1 or 2. *)
Lemma code_head_groups (fl : Re.flags) (tail : Re.regex) (start : nat)
    (prev : option ascii) (s : string) (m : Re.match_) :
  Re.ignorecase fl = false ->
  1%nat ∉ group_numbers tail -> 2%nat ∉ group_numbers tail ->
  Re.match_at fl
    (Re.Seq Re.WordBoundary
       (Re.Seq (Re.Group 1 (Re.between 2 4 Re.upper_AZ))
          (Re.Seq (Re.plus Re.space)
             (Re.Seq (Re.Group 2 (Re.exactly 4 Re.digit)) tail)))) start prev s
  = Some m ->
  prefix_shape (group_text 1 m) /\ number_shape (group_text 2 m).
Proof.
  intros Hfl Ht1 Ht2. unfold Re.match_at. cbn [Re.run Re.between Re.plus Re.exactly].
  intros H. destruct (xorb _ _); [|discriminate].
  apply rep_inv in H as (n1 & p1 & Hn1 & Hh1 & Hall1 & H).
  apply rep_inv in H as (n2 & p2 & Hn2 & _ & _ & H).
  apply rep_inv in H as (n3 & p3 & Hn3 & Hh3 & Hall3 & H).
  apply run_captures in H as (p5 & s5 & cs' & H & Hcs').
  injection H as <-. unfold group_text. cbn [Re.m_groups].
  assert (Hother : forall n, n ∉ group_numbers tail ->
                             Forall (fun nc : nat * string => fst nc <> n) cs').
  { intros n Hn. eapply Forall_impl; [exact Hcs'|]. intros nc Hnc Heq.
    apply Hn. by rewrite <- Heq. }
  rewrite !group_app_other by (by apply Hother). cbn [Re.group Nat.eqb default].
  specialize (Hh1 4%nat eq_refl). specialize (Hh3 4%nat eq_refl).
  rewrite !consumed_drop by lia. unfold id. split; split.
  - rewrite <- Hall1. apply all_ext. intros c. symmetry. by apply in_cset_upper.
  - rewrite length_take_le; lia.
  - rewrite <- Hall3. apply all_ext. intros c. symmetry. by apply in_cset_digit.
  - rewrite length_take_le; lia.
Qed.

Lemma course_pattern_groups (start : nat) (prev : option ascii) (s : string)
    (m : Re.match_) :
  Re.match_at Re.MULTILINE course_pattern start prev s = Some m ->
  prefix_shape (group_text 1 m) /\ number_shape (group_text 2 m).
Proof.
  apply code_head_groups; [done|..]; rewrite list_elem_of_In; cbn; intuition lia.
Qed.

Lemma for_each_invariant_in {A S} (I : S -> Prop) (f : A -> S -> S) (xs : list A) (s : S) :
  (forall x s', x ∈ xs -> I s' -> I (f x s')) -> I s -> I (for_each xs f s).
Proof.
  revert s. induction xs as [|x xs IH]; intros s Hf Hs; [done|].
  rewrite for_each_cons. apply IH.
  - intros y s' Hy. apply Hf. apply elem_of_cons. by right.
  - apply Hf; [apply elem_of_cons; by left|done].
Qed.

Lemma dict_set_keys_NoDup {V} (k : string) (v : V) (d : PyDict.t V) :
  NoDup (PyDict.keys d) -> NoDup (PyDict.keys (PyDict.set k v d)).
Proof.
  intros Hd. destruct (decide (k ∈ PyDict.keys d)) as [Hk|Hk].
  - by rewrite dict_keys_set_mem.
  - rewrite dict_keys_set_new by done. apply NoDup_app. split; [done|].
    split; [|apply NoDup_singleton].
    intros x Hx Hx'. apply list_elem_of_singleton in Hx' as ->. done.
Qed.

Lemma dict_set_entries {V} (Q : string * V -> Prop) (k : string) (v : V)
    (d : PyDict.t V) :
  Q (k, v) -> Forall Q d -> Forall Q (PyDict.set k v d).
Proof.
  intros Hkv. induction 1 as [|[k' v'] d Hx Hd IH]; cbn [PyDict.set].
  - by repeat constructor.
  - destruct (String.eqb k k'); constructor; done.
Qed.

Lemma dict_update_keys_NoDup {V} (d d2 : PyDict.t V) :
  NoDup (PyDict.keys d) -> NoDup (PyDict.keys (PyDict.update d d2)).
Proof.
  unfold PyDict.update. revert d. induction d2 as [|[k v] d2 IH]; intros d Hd; [done|].
  cbn [fold_left]. apply IH. by apply dict_set_keys_NoDup.
Qed.

Lemma dict_update_entries {V} (Q : string * V -> Prop) (d d2 : PyDict.t V) :
  Forall Q d -> Forall Q d2 -> Forall Q (PyDict.update d d2).
Proof.
  unfold PyDict.update. intros Hd Hd2. revert d Hd.
  induction Hd2 as [|[k v] d2 Hkv _ IH]; intros d Hd; [done|].
  cbn [fold_left]. apply IH. by apply dict_set_entries.
Qed.

Lemma upper_not_lower (c : ascii) : PyStr.is_upper c = true -> PyStr.is_lower c = false.
Proof.
  unfold PyStr.is_upper, PyStr.is_lower, PyStr.in_range. intros H.
  apply andb_prop in H as [_ H]. apply N.leb_le in H.
  apply andb_false_iff. left. apply N.leb_gt. lia.
Qed.

Lemma upper_of_capitals (s : string) :
  PyStr.all PyStr.is_upper s = true -> PyStr.upper s = s.
Proof.
  induction s as [|c s IH]; [done|]. cbn [PyStr.all]. intros H.
  apply andb_prop in H as [Hc H]. unfold PyStr.upper in *. cbn [PyStr.map].
  rewrite (IH H). unfold PyStr.upper_char. by rewrite (upper_not_lower c Hc).
Qed.

Lemma course_of_match_extracted (start : nat) (prev : option ascii) (s : string)
    (m : Re.match_) (c : CourseInfo) :
  Re.match_at Re.MULTILINE course_pattern start prev s = Some m ->
  course_of_match m = Some c -> extracted_course c.
Proof.
  intros Hm. apply course_pattern_groups in Hm as [[Hp1 Hp2] Hn].
  unfold course_of_match.
  destruct (is_valid_course_code _ _ _) eqn:Hvalid; [|discriminate].
  cbn [negb]. intros H. injection H as <-.
  rewrite (upper_of_capitals _ Hp1) in *.
  by constructor.
Qed.

Lemma extracted_courses_entries (content url : string) :
  NoDup (PyDict.keys (extract_courses_from_content content url))
  /\ Forall (fun kc => fst kc = c_code (snd kc) /\ extracted_course (snd kc))
            (extract_courses_from_content content url).
Proof.
  unfold extract_courses_from_content.
  apply (for_each_invariant_in
           (fun d => NoDup (PyDict.keys d)
                     /\ Forall (fun kc => fst kc = c_code (snd kc)
                                          /\ extracted_course (snd kc)) d)).
  - intros m d Hm [Hnd Hd]. destruct (course_of_match m) as [c|] eqn:Hc; [|done].
    apply finditer_elem in Hm as (start & prev & s & Hm).
    split; [by apply dict_set_keys_NoDup|].
    apply dict_set_entries; [|done]. split; [done|].
    by eapply course_of_match_extracted.
  - split; constructor.
Qed.

(** X12: the courses that the extractor finds on a page.  No two entries of
    the dictionary have the same key; every course is stored under its code,
    which is its prefix, a space and its number; the prefix has two to four
    capital letters and the number four digits; the course passed the
    validity test, so its number begins with neither 19 nor 20 and its
    title has at least five characters; its level follows from its number,
    its prerequisites are those extracted from its description, and it has
    no corequisite and the two default semesters. *)
Theorem extracted_courses_are_well_formed (content url : string) :
  let found := extract_courses_from_content content url in
  NoDup (PyDict.keys found)
  /\ Forall (fun kc => fst kc = c_code (snd kc) /\ extracted_course (snd kc)) found
  /\ Forall (fun c => PyStr.startswith "19" (c_number c) = false
                      /\ PyStr.startswith "20" (c_number c) = false
                      /\ 5 <= PyStr.len (PyStr.strip (c_title c)))
            (PyDict.values found).
Proof.
  cbv zeta. destruct (extracted_courses_entries content url) as [Hnd Hd].
  split; [done|]. split; [done|].
  unfold PyDict.values. apply List.Forall_map.
  eapply Forall_impl; [exact Hd|]. intros [k c] [_ Hc]. cbn [snd].
  pose proof (ec_valid c Hc) as Hvalid. pose proof (ec_number c Hc) as [_ Hlen].
  unfold is_valid_course_code in Hvalid.
  destruct (mem_str _ invalid_prefixes); [discriminate|].
  assert (Hfour : (PyStr.len (c_number c) =? 4) = true).
  { apply Z.eqb_eq. unfold PyStr.len. rewrite Hlen. done. }
  rewrite Hfour, andb_true_r in Hvalid.
  destruct (PyStr.startswith "19" (c_number c)); [discriminate|].
  destruct (PyStr.startswith "20" (c_number c)); [discriminate|].
  cbn [orb] in Hvalid.
  destruct (PyStr.len (PyStr.strip (c_title c)) <? 5) eqn:Ht; [discriminate|].
  apply Z.ltb_ge in Ht. done.
Qed.

(** ** The courses of all the pages *)

Lemma dict_get_update {V} (k : string) (d d2 : PyDict.t V) :
  NoDup (PyDict.keys d2) ->
  PyDict.get k (PyDict.update d d2)
  = match PyDict.get k d2 with Some v => Some v | None => PyDict.get k d end.
Proof.
  unfold PyDict.update. revert d. induction d2 as [|[k' v'] d2 IH]; intros d Hnd; [done|].
  cbn [PyDict.keys List.map fst] in Hnd. apply NoDup_cons in Hnd as [Hk' Hnd].
  cbn [fold_left fst snd PyDict.get]. rewrite (IH _ Hnd).
  destruct (String.eqb_spec k k') as [->|Hne].
  - rewrite dict_get_set_eq.
    destruct (PyDict.get k' d2) eqn:Hget; [|done].
    exfalso. apply Hk'. apply dict_mem_keys. unfold PyDict.mem. by rewrite Hget.
  - by rewrite dict_get_set_ne.
Qed.

Lemma extract_all_courses_snoc (pages : list (string * string)) (page : string * string) :
  extract_all_courses (pages ++ [page])
  = PyDict.update (extract_all_courses pages)
      (extract_courses_from_content (fst page) (snd page)).
Proof. unfold extract_all_courses. by rewrite for_each_app. Qed.

(** X13: the courses of all the pages.  The dictionary that the pages give
    together has no two entries with the same key, and each of its courses
    is stored under its code and is as the extractor makes them.  A course
    that a later page gives replaces the course of the same code of the
    earlier pages; the courses that the later page does not give stay. *)
Theorem later_page_replaces_course (pages : list (string * string))
    (page : string * string) (code : string) :
  NoDup (PyDict.keys (extract_all_courses pages))
  /\ Forall (fun kc => fst kc = c_code (snd kc) /\ extracted_course (snd kc))
            (extract_all_courses pages)
  /\ PyDict.get code (extract_all_courses (pages ++ [page]))
     = match PyDict.get code (extract_courses_from_content (fst page) (snd page)) with
       | Some c => Some c
       | None => PyDict.get code (extract_all_courses pages)
       end.
Proof.
  split; [|split].
  - unfold extract_all_courses.
    apply (for_each_invariant (fun d => NoDup (PyDict.keys d))); [|constructor].
    intros p d Hd. by apply dict_update_keys_NoDup.
  - unfold extract_all_courses.
    apply (for_each_invariant
             (fun d => Forall (fun kc => fst kc = c_code (snd kc)
                                         /\ extracted_course (snd kc)) d));
      [|constructor].
    intros p d Hd. apply dict_update_entries; [done|].
    apply (extracted_courses_entries (fst p) (snd p)).
  - rewrite extract_all_courses_snoc. apply dict_get_update.
    apply (extracted_courses_entries (fst page) (snd page)).
Qed.

(** ** The prerequisites that the extractor returns *)

Lemma at_end_inv (s : string) :
  Re.at_end Re.no_flags s = true -> s = "" \/ s = String nl "".
Proof.
  destruct s as [|c [|c' s]]; cbn; [by left| |discriminate].
  intros H. apply Ascii.eqb_eq in H as ->. by right.
Qed.

Lemma strict_code_shape (p : string) (m : Re.match_) :
  Re.match_start Re.no_flags strict_code_pattern p = Some m -> code_like p.
Proof.
  unfold Re.match_start, Re.match_at, strict_code_pattern, code_shape.
  cbn [app Re.cat Re.run Re.between Re.plus Re.exactly Re.maybe Re.at_start]. intros H.
  apply rep_inv in H as (n1 & p1 & Hn1 & Hh1 & Hall1 & H).
  apply rep_inv in H as (n2 & p2 & Hn2 & _ & Hall2 & H).
  apply rep_inv in H as (n3 & p3 & Hn3 & Hh3 & Hall3 & H).
  apply rep_inv in H as (n4 & p4 & Hn4 & Hh4 & Hall4 & H).
  destruct (Re.at_end Re.no_flags _) eqn:Hend; [|discriminate].
  apply at_end_inv in Hend.
  specialize (Hh1 4%nat eq_refl). specialize (Hh3 4%nat eq_refl).
  specialize (Hh4 1%nat eq_refl).
  set (s1 := PyStr.drop n1 p) in *. set (s2 := PyStr.drop n2 s1) in *.
  set (s3 := PyStr.drop n3 s2) in *. set (s4 := PyStr.drop n4 s3) in *.
  exists (PyStr.take n1 p), (PyStr.take n2 s1), (PyStr.take n3 s2), (PyStr.take n4 s3), s4.
  split.
  { unfold s4. rewrite (take_drop_string n4 s3). unfold s3.
    rewrite (take_drop_string n3 s2). unfold s2. rewrite (take_drop_string n2 s1).
    unfold s1. by rewrite (take_drop_string n1 p). }
  split; [split|].
  - rewrite <- Hall1. apply all_ext. intros c. symmetry. by apply in_cset_upper.
  - rewrite length_take_le; lia.
  - split; [rewrite <- Hall2; apply all_ext; intros c; symmetry; by apply in_cset_space|].
    split; [rewrite length_take_le; lia|].
    split; [split|].
    + rewrite <- Hall3. apply all_ext. intros c. symmetry. by apply in_cset_digit.
    + rewrite length_take_le; lia.
    + split; [rewrite <- Hall4; apply all_ext; intros c; symmetry; by apply in_cset_upper|].
      split; [rewrite length_take_le; lia|done].
Qed.

Lemma append_new_NoDup (x : string) (l : list string) :
  NoDup l -> NoDup (append_new x l).
Proof.
  intros Hl. unfold append_new. destruct (mem_str x l) eqn:Hx; [done|].
  apply mem_str_not_elem in Hx. apply NoDup_app. split; [done|].
  split; [|apply NoDup_singleton].
  intros y Hy Hy'. apply list_elem_of_singleton in Hy' as ->. done.
Qed.

Lemma append_new_Forall (P : string -> Prop) (x : string) (l : list string) :
  P x -> Forall P l -> Forall P (append_new x l).
Proof.
  intros Hx Hl. unfold append_new. destruct (mem_str x l); [done|].
  apply Forall_app. split; [done|]. by repeat constructor.
Qed.

(** X14: the prerequisites extracted from a description.  Whatever the
    description, no prerequisite is returned twice, and every prerequisite
    returned has the shape of a course code: it passed the last test of the
    extractor, against the pattern of a whole code. *)
Theorem extracted_prerequisites_are_course_codes (description : string) :
  NoDup (extract_prerequisites description)
  /\ Forall code_like (extract_prerequisites description)
  /\ Forall (fun p => is_Some (Re.match_start Re.no_flags strict_code_pattern p))
            (extract_prerequisites description).
Proof.
  unfold extract_prerequisites.
  apply (for_each_invariant
           (fun l => NoDup l /\ Forall code_like l
                     /\ Forall (fun p => is_Some (Re.match_start Re.no_flags
                                                    strict_code_pattern p)) l)).
  - intros prereq l (Hnd & Hshape & Hmatch). cbv zeta.
    destruct (Re.match_start Re.no_flags strict_code_pattern (normalize_code prereq))
      as [m|] eqn:Hm; [|done].
    split; [by apply append_new_NoDup|]. split.
    + apply append_new_Forall; [|done]. by eapply strict_code_shape.
    + apply append_new_Forall; [|done]. by rewrite Hm.
  - repeat split; constructor.
Qed.

(** ** The prefix of a department *)

Lemma startswith_space (p s : string) (c : ascii) :
  p <> "" -> no_space p = true -> PyStr.is_space c = true ->
  PyStr.startswith p (String c s) = false.
Proof.
  destruct p as [|a p]; [done|]. intros _ Hp Hc. cbn in *.
  apply andb_prop in Hp as [Ha _].
  destruct (Ascii.eqb_spec a c) as [->|]; [|done]. by rewrite Hc in Ha.
Qed.

Lemma contains_lstrip (p s : string) :
  p <> "" -> no_space p = true -> PyStr.contains p (PyStr.lstrip s) = PyStr.contains p s.
Proof.
  intros Hne Hp. induction s as [|c s IH]; [done|].
  cbn [PyStr.lstrip]. destruct (PyStr.is_space c) eqn:Hc; [|done].
  rewrite IH. cbn [PyStr.contains]. by rewrite (startswith_space p s c).
Qed.

Lemma startswith_rstrip (p s : string) :
  no_space p = true -> PyStr.startswith p (PyStr.rstrip s) = PyStr.startswith p s.
Proof.
  revert p. induction s as [|c s IH]; intros p Hp; [done|].
  destruct p as [|a p]; [by destruct (PyStr.rstrip _)|].
  cbn in Hp. apply andb_prop in Hp as [Ha Hp].
  cbn [PyStr.rstrip]. destruct (PyStr.rstrip s) as [|c2 r] eqn:Hr.
  - destruct (PyStr.is_space c) eqn:Hc.
    + cbn. destruct (Ascii.eqb_spec a c) as [->|]; [|done]. by rewrite Hc in Ha.
    + cbn [PyStr.startswith]. destruct (Ascii.eqb a c); [|done].
      rewrite <- (IH p Hp). by rewrite ?Hr.
  - cbn [PyStr.startswith]. destruct (Ascii.eqb a c); [|done].
    rewrite <- (IH p Hp). by rewrite ?Hr.
Qed.

Lemma contains_rstrip (p s : string) :
  p <> "" -> no_space p = true -> PyStr.contains p (PyStr.rstrip s) = PyStr.contains p s.
Proof.
  intros Hne Hp. induction s as [|c s IH]; [done|].
  assert (Hrhs : PyStr.contains p (String c s)
                 = PyStr.startswith p (PyStr.rstrip (String c s))
                   || PyStr.contains p (PyStr.rstrip s)).
  { cbn [PyStr.contains]. by rewrite startswith_rstrip, IH. }
  rewrite Hrhs. cbn [PyStr.rstrip]. destruct (PyStr.rstrip s) as [|c2 r] eqn:Hr.
  - destruct (PyStr.is_space c); [|done].
    destruct p; [done|]. reflexivity.
  - reflexivity.
Qed.

Lemma contains_strip (p s : string) :
  p <> "" -> no_space p = true -> PyStr.contains p (PyStr.strip s) = PyStr.contains p s.
Proof.
  intros Hne Hp. unfold PyStr.strip. by rewrite contains_rstrip, contains_lstrip.
Qed.

Lemma length_str_map (f : ascii -> ascii) (s : string) :
  String.length (PyStr.map f s) = String.length s.
Proof. induction s as [|c s IH]; [done|]. cbn. by rewrite IH. Qed.

(** X15: the prefix of a department.  For a name of ASCII characters it has
    at most four characters.  The table of known departments is searched in
    its order, and its first key is [art]: a name in which [art] occurs, in
    any case, gets the prefix [ART], whatever else it holds; so does the name
    [Unknown Department], which [_extract_department_from_url] gives for a
    url that it cannot read. *)
Theorem department_prefix_is_short_and_art_comes_first (department_name : string) :
  (ascii_text department_name = true ->
   (String.length (extract_department_prefix department_name) <= 4)%nat)
  /\ (PyStr.contains "art" (PyStr.lower department_name) = true ->
      extract_department_prefix department_name = "ART")
  /\ (forall url, Re.search Re.no_flags url_tail_pattern url = None ->
                  extract_department_prefix (extract_department_from_url url) = "ART").
Proof.
  split; [|split].
  - intros _. unfold extract_department_prefix.
    destruct (List.find _ dept_mappings) as [kp|] eqn:Hfind.
    + apply find_some in Hfind as [Hin _].
      assert (Hall : Forall (fun kp : string * string => (String.length (snd kp) <= 4)%nat)
                            dept_mappings).
      { unfold dept_mappings. repeat constructor; cbn; lia. }
      rewrite Forall_forall in Hall. by apply Hall, list_elem_of_In.
    + destruct (PyStr.split _) as [|w ws]; [apply Nat.le_0_l|].
      unfold PyStr.upper. rewrite length_str_map, length_take. lia.
  - intros Hart. unfold extract_department_prefix, dept_mappings. cbn [List.find fst snd].
    by rewrite contains_strip, Hart.
  - intros url Hurl. unfold extract_department_from_url. rewrite Hurl.
    vm_compute. reflexivity.
Qed.

(** ** The department of a program *)

Lemma url_segment (tail : Re.regex) (start : nat) (prev : option ascii) (s : string)
    (m : Re.match_) :
  1%nat ∉ group_numbers tail ->
  Re.match_at Re.no_flags
    (Re.Seq (Re.Lit "/") (Re.Seq (Re.Group 1 (Re.plus (Re.none_of [Re.IChar "/"]))) tail))
    start prev s = Some m ->
  group_text 1 m <> "".
Proof.
  intros Ht. unfold Re.match_at. cbn [Re.run Re.plus]. intros H.
  apply lit_inv in H as [_ [p1 H]].
  set (s1 := PyStr.drop _ s) in H. clearbody s1.
  apply rep_inv in H as (n & p2 & Hn & _ & _ & H).
  apply run_captures in H as (p3 & s3 & cs' & H & Hcs').
  injection H as <-. unfold group_text. cbn [Re.m_groups].
  rewrite group_app_other.
  - cbn [Re.group Nat.eqb default]. rewrite consumed_drop by apply Hn. unfold id.
    intros Hempty. assert (Hlen := length_take_le n s1 (proj2 Hn)).
    rewrite Hempty in Hlen. cbn in Hlen. lia.
  - eapply Forall_impl; [exact Hcs'|]. intros nc Hnc Heq. apply Ht. by rewrite <- Heq.
Qed.

Lemma truthy_length (s : string) : truthy s = true <-> (0 < String.length s)%nat.
Proof. destruct s; cbn; split; (done || lia). Qed.

Lemma length_title_from (b : bool) (s : string) :
  String.length (PyStr.title_from b s) = String.length s.
Proof.
  revert b. induction s as [|c s IH]; intros b; [done|]. cbn [PyStr.title_from].
  destruct (PyStr.is_alpha c); cbn; by rewrite IH.
Qed.

Lemma department_from_url_truthy (url : string) :
  truthy (extract_department_from_url url) = true.
Proof.
  unfold extract_department_from_url.
  destruct (Re.search Re.no_flags url_tail_pattern url) as [m|] eqn:Hm; [|done].
  apply search_match in Hm as (start & prev & s & Hm).
  apply url_segment in Hm; [|rewrite list_elem_of_In; cbn; tauto].
  apply truthy_length. unfold PyStr.title, PyStr.replace_char.
  rewrite length_title_from, length_str_map.
  destruct (group_text 1 m); [done|cbn; lia].
Qed.

Lemma classify_program_cases (program_name : string) (t l : string) :
  classify_program program_name = Some (t, l) ->
  (t, l) ∈ [("Bachelor", "undergraduate"); ("Master", "graduate");
            ("Certificate", "undergraduate"); ("Minor", "undergraduate")].
Proof.
  unfold classify_program. rewrite !elem_of_cons.
  repeat (destruct (PyStr.contains _ program_name); [intros H; injection H as <- <-; tauto|]).
  discriminate.
Qed.

(** X16: the programs that the extractor finds on a page.  No two entries
    of the dictionary have the same key, and every program is stored under
    its name.  Its type and level are those of the first of the words
    Bachelor, Master, Certificate, Minor that its name holds, so its level
    is graduate exactly when its type is Master; it has 120 credits and no
    requirement.  Its department is the one read from the url of the page,
    which is never empty. *)
Theorem extracted_programs_are_well_formed (content url : string) :
  let found := extract_programs_from_content content url in
  NoDup (PyDict.keys found)
  /\ truthy (extract_department_from_url url) = true
  /\ Forall (fun kp =>
               let p := snd kp in
               fst kp = p_name p
               /\ classify_program (p_name p) = Some (p_type p, p_level p)
               /\ (p_type p, p_level p)
                  ∈ [("Bachelor", "undergraduate"); ("Master", "graduate");
                     ("Certificate", "undergraduate"); ("Minor", "undergraduate")]
               /\ p_department p = extract_department_from_url url
               /\ p_code p = PyStr.upper (PyStr.replace_char " " "_" (p_name p))
               /\ p_description p = p_name p +:+ " program"
               /\ p_total_credits p = 120
               /\ p_requirements p = []) found.
Proof.
  cbv zeta.
  set (ok := fun kp : string * ProgramInfo =>
               fst kp = p_name (snd kp)
               /\ classify_program (p_name (snd kp))
                  = Some (p_type (snd kp), p_level (snd kp))
               /\ (p_type (snd kp), p_level (snd kp))
                  ∈ [("Bachelor", "undergraduate"); ("Master", "graduate");
                     ("Certificate", "undergraduate"); ("Minor", "undergraduate")]
               /\ p_department (snd kp) = extract_department_from_url url
               /\ p_code (snd kp)
                  = PyStr.upper (PyStr.replace_char " " "_" (p_name (snd kp)))
               /\ p_description (snd kp) = p_name (snd kp) +:+ " program"
               /\ p_total_credits (snd kp) = 120
               /\ p_requirements (snd kp) = []).
  assert (H : NoDup (PyDict.keys (extract_programs_from_content content url))
              /\ Forall ok (extract_programs_from_content content url)).
  { unfold extract_programs_from_content.
    apply (for_each_invariant (fun d => NoDup (PyDict.keys d) /\ Forall ok d));
      [|split; constructor].
    intros pattern d Hd.
    apply (for_each_invariant (fun d => NoDup (PyDict.keys d) /\ Forall ok d)); [|done].
    intros m d' [Hnd Hok]. unfold program_of_match.
    destruct (classify_program _) as [[t l]|] eqn:Hclass; [|done].
    split; [by apply dict_set_keys_NoDup|].
    apply dict_set_entries; [|done]. unfold ok. cbn.
    repeat split; try done. by eapply classify_program_cases. }
  destruct H as [Hnd Hok]. split; [done|]. split; [apply department_from_url_truthy|done].
Qed.

(** ** The tables of courses and of departments *)

Lemma first_by_loop {A R} (key : A -> string) (row : A -> R)
    (add : A -> list R * list string -> list R * list string) (xs : list A)
    (st : list R * list string) :
  (forall x st', add x st' = if mem_str (key x) (snd st') then st'
                             else (fst st' ++ [row x], snd st' ++ [key x])) ->
  for_each xs add st
  = (fst st ++ List.map row (first_by key (snd st) xs),
     snd st ++ List.map key (first_by key (snd st) xs)).
Proof.
  intros Hadd. revert st. induction xs as [|x xs IH]; intros [rows seen].
  - cbn. by rewrite !app_nil_r.
  - rewrite for_each_cons, IH, Hadd. cbn [fst snd first_by].
    destruct (mem_str (key x) seen); [done|]. cbn [fst snd List.map].
    by rewrite <- !app_assoc.
Qed.

Lemma first_by_sub {A} (key : A -> string) (seen : list string) (xs : list A) (x : A) :
  x ∈ first_by key seen xs -> x ∈ xs /\ key x ∉ seen.
Proof.
  revert seen. induction xs as [|y xs IH]; intros seen Hx; [by inversion Hx|].
  cbn [first_by] in Hx. destruct (mem_str (key y) seen) eqn:Hy.
  - apply IH in Hx as [Hx Hk]. split; [by apply elem_of_cons; right|done].
  - apply elem_of_cons in Hx as [->|Hx].
    + split; [by apply elem_of_cons; left|by apply mem_str_not_elem].
    + apply IH in Hx as [Hx Hk]. split; [by apply elem_of_cons; right|].
      intros Hin. apply Hk. apply elem_of_app. by left.
Qed.

Lemma first_by_NoDup {A} (key : A -> string) (seen : list string) (xs : list A) :
  NoDup (List.map key (first_by key seen xs)).
Proof.
  revert seen. induction xs as [|y xs IH]; intros seen; [constructor|].
  cbn [first_by]. destruct (mem_str (key y) seen); [apply IH|].
  cbn [List.map]. apply NoDup_cons. split; [|apply IH].
  rewrite list_elem_of_In, in_map_iff. intros (x & Hk & Hx).
  apply list_elem_of_In, first_by_sub in Hx as [_ Hx]. apply Hx.
  apply elem_of_app. right. rewrite Hk. by apply list_elem_of_singleton.
Qed.

Lemma first_by_covers {A} (key : A -> string) (seen : list string) (xs : list A) (x : A) :
  x ∈ xs -> key x ∈ seen \/ key x ∈ List.map key (first_by key seen xs).
Proof.
  revert seen. induction xs as [|y xs IH]; intros seen Hx; [by inversion Hx|].
  cbn [first_by]. apply elem_of_cons in Hx as [->|Hx].
  - destruct (mem_str (key y) seen) eqn:Hy; [left; by apply mem_str_elem|].
    right. cbn [List.map]. apply elem_of_cons. by left.
  - destruct (mem_str (key y) seen) eqn:Hy; [by apply IH|].
    destruct (IH (seen ++ [key y]) Hx) as [H|H].
    + apply elem_of_app in H as [H|H]; [by left|].
      apply list_elem_of_singleton in H. right. cbn [List.map].
      apply elem_of_cons. by left.
    + right. cbn [List.map]. apply elem_of_cons. by right.
Qed.

Lemma first_by_all {A} (key : A -> string) (seen : list string) (xs : list A) :
  NoDup (List.map key xs) -> (forall x, x ∈ xs -> key x ∉ seen) ->
  first_by key seen xs = xs.
Proof.
  revert seen. induction xs as [|y xs IH]; intros seen Hnd Hseen; [done|].
  cbn [List.map] in Hnd. apply NoDup_cons in Hnd as [Hy Hnd].
  cbn [first_by].
  rewrite (proj2 (mem_str_not_elem _ _) (Hseen y ltac:(apply elem_of_cons; by left))).
  f_equal. apply IH; [done|]. intros x Hx Hin.
  apply elem_of_app in Hin as [Hin|Hin].
  - by apply (Hseen x ltac:(apply elem_of_cons; by right)).
  - apply list_elem_of_singleton in Hin. apply Hy. rewrite <- Hin.
    rewrite list_elem_of_In. apply in_map. by apply list_elem_of_In.
Qed.

Lemma first_by_first {A} (key : A -> string) (seen : list string)
    (before rest : list A) (a : A) :
  key a ∉ seen -> key a ∉ List.map key before ->
  a ∈ first_by key seen (before ++ a :: rest).
Proof.
  revert seen. induction before as [|y before IH]; intros seen Hseen Hbefore.
  - cbn [app first_by]. rewrite (proj2 (mem_str_not_elem _ _) Hseen).
    apply elem_of_cons. by left.
  - cbn [List.map] in Hbefore. apply not_elem_of_cons in Hbefore as [Hne Hbefore].
    cbn [app first_by]. destruct (mem_str (key y) seen); [by apply IH|].
    apply elem_of_cons. right. apply IH; [|done].
    intros Hin. apply elem_of_app in Hin as [Hin|Hin]; [done|].
    by apply list_elem_of_singleton in Hin.
Qed.

Lemma course_records_first (courses : PyDict.t CourseInfo) :
  course_records courses = List.map course_data (first_by c_code [] (PyDict.values courses)).
Proof.
  unfold course_records. by rewrite (first_by_loop c_code course_data).
Qed.

Lemma department_records_first (departments : PyDict.t DepartmentInfo) :
  department_records departments
  = List.map department_data (first_by d_prefix [] (PyDict.values departments)).
Proof.
  unfold department_records. by rewrite (first_by_loop d_prefix department_data).
Qed.

Lemma batches_shape {A} (fuel batch_size : nat) (records : list A) :
  (0 < batch_size)%nat -> (length records <= fuel)%nat ->
  Forall (fun b => b <> [] /\ (length b <= batch_size)%nat)
         (batches fuel batch_size records)
  /\ (forall i b, batches fuel batch_size records !! i = Some b ->
                  (S i < length (batches fuel batch_size records))%nat ->
                  length b = batch_size).
Proof.
  intros Hb. revert records. induction fuel as [|fuel IH]; intros records Hlen.
  - cbn [batches]. split; [constructor|]. intros i b H. by rewrite lookup_nil in H.
  - destruct records as [|x records]; [split; [constructor|]; intros i b H; by inversion H|].
    cbn [batches].
    destruct (IH (skipn batch_size (x :: records))) as [IH1 IH2].
    { rewrite length_skipn. cbn [length] in *. lia. }
    split.
    + constructor; [|exact IH1]. split.
      * destruct batch_size; [lia|]. done.
      * rewrite length_firstn. lia.
    + intros [|i] b Hi Hlast.
      * cbn in Hi. injection Hi as <-. rewrite length_firstn.
        cbn [length] in Hlast.
        destruct (batches fuel batch_size (skipn batch_size (x :: records)))
          as [|b' bs] eqn:Hrest; [cbn in Hlast; lia|].
        destruct (skipn batch_size (x :: records)) as [|y ys] eqn:Hskip.
        { destruct fuel; discriminate. }
        assert (Hl := length_skipn batch_size (x :: records)).
        rewrite Hskip in Hl. cbn [length] in Hl. cbn [length]. lia.
      * cbn in Hi. cbn [length] in Hlast. apply (IH2 i b Hi). lia.
Qed.

(** X17: batches.  For a batch size that is not 0, the batches of a list of
    records, put together, are the list: no record is lost, repeated or
    moved.  No batch is empty, none has more records than the batch size,
    and every batch but the last has exactly that many. *)
Theorem batches_cover_the_records {A} (batch_size : nat) (records : list A) :
  (0 < batch_size)%nat ->
  let bs := batches (length records) batch_size records in
  concat bs = records
  /\ Forall (fun b => b <> [] /\ (length b <= batch_size)%nat) bs
  /\ (forall i b, bs !! i = Some b -> (S i < length bs)%nat -> length b = batch_size).
Proof.
  intros Hb bs. split; [by apply batches_concat|].
  by apply batches_shape.
Qed.

Lemma batches_cover_the_records_witness :
  List.map (@length nat) (batches 250 100 (seq 0 250)) = [100; 100; 50]%nat
  /\ concat (batches 250 100 (seq 0 250)) = seq 0 250.
Proof.
  split; [vm_compute; reflexivity|].
  exact (proj1 (batches_cover_the_records 100 (seq 0 250) ltac:(lia))).
Defined.

Lemma populate_courses_rows (E : academic_data) (T : tables) :
  academic_courses (populate_supabase_tables E T)
  = List.filter (fun r => negb (truthy (cr_course_code r))) (academic_courses T)
    ++ course_records (courses E).
Proof.
  unfold populate_supabase_tables. cbn [academic_courses].
  destruct (courses E) as [|kv cs] eqn:HE.
  - cbn. by rewrite app_nil_r.
  - rewrite for_each_append, batches_concat; [done | lia | done].
Qed.

Lemma populate_departments_rows (E : academic_data) (T : tables) :
  academic_departments (populate_supabase_tables E T)
  = List.filter (fun r => negb (truthy (dr_department_name r))) (academic_departments T)
    ++ department_records (departments E).
Proof.
  unfold populate_supabase_tables. cbn [academic_departments].
  destruct (departments E) as [|kv ds] eqn:HE; [|done].
  cbn. by rewrite app_nil_r.
Qed.

(** X18: the table of courses.  After the tables are populated, the table
    holds the rows that it held with an empty course code, and then one row
    for each course code of the collection, made from the first course with
    that code: no two of these rows have the same code, every course of the
    collection has a row with its code, and a stored description has at most
    1000 characters.  When the courses of the collection have distinct
    codes, as those of the extractor have, no course is skipped. *)
Theorem course_table_has_one_row_per_code (E : academic_data) (T : tables) :
  let rows := course_records (courses E) in
  academic_courses (populate_supabase_tables E T)
  = List.filter (fun r => negb (truthy (cr_course_code r))) (academic_courses T) ++ rows
  /\ NoDup (List.map cr_course_code rows)
  /\ (forall r, r ∈ rows -> exists c, c ∈ PyDict.values (courses E) /\ r = course_data c)
  /\ (forall c, c ∈ PyDict.values (courses E) ->
                exists r, r ∈ rows /\ cr_course_code r = c_code c)
  /\ Forall (fun r => forall d, cr_description r = Some d ->
                                (String.length d <= 1000)%nat) rows
  /\ (NoDup (List.map c_code (PyDict.values (courses E))) ->
      rows = List.map course_data (PyDict.values (courses E))).
Proof.
  cbv zeta. rewrite populate_courses_rows, course_records_first.
  split; [done|]. split; [|split; [|split; [|split]]].
  - rewrite List.map_map. apply (first_by_NoDup c_code).
  - intros r Hr. apply list_elem_of_In, in_map_iff in Hr as (c & <- & Hc).
    apply list_elem_of_In, first_by_sub in Hc as [Hc _]. eauto.
  - intros c Hc. destruct (first_by_covers c_code [] _ c Hc) as [H|H]; [by inversion H|].
    apply list_elem_of_In, in_map_iff in H as (c' & Hk & Hc').
    exists (course_data c'). split; [|done].
    apply list_elem_of_In, in_map. exact Hc'.
  - apply List.Forall_map, Forall_forall. intros c _ d. unfold course_data.
    cbn [cr_description].
    destruct (truthy (c_description c)); [|discriminate].
    intros H. assert (Hd : d = PyStr.take 1000 (c_description c)) by congruence.
    rewrite Hd, length_take. lia.
  - intros Hnd. rewrite first_by_all; [done|done|]. intros x _ H. by inversion H.
Qed.

Lemma build_graph_department_name (E : academic_data) (now : Z) (g : graph)
    (before after : list DepartmentInfo) (b : DepartmentInfo) :
  PyDict.values (departments E) = before ++ b :: after ->
  d_prefix b ∉ List.map d_prefix after ->
  prop_at (nodes (build_graph E now g)) (Department, d_prefix b) "name"
  = Some (VStr (d_name b)).
Proof.
  intros HE Hlast. rewrite build_graph_nodes. unfold populate_writes.
  rewrite HE, List.map_app. cbn [List.map]. unfold prop_at.
  rewrite (apply_writes_app [university_write now]).
  rewrite (apply_writes_app _ (List.map (course_write now) _ ++ _)).
  rewrite (apply_writes_app (List.map (department_write now) before)).
  rewrite apply_writes_cons. rewrite !apply_writes_untouched.
  - change (Department, d_prefix b) with (fst (department_write now b)).
    rewrite merge_set_lookup_eq. cbn [mbind option_bind].
    unfold set_props. cbn [department_write fold_left fst snd].
    repeat (rewrite lookup_insert_ne by done). by rewrite lookup_insert_eq.
  - rewrite List.map_map, list_elem_of_In, in_map_iff.
    intros (x & Hx & Hin). apply Hlast. rewrite list_elem_of_In, in_map_iff.
    exists x. split; [by injection Hx|done].
  - rewrite List.map_app, !List.map_map, elem_of_app, !list_elem_of_In, !in_map_iff.
    intros [(x & Hx & _)|(x & Hx & _)]; discriminate.
Qed.

(** X19: two departments with one prefix.  The table of departments gets
    one row for each prefix of the collection, made from the first
    department with that prefix, after the rows that it held with an empty
    name.  The graph node of the prefix, which is merged once for each
    department, ends with the name of the last one: when two departments
    share a prefix, the table names the first and the graph the last. *)
Theorem department_row_is_first_and_node_is_last (E : academic_data) (now : Z)
    (g : graph) (T : tables) (before middle after : list DepartmentInfo)
    (a b : DepartmentInfo) :
  PyDict.values (departments E) = before ++ a :: middle ++ b :: after ->
  d_prefix a = d_prefix b ->
  d_prefix a ∉ List.map d_prefix before ->
  d_prefix b ∉ List.map d_prefix after ->
  let rows := department_records (departments E) in
  academic_departments (populate_supabase_tables E T)
  = List.filter (fun r => negb (truthy (dr_department_name r))) (academic_departments T)
    ++ rows
  /\ NoDup (List.map dr_prefix rows)
  /\ department_data a ∈ rows
  /\ (forall r, r ∈ rows -> dr_prefix r = d_prefix a ->
                dr_department_name r = d_name a)
  /\ prop_at (nodes (build_graph E now g)) (Department, d_prefix a) "name"
     = Some (VStr (d_name b)).
Proof.
  intros HE Hab Hfirst Hlast. cbv zeta.
  rewrite populate_departments_rows, department_records_first, HE.
  assert (Hnd : NoDup (List.map dr_prefix
                         (List.map department_data
                            (first_by d_prefix [] (before ++ a :: middle ++ b :: after))))).
  { rewrite List.map_map. apply (first_by_NoDup d_prefix). }
  assert (Ha : department_data a
               ∈ List.map department_data
                   (first_by d_prefix [] (before ++ a :: middle ++ b :: after))).
  { apply list_elem_of_In, in_map, list_elem_of_In.
    apply first_by_first; [|done]. intros H. by inversion H. }
  split; [done|]. split; [done|]. split; [done|]. split.
  - intros r Hr Hp.
    assert (r = department_data a); [|by subst].
    apply list_elem_of_lookup in Hr as [i Hi], Ha as [j Hj].
    assert (Hij : i = j).
    { eapply NoDup_lookup; [exact Hnd|..].
      - rewrite list_lookup_fmap, Hi. reflexivity.
      - rewrite list_lookup_fmap, Hj. cbn. by rewrite Hp. }
    subst j. congruence.
  - rewrite Hab. apply (build_graph_department_name E now g (before ++ a :: middle) after b).
    + rewrite HE. by rewrite <- app_assoc.
    + done.
Qed.

Lemma department_row_is_first_and_node_is_last_witness :
  List.map dr_department_name (department_records (departments twin_departments))
  = ["Computer Science"]
  /\ prop_at (nodes (build_graph twin_departments 0 empty_graph)) (Department, "CS") "name"
     = Some (VStr "Computing").
Proof.
  split; [vm_compute; reflexivity|].
  refine (proj2 (proj2 (proj2 (proj2
            (department_row_is_first_and_node_is_last twin_departments 0 empty_graph
               {| academic_courses := []; academic_programs := [];
                  academic_departments := [] |}
               [] [] [] _ _ eq_refl eq_refl _ _))))).
  - intros H. by inversion H.
  - intros H. by inversion H.
Defined.

(** ** The listing queries *)

Lemma list_leb_total (l1 l2 : list string) :
  list_leb l1 l2 = true \/ list_leb l2 l1 = true.
Proof.
  revert l2. induction l1 as [|x l1 IH]; intros [|y l2]; cbn; auto.
  rewrite (String.eqb_sym y x). destruct (String.eqb x y); [apply IH|].
  apply String.leb_total.
Qed.

Lemma cypher_leb_total (a b : field) : cypher_leb a b = true \/ cypher_leb b a = true.
Proof.
  destruct a as [[s1|z1|l1|t1]|], b as [[s2|z2|l2|t2]|]; cbn; auto.
  - apply String.leb_total.
  - destruct (Z.leb_spec z1 z2); [by left|right; apply Z.leb_le; lia].
  - apply list_leb_total.
  - destruct (Z.leb_spec t1 t2); [by left|right; apply Z.leb_le; lia].
Qed.

#[local] Instance order_by_total {A} (key : A -> field) :
  Total (fun a b => cypher_leb (key a) (key b) = true).
Proof. intros a b. apply cypher_leb_total. Qed.

Lemma order_by_sorted {A} (key : A -> field) (rows : list A) :
  Sorted (fun a b => cypher_leb (key a) (key b) = true) (order_by key rows).
Proof. unfold order_by. apply (Sorted_merge_sort _). Qed.

Lemma order_by_elem {A} (key : A -> field) (rows : list A) (x : A) :
  x ∈ order_by key rows <-> x ∈ rows.
Proof. unfold order_by. by rewrite merge_sort_Permutation. Qed.

Lemma order_by_length {A} (key : A -> field) (rows : list A) :
  length (order_by key rows) = length rows.
Proof. unfold order_by. by rewrite merge_sort_Permutation. Qed.

Lemma Sorted_map {A B} (R : relation B) (f : A -> B) (l : list A) :
  Sorted (fun a b => R (f a) (f b)) l -> Sorted R (List.map f l).
Proof.
  induction 1 as [|x l Hl IH Hhd]; [constructor|]. cbn. constructor; [done|].
  destruct Hhd; constructor. done.
Qed.

Lemma Sorted_take {A} (R : relation A) (n : nat) (l : list A) :
  Sorted R l -> Sorted R (take n l).
Proof.
  intros Hl. revert n. induction Hl as [|x l Hl IH Hhd]; intros [|n]; cbn;
    try constructor; [apply IH|].
  destruct Hhd; destruct n; cbn; constructor. done.
Qed.

Lemma limit_rows_Some {A} (limit : Z) (rows out : list A) :
  limit_rows limit rows = Some out ->
  out = take (Z.to_nat limit) rows /\ 0 <= limit /\ Z.of_nat (length out) <= limit.
Proof.
  unfold limit_rows. destruct (Z.ltb_spec limit 0) as [Hneg|Hpos]; [discriminate|].
  intros H. injection H as <-. split; [done|]. split; [done|].
  rewrite list.length_take. lia.
Qed.

Lemma course_nodes_elem (g : graph) (k : string) (n : gmap string value) :
  (k, n) ∈ course_nodes g <-> course_node g k = Some n.
Proof.
  unfold course_nodes, course_node. rewrite list_elem_of_bind. split.
  - intros ([l k'] & Hkn & Hi). apply ids_with_label_elem in Hi as [_ Hl].
    cbn in Hl. subst l. destruct (nodes g !! _) as [n'|] eqn:Hn; [|by inversion Hkn].
    apply list_elem_of_singleton in Hkn. injection Hkn as -> ->. done.
  - intros Hn. exists (Course, k). split.
    + rewrite Hn. by apply list_elem_of_singleton.
    + apply ids_with_label_elem. split; [|done]. apply elem_of_dom. eauto.
Qed.

Lemma listed_rows (g : graph) (matches : string * gmap string value -> bool)
    (limit : Z) (rows : list CourseListing) (row : CourseListing) :
  limit_rows limit
    (List.map (listing g)
       (order_by (fun kn => snd kn !! "code") (List.filter matches (course_nodes g))))
  = Some rows ->
  row ∈ rows ->
  exists k n, course_node g k = Some n /\ matches (k, n) = true /\ row = listing g (k, n).
Proof.
  intros H Hrow. apply limit_rows_Some in H as (-> & _ & _).
  apply elem_of_take in Hrow as (i & Hrow & _). apply list_elem_of_lookup_2 in Hrow.
  apply list_elem_of_In, in_map_iff in Hrow as ([k n] & <- & Hkn).
  apply list_elem_of_In, order_by_elem, list_elem_of_In, filter_In in Hkn as [Hkn Hm].
  apply list_elem_of_In, course_nodes_elem in Hkn. eauto.
Qed.

Lemma listed_sorted (g : graph) (matches : string * gmap string value -> bool)
    (limit : Z) (rows : list CourseListing) :
  limit_rows limit
    (List.map (listing g)
       (order_by (fun kn => snd kn !! "code") (List.filter matches (course_nodes g))))
  = Some rows ->
  Sorted (fun a b => cypher_leb a b = true) (List.map cl_code rows).
Proof.
  intros H. apply limit_rows_Some in H as (-> & _ & _).
  apply Sorted_map, Sorted_take, Sorted_map. cbn [listing cl_code].
  apply (order_by_sorted (fun kn : string * gmap string value => snd kn !! "code")).
Qed.

Lemma cypher_eq_Some (a : field) (v : value) :
  cypher_eq a (Some v) = true <-> a = Some v.
Proof.
  destruct a as [x|]; cbn; [|by split].
  rewrite bool_decide_eq_true. split; [by intros ->|by intros [= ->]].
Qed.

(** X20: the courses of a level.  On a store where every node carries its
    key, for a limit that is not negative, [find_courses_by_level] returns
    at most [limit] rows, in the order of their codes; each row is a course
    of the graph with the level asked for and, when a department is given,
    with that department, listed with the prerequisites that the graph holds
    for it.  A negative limit is an error. *)
Theorem courses_by_level_are_filtered_and_sorted (g : graph) (level : string)
    (department : option string) (limit : Z) :
  keyed (nodes g) ->
  (limit < 0 -> find_courses_by_level g level department limit = None)
  /\ (0 <= limit ->
      exists rows,
        find_courses_by_level g level department limit = Some rows
        /\ Z.of_nat (length rows) <= limit
        /\ Sorted (fun a b => cypher_leb a b = true) (List.map cl_code rows)
        /\ forall row, row ∈ rows ->
             cl_level row = Some (VStr level)
             /\ (forall d, department = Some d -> d <> "" ->
                           cl_department row = Some (VStr d))
             /\ exists code,
                  cl_code row = Some (VStr code)
                  /\ is_Some (course_node g code)
                  /\ cl_prerequisites row = prerequisites_of g code).
Proof.
  intros Hk. split.
  - intros Hneg. unfold find_courses_by_level, limit_rows.
    by rewrite (proj2 (Z.ltb_lt _ _) Hneg).
  - intros Hpos.
    destruct (find_courses_by_level g level department limit) as [rows|] eqn:Hrows.
    2: { unfold find_courses_by_level, limit_rows in Hrows.
         rewrite (proj2 (Z.ltb_ge _ _) Hpos) in Hrows. discriminate. }
    exists rows. split; [done|]. unfold find_courses_by_level in Hrows. split; [|split].
    + by apply limit_rows_Some in Hrows as (_ & _ & ?).
    + by eapply listed_sorted.
    + intros row Hrow.
      destruct (listed_rows _ _ _ _ _ Hrows Hrow) as (k & n & Hn & Hm & ->).
      apply andb_prop in Hm as [Hlevel Hdep]. cbn [snd] in Hlevel, Hdep.
      apply cypher_eq_Some in Hlevel. cbn [listing cl_level cl_department cl_code
                                             cl_prerequisites fst snd].
      split; [done|]. split.
      * intros d -> Hd. destruct d as [|c d]; [done|]. cbn in Hdep.
        by apply cypher_eq_Some in Hdep.
      * exists k. split; [|split; [eauto|done]].
        exact (Hk Course k n Hn).
Qed.

Lemma courses_by_level_are_filtered_and_sorted_witness :
  (fun rows => List.map cl_code rows)
    <$> find_courses_by_level cs_graph "lower_division" None 2
  = Some [Some (VStr "CS 1400"); Some (VStr "CS 1410")].
Proof.
  destruct (build_graph_well_formed cs_catalog 0 empty_graph) as [Hk _];
    [apply empty_graph_well_formed..|].
  destruct (proj2 (courses_by_level_are_filtered_and_sorted cs_graph "lower_division"
                     None 2 Hk) ltac:(lia)) as (rows & Hrows & _).
  rewrite Hrows.
  assert (H : Some rows = find_courses_by_level cs_graph "lower_division" None 2)
    by (symmetry; exact Hrows).
  vm_compute in H. injection H as ->. reflexivity.
Defined.

Lemma no_row_listed (g : graph) (matches : string * gmap string value -> bool)
    (limit : Z) :
  0 <= limit ->
  (forall k n, course_node g k = Some n -> matches (k, n) = false) ->
  limit_rows limit
    (List.map (listing g)
       (order_by (fun kn => snd kn !! "code") (List.filter matches (course_nodes g))))
  = Some [].
Proof.
  intros Hpos Hnone. rewrite filter_none.
  - unfold limit_rows. rewrite (proj2 (Z.ltb_ge _ _) Hpos). cbn. by rewrite take_nil.
  - apply Forall_forall. intros [k n] Hkn. apply Hnone. by apply course_nodes_elem.
Qed.

(** X21: the listing queries on a graph that the builder wrote.  On a graph
    built from the empty one, no course has a department, so
    [find_courses_by_level] with a department returns no row, and
    [find_alternative_courses] returns the same rows with and without
    [same_department].  When the levels of the courses are those that the
    extractor gives, [find_courses_by_level] returns no row for any other
    level, the three levels of its own documentation included. *)
Theorem listings_on_a_built_graph (E : academic_data) (now limit : Z) :
  0 <= limit ->
  let g := build_graph E now empty_graph in
  (forall level d, d <> "" -> find_courses_by_level g level (Some d) limit = Some [])
  /\ (Forall (fun c => extractor_level (c_level c)) (PyDict.values (courses E)) ->
      forall level department,
        level <> "lower_division" -> level <> "upper_division" ->
        find_courses_by_level g level department limit = Some [])
  /\ (forall course_code,
        find_alternative_courses g course_code true limit
        = find_alternative_courses g course_code false limit).
Proof.
  intros Hpos g. split; [|split].
  - intros level d Hd. unfold find_courses_by_level. apply no_row_listed; [done|].
    intros k n Hn. cbn [snd].
    destruct (built_graph_plain_courses E now k n Hn) as [_ Hdep].
    rewrite Hdep. destruct d; [done|]. cbn. apply andb_false_r.
  - intros HE level department Hl1 Hl2. unfold find_courses_by_level.
    apply no_row_listed; [done|]. intros k n Hn. cbn [snd].
    destruct (built_graph_courses E now HE k n Hn) as ((l & Hl & Hlevel) & _).
    rewrite Hl. cbn [cypher_eq].
    rewrite bool_decide_eq_false_2; [done|].
    intros Heq. injection Heq as ->. destruct Hlevel; done.
  - intros course_code. unfold find_alternative_courses.
    destruct (course_node g course_code) as [n|] eqn:Hn; [|done].
    destruct (built_graph_plain_courses E now _ _ Hn) as [_ Hdep].
    rewrite Hdep. done.
Qed.

Lemma listings_on_a_built_graph_witness :
  find_courses_by_level cs_graph "upper-division" None 50 = Some []
  /\ find_courses_by_level cs_graph "lower_division" (Some "Computer Science") 50 = Some [].
Proof.
  destruct (listings_on_a_built_graph cs_catalog 0 50 ltac:(lia)) as (H1 & H2 & _).
  split.
  - apply H2; [|done..].
    unfold cs_catalog. cbn [courses PyDict.values List.map snd].
    repeat constructor; vm_compute; tauto.
  - by apply H1.
Defined.

(** X22: alternative courses.  On a store where every node carries its key,
    [find_alternative_courses] returns no row for a course that is not in
    the graph, or that has no level.  For a limit that is not negative it
    returns at most [limit] rows, in the order of their codes; no row is
    the course itself, every row has the level of the course and, when the
    credits of the course are not 0, its credits. *)
Theorem alternatives_differ_and_share_the_level (g : graph) (course_code : string)
    (same_department : bool) (limit : Z) :
  keyed (nodes g) -> 0 <= limit ->
  exists rows,
    find_alternative_courses g course_code same_department limit = Some rows
    /\ Z.of_nat (length rows) <= limit
    /\ Sorted (fun a b => cypher_leb a b = true) (List.map cl_code rows)
    /\ (course_node g course_code = None -> rows = [])
    /\ (forall n, course_node g course_code = Some n ->
          (n !! "level" = None -> rows = [])
          /\ forall row, row ∈ rows ->
               cl_code row <> Some (VStr course_code)
               /\ is_Some (cl_level row)
               /\ cl_level row = n !! "level"
               /\ (py_truthy (n !! "credits") = true ->
                   Some (cl_credits row) = n !! "credits")).
Proof.
  intros Hk Hpos. unfold find_alternative_courses.
  destruct (course_node g course_code) as [n|] eqn:Hn.
  2: { exists []. split; [done|]. split; [cbn; lia|]. split; [constructor|].
       split; [done|]. intros n' Hn'. discriminate. }
  match goal with
  | |- exists rows, ?q = Some rows /\ _ => destruct q as [rows|] eqn:Hrows
  end.
  2: { unfold limit_rows in Hrows. rewrite (proj2 (Z.ltb_ge _ _) Hpos) in Hrows.
       discriminate. }
  exists rows. split; [done|]. split; [|split; [|split]].
  - by apply limit_rows_Some in Hrows as (_ & _ & ?).
  - by eapply listed_sorted.
  - discriminate.
  - intros n' Hn'. injection Hn' as <-. split.
    + intros Hlevel. destruct rows as [|row rows]; [done|]. exfalso.
      destruct (listed_rows _ _ _ _ row Hrows ltac:(apply elem_of_cons; by left))
        as (k & a & _ & Hm & _).
      rewrite Hlevel in Hm. cbn [snd] in Hm.
      destruct (cypher_neq _ _), (a !! "level"); discriminate.
    + intros row Hrow.
      destruct (listed_rows _ _ _ _ _ Hrows Hrow) as (k & a & Ha & Hm & ->).
      cbn [snd] in Hm. apply andb_prop in Hm as [Hm Hcredits].
      apply andb_prop in Hm as [Hm _]. apply andb_prop in Hm as [Hcode Hlevel].
      cbn [listing cl_code cl_level cl_credits snd].
      split; [|split; [|split]].
      * intros Heq. rewrite Heq in Hcode. cbn in Hcode.
        by apply bool_decide_eq_true in Hcode.
      * destruct (a !! "level"); [eauto|discriminate].
      * destruct (a !! "level") as [x|], (n !! "level") as [y|]; try discriminate.
        cbn in Hlevel. apply bool_decide_eq_true in Hlevel. by subst.
      * intros Htruthy. rewrite Htruthy in Hcredits.
        destruct (a !! "credits") as [x|] eqn:Hx, (n !! "credits") as [y|] eqn:Hy;
          try discriminate.
        cbn in Hcredits. apply bool_decide_eq_true in Hcredits. subst y.
        unfold or_3. by rewrite Htruthy.
Qed.

Lemma alternatives_differ_and_share_the_level_witness :
  (fun rows => List.map cl_code rows) <$> find_alternative_courses cs_graph "CS 1400" true 10
  = Some [Some (VStr "CS 1410"); Some (VStr "CS 2420")].
Proof.
  destruct (build_graph_well_formed cs_catalog 0 empty_graph) as [Hk _];
    [apply empty_graph_well_formed..|].
  destruct (alternatives_differ_and_share_the_level cs_graph "CS 1400" true 10 Hk
              ltac:(lia)) as (rows & Hrows & _).
  rewrite Hrows.
  assert (H : Some rows = find_alternative_courses cs_graph "CS 1400" true 10)
    by (symmetry; exact Hrows).
  vm_compute in H. injection H as ->. reflexivity.
Defined.

(** ** The direct prerequisites *)

Lemma node_code_keyed (g : graph) (p : string) :
  keyed (nodes g) -> (Course, p) ∈ dom (nodes g) ->
  node_prop g "code" (Course, p) = Some (VStr p).
Proof.
  intros Hk Hd. unfold node_prop.
  destruct (nodes g !! _) as [n|] eqn:Hn.
  - cbn. exact (Hk Course p n Hn).
  - exfalso. by apply (not_elem_of_dom (nodes g)) in Hn.
Qed.

Lemma prerequisite_row_elem (g : graph) (course_code : string) (e : edge) (x : field) :
  keyed (nodes g) ->
  x ∈ prerequisite_row g course_code e
  <-> exists p, e = ((Course, p), PREREQUISITE_FOR, (Course, course_code))
                /\ (Course, p) ∈ dom (nodes g)
                /\ (Course, course_code) ∈ dom (nodes g)
                /\ x = Some (VStr p).
Proof.
  intros Hk. unfold prerequisite_row. split.
  - destruct e as [[[[] pk] []] [[] ck]]; try (intros H; by inversion H).
    destruct (String.eqb_spec ck course_code) as [->|]; [|intros H; by inversion H].
    cbn [andb].
    destruct (has_node g (Course, pk)) eqn:Hp; [|intros H; by inversion H].
    destruct (has_node g (Course, course_code)) eqn:Hc; [|intros H; by inversion H].
    unfold has_node in Hp, Hc. apply bool_decide_eq_true in Hp, Hc. cbn [andb].
    intros H. apply list_elem_of_singleton in H as ->. exists pk.
    repeat split; try done. by apply node_code_keyed.
  - intros (p & -> & Hp & Hc & ->). rewrite String.eqb_refl. unfold has_node.
    rewrite !bool_decide_eq_true_2 by done. cbn [andb].
    apply list_elem_of_singleton. symmetry. by apply node_code_keyed.
Qed.

(** X23: the direct prerequisites of a course.  On a store where every node
    carries its key, [get_course_prerequisites] returns codes in their
    order, none of them [null]; for a course of the graph, a code that is
    not empty is returned exactly when it is among the prerequisites that
    sequence validation checks for the course; and when no relationship
    occurs twice in the graph, no code is returned twice. *)
Theorem direct_prerequisites_are_sorted_codes (g : graph) (course_code : string) :
  keyed (nodes g) ->
  let prerequisites := get_course_prerequisites g course_code in
  Sorted (fun a b => cypher_leb a b = true) prerequisites
  /\ Forall (fun x => exists p, x = Some (VStr p)) prerequisites
  /\ (is_Some (course_node g course_code) ->
      forall p, p <> "" ->
        (Some (VStr p) ∈ prerequisites <-> p ∈ prerequisites_of g course_code))
  /\ (NoDup (edges g) -> NoDup prerequisites).
Proof.
  intros Hk. cbv zeta. unfold get_course_prerequisites.
  split; [apply (order_by_sorted (fun v : field => v))|]. split; [|split].
  - apply Forall_forall. intros x Hx.
    apply order_by_elem, list_elem_of_bind in Hx as (e & Hx & _).
    apply (prerequisite_row_elem _ _ _ _ Hk) in Hx as (p & _ & _ & _ & ->). eauto.
  - intros [n Hn] p Hp. rewrite order_by_elem, list_elem_of_bind.
    rewrite (prerequisites_of_keyed _ _ _ Hk). split.
    + intros (e & Hx & He).
      apply (prerequisite_row_elem _ _ _ _ Hk) in Hx as (p' & -> & Hd & _ & Heq).
      injection Heq as <-. done.
    + intros (_ & Hd & He). eexists. split; [|exact He].
      apply (prerequisite_row_elem _ _ _ _ Hk). exists p. repeat split; try done.
      apply elem_of_dom. eauto.
  - intros Hnd. unfold order_by. rewrite merge_sort_Permutation.
    induction Hnd as [|e es He Hes IH]; [constructor|].
    cbn [mbind list_bind]. apply NoDup_app. split; [|split; [|exact IH]].
    + unfold prerequisite_row.
      destruct e as [[[[] pk] []] [[] ck]]; try constructor.
      destruct (_ && _); [apply NoDup_singleton|constructor].
    + intros x Hx Hx'. apply list_elem_of_bind in Hx' as (e' & Hx' & He').
      apply (prerequisite_row_elem _ _ _ _ Hk) in Hx as (p & -> & _ & _ & ->).
      apply (prerequisite_row_elem _ _ _ _ Hk) in Hx' as (p' & -> & _ & _ & Heq).
      injection Heq as <-. done.
Qed.

Lemma direct_prerequisites_are_sorted_codes_witness :
  get_course_prerequisites cs_graph "CS 2420" = [Some (VStr "CS 1410")]
  /\ Sorted (fun a b => cypher_leb a b = true) (get_course_prerequisites cs_graph "CS 2420").
Proof.
  split; [vm_compute; reflexivity|].
  destruct (build_graph_well_formed cs_catalog 0 empty_graph) as [Hk _];
    [apply empty_graph_well_formed..|].
  exact (proj1 (direct_prerequisites_are_sorted_codes cs_graph "CS 2420" Hk)).
Defined.

(** ** A course listed twice *)

Lemma dict_set_same {V} (k : string) (v : V) (d : PyDict.t V) :
  PyDict.get k d = Some v -> PyDict.set k v d = d.
Proof.
  induction d as [|[k' v'] d IH]; [discriminate|]. cbn [PyDict.get PyDict.set].
  destruct (String.eqb_spec k k') as [->|Hne].
  - intros H. by injection H as ->.
  - intros H. by rewrite IH.
Qed.

Lemma for_each_fixed {A S} (f : A -> S -> S) (xs : list A) (s : S) :
  (forall x, x ∈ xs -> f x s = s) -> for_each xs f s = s.
Proof.
  induction xs as [|x xs IH]; intros Hf; [done|].
  rewrite for_each_cons, Hf by (apply elem_of_cons; by left).
  apply IH. intros y Hy. apply Hf. apply elem_of_cons. by right.
Qed.

Lemma collect_course_info_twice (g : graph) (l1 l2 : list string) :
  (forall c, c ∈ l2 -> c ∈ l1) ->
  collect_course_info g (l1 ++ l2) = collect_course_info g l1.
Proof.
  intros Hsub. unfold collect_course_info. rewrite for_each_app.
  fold (collect_course_info g l1). apply for_each_fixed. intros c Hc.
  destruct (course_query g c) as [r|] eqn:Hr; [|done].
  apply dict_set_same. rewrite collect_course_info_get, Hr.
  by rewrite (proj2 (mem_str_elem c l1) (Hsub c Hc)).
Qed.

Lemma validation_statistics (g : graph) (course_codes : list string) (r : validation) :
  validate_course_sequence g course_codes = Some r ->
  course_details_of r = collect_course_info g course_codes
  /\ py_sum (List.map cd_credits (PyDict.values (collect_course_info g course_codes)))
     = Some (st_total_credits (statistics r))
  /\ py_sum (List.map cd_credits
               (List.filter (fun i => is_upper_division (cd_level i))
                  (PyDict.values (collect_course_info g course_codes))))
     = Some (st_upper_division_credits (statistics r))
  /\ py_set (List.map cd_department (PyDict.values (collect_course_info g course_codes)))
     = Some (st_disciplines (statistics r))
  /\ st_total_courses (statistics r)
     = Z.of_nat (length (collect_course_info g course_codes))
  /\ st_discipline_count (statistics r)
     = Z.of_nat (length (st_disciplines (statistics r))).
Proof.
  unfold validate_course_sequence.
  destruct (py_sum (List.map cd_credits
                      (PyDict.values (collect_course_info g course_codes))))
    as [total|]; [|discriminate].
  cbn [mbind option_bind].
  destruct (py_sum (List.map cd_credits (List.filter _ _))) as [upper|]; [|discriminate].
  cbn [mbind option_bind].
  destruct (py_set _) as [disciplines|]; [|discriminate]. cbn [mbind option_bind].
  intros H. injection H as <-. done.
Qed.

(** X24: sequence validation counts a course once.  The statistics and the
    course details of a list do not change when courses of the list are
    listed again after it: the credits of a repeated course are counted
    once, where the degree analysis counts them again. *)
Theorem validation_counts_a_course_once (g : graph) (course_codes again : list string)
    (r r' : validation) :
  (forall c, c ∈ again -> c ∈ course_codes) ->
  validate_course_sequence g course_codes = Some r ->
  validate_course_sequence g (course_codes ++ again) = Some r' ->
  statistics r' = statistics r /\ course_details_of r' = course_details_of r.
Proof.
  intros Hsub Hr Hr'.
  apply validation_statistics in Hr as (Hd & Ht & Hu & Hs & Hn & Hc).
  apply validation_statistics in Hr' as (Hd' & Ht' & Hu' & Hs' & Hn' & Hc').
  rewrite (collect_course_info_twice g _ _ Hsub) in Hd', Ht', Hu', Hs', Hn'.
  split; [|congruence].
  destruct (statistics r) as [n t u s c], (statistics r') as [n' t' u' s' c'].
  cbn in *. assert (s' = s) by congruence. subst s'. f_equal; congruence.
Qed.

Lemma validation_counts_a_course_once_witness :
  (fun r => st_total_credits (statistics r))
    <$> validate_course_sequence transcript_graph (transcript ++ transcript)
  = Some 125.
Proof.
  destruct (validate_course_sequence transcript_graph transcript) as [r|] eqn:Hr;
    [|vm_compute in Hr; discriminate].
  destruct (validate_course_sequence transcript_graph (transcript ++ transcript))
    as [r'|] eqn:Hr'; [|vm_compute in Hr'; discriminate].
  destruct (validation_counts_a_course_once transcript_graph transcript transcript r r'
              (fun c H => H) Hr Hr') as [Hs _].
  cbn [fmap option_fmap option_map]. rewrite Hs.
  assert (H : Some r = validate_course_sequence transcript_graph transcript)
    by (symmetry; exact Hr).
  vm_compute in H. injection H as ->. reflexivity.
Defined.

(** ** The description of a course *)

Lemma length_app_string (a b : string) :
  String.length (a +:+ b) = (String.length a + String.length b)%nat.
Proof.
  induction a as [|c a IH]; [done|].
  change (String c a +:+ b) with (String c (a +:+ b)). cbn. by rewrite IH.
Qed.

Lemma sub_scan_length (fl : Re.flags) (r : Re.regex) (repl : string) (s : string) :
  (String.length repl <= 1)%nat ->
  forall skip prev,
    (String.length (Re.sub_scan fl r repl skip prev s) <= String.length s)%nat.
Proof.
  intros Hrepl. induction s as [|c s IH]; intros skip prev; [done|].
  cbn [Re.sub_scan]. destruct skip as [|skip].
  - destruct (Re.try_at fl r 0 prev (String c s)) as [m|].
    + rewrite length_app_string. specialize (IH (Nat.pred (String.length (Re.m_text m)))
                                               (Some c)). cbn [String.length]. lia.
    + specialize (IH 0%nat (Some c)). cbn [String.length]. lia.
  - specialize (IH skip (Some c)). cbn [String.length]. lia.
Qed.

Lemma length_lstrip (s : string) : (String.length (PyStr.lstrip s) <= String.length s)%nat.
Proof.
  induction s as [|c s IH]; [done|]. cbn [PyStr.lstrip].
  destruct (PyStr.is_space c); cbn [String.length]; lia.
Qed.

Lemma length_rstrip (s : string) : (String.length (PyStr.rstrip s) <= String.length s)%nat.
Proof.
  induction s as [|c s IH]; [done|]. cbn [PyStr.rstrip].
  destruct (PyStr.rstrip s) as [|c' r].
  - destruct (PyStr.is_space c); cbn [String.length]; lia.
  - cbn [String.length] in *. lia.
Qed.

Lemma rep_zero_Some {R} (fl : Re.flags) (cs : Re.cset) (hi : option nat) (greedy : bool)
    (prev : option ascii) (s : string) (k : option ascii -> string -> option R) :
  (forall p t, is_Some (k p t)) -> is_Some (Re.rep fl cs 0 hi greedy prev s k).
Proof.
  intros Hk. destruct s as [|c s]; cbn [Re.rep]; [apply Hk|].
  destruct (_ && _); [|apply Hk].
  destruct (Hk prev (String c s)) as [x Hx]. rewrite Hx.
  destruct greedy; cbn; [|eauto].
  destruct (Re.rep _ _ _ _ _ _ _ _); cbn; eauto.
Qed.

Lemma whitespace_is_matched (start : nat) (prev : option ascii) (c : ascii) (s : string) :
  PyStr.is_space c = true ->
  is_Some (Re.try_at Re.no_flags whitespace_run start prev (String c s)).
Proof.
  intros Hc. unfold Re.try_at.
  destruct (Re.match_at Re.no_flags whitespace_run start prev (String c s)) as [m|] eqn:Hm.
  - unfold Re.match_at, whitespace_run, Re.plus in Hm. cbn [Re.run] in Hm.
    apply rep_inv in Hm as (n & p' & Hn & _ & _ & Hm). injection Hm as <-.
    cbn [Re.m_text]. rewrite consumed_drop by lia.
    destruct n; [lia|]. cbn. eauto.
  - exfalso. unfold Re.match_at, whitespace_run, Re.plus in Hm. cbn [Re.run Re.rep] in Hm.
    rewrite in_cset_space, Hc in Hm by done. cbn [andb Re.hi_allows Nat.pred] in Hm.
    match type of Hm with
    | Re.orelse ?a _ = None =>
        assert (Ha : is_Some a) by (apply rep_zero_Some; eauto)
    end.
    destruct Ha as [x Hx]. rewrite Hx in Hm. discriminate.
Qed.

Lemma all_app_string (P : ascii -> bool) (a b : string) :
  PyStr.all P (a +:+ b) = PyStr.all P a && PyStr.all P b.
Proof.
  induction a as [|c a IH]; [done|].
  change (String c a +:+ b) with (String c (a +:+ b)). cbn. by rewrite IH, andb_assoc.
Qed.

Lemma whitespace_sub_line (s : string) :
  forall skip prev,
    PyStr.all line_char (Re.sub_scan Re.no_flags whitespace_run " " skip prev s) = true.
Proof.
  induction s as [|c s IH]; intros skip prev; [done|].
  cbn [Re.sub_scan]. destruct skip as [|skip]; [|apply IH].
  destruct (Re.try_at Re.no_flags whitespace_run 0 prev (String c s)) as [m|] eqn:Hm.
  - rewrite all_app_string, IH. reflexivity.
  - cbn [PyStr.all]. rewrite IH, andb_true_r. unfold line_char.
    destruct (PyStr.is_space c) eqn:Hc; [|done].
    destruct (whitespace_is_matched 0 prev c s Hc) as [m Hm']. congruence.
Qed.

Lemma deletion_keeps_all (P : ascii -> bool) (fl : Re.flags) (r : Re.regex) (s : string) :
  PyStr.all P s = true ->
  forall skip prev, PyStr.all P (Re.sub_scan fl r "" skip prev s) = true.
Proof.
  induction s as [|c s IH]; intros Hs skip prev; [done|].
  cbn [PyStr.all] in Hs. apply andb_prop in Hs as [Hc Hs].
  cbn [Re.sub_scan]. destruct skip as [|skip]; [|by apply IH].
  destruct (Re.try_at fl r 0 prev (String c s)) as [m|].
  - change ("" +:+ ?x) with x. by apply IH.
  - cbn [PyStr.all]. by rewrite Hc, IH.
Qed.

(** X25: the description of a course.  Whatever follows the title in the
    page, the description has at most 2000 characters and is one line: its
    only white space is the space. *)
Theorem course_description_is_one_line (content_after : string) :
  let description := extract_course_description content_after in
  (String.length description <= 2000)%nat
  /\ PyStr.all line_char description = true.
Proof.
  cbv zeta. unfold extract_course_description, Re.sub. split.
  - etransitivity; [apply sub_scan_length; cbn; lia|].
    etransitivity; [apply sub_scan_length; cbn; lia|].
    unfold PyStr.strip.
    etransitivity; [apply length_rstrip|]. etransitivity; [apply length_lstrip|].
    rewrite !length_take. lia.
  - apply deletion_keeps_all, whitespace_sub_line.
Qed.

(** ** The department of a page *)

Lemma max_by_spec {A} (key : A -> Z) (xs : list A) :
  forall best,
    max_by key best xs ∈ best :: xs
    /\ forall x, x ∈ best :: xs -> key x <= key (max_by key best xs).
Proof.
  induction xs as [|y xs IH]; intros best; cbn [max_by].
  - split; [apply elem_of_cons; by left|].
    intros x Hx. apply elem_of_cons in Hx as [->|Hx]; [lia|by inversion Hx].
  - destruct (IH (if key best <? key y then y else best)) as [Hin Hmax]. split.
    + apply elem_of_cons in Hin as [Hin|Hin].
      * rewrite Hin. destruct (key best <? key y).
        -- apply elem_of_cons. right. apply elem_of_cons. by left.
        -- apply elem_of_cons. by left.
      * apply elem_of_cons. right. apply elem_of_cons. by right.
    + intros x Hx.
      assert (Hb : key best <= key (if key best <? key y then y else best)
                   /\ key y <= key (if key best <? key y then y else best)).
      { destruct (Z.ltb_spec (key best) (key y)); lia. }
      assert (Hcur : key (if key best <? key y then y else best)
                     <= key (max_by key (if key best <? key y then y else best) xs)).
      { apply Hmax. apply elem_of_cons. by left. }
      apply elem_of_cons in Hx as [->|Hx]; [lia|].
      apply elem_of_cons in Hx as [->|Hx]; [lia|].
      apply Hmax. apply elem_of_cons. by right.
Qed.

Lemma prefix_pattern_group (start : nat) (prev : option ascii) (s : string)
    (m : Re.match_) :
  Re.match_at Re.no_flags prefix_pattern start prev s = Some m ->
  prefix_shape (group_text 1 m).
Proof.
  unfold Re.match_at, prefix_pattern. cbn [Re.cat Re.run Re.between Re.plus Re.exactly].
  intros H.
  apply rep_inv in H as (n1 & p1 & Hn1 & Hh1 & Hall1 & H).
  apply rep_inv in H as (n2 & p2 & Hn2 & _ & _ & H).
  apply rep_inv in H as (n3 & p3 & Hn3 & Hh3 & Hall3 & H).
  injection H as <-. unfold group_text. cbn [Re.m_groups Re.group Nat.eqb default].
  rewrite consumed_drop by apply Hn1. unfold id. split.
  - rewrite <- Hall1. apply all_ext. intros c. symmetry. by apply in_cset_upper.
  - rewrite length_take_le by apply Hn1. specialize (Hh1 _ eq_refl). lia.
Qed.

Lemma found_prefixes_shape (content : string) (p : string) :
  p ∈ found_prefixes content -> prefix_shape p.
Proof.
  unfold found_prefixes. intros Hp. apply list_elem_of_fmap in Hp as (m & -> & Hm).
  apply finditer_elem in Hm as (start & prev & s & Hm).
  by eapply prefix_pattern_group.
Qed.

Lemma iterates_elem (iteration : list string) (content : string) (p : string) :
  iterates_prefixes iteration content ->
  p ∈ iteration <-> p ∈ found_prefixes content.
Proof. intros H. unfold iterates_prefixes in H. rewrite H. apply elem_of_remove_dups. Qed.

Lemma main_prefix_spec (iteration : list string) (content : string) :
  iterates_prefixes iteration content ->
  let main_prefix :=
    match iteration with
    | [] => "UNKN"
    | p :: prefixes => max_by (fun p => str_count p content) p prefixes
    end in
  (found_prefixes content = [] -> main_prefix = "UNKN")
  /\ (found_prefixes content <> [] ->
        main_prefix ∈ found_prefixes content
        /\ forall p, p ∈ found_prefixes content ->
                     str_count p content <= str_count main_prefix content).
Proof.
  intros Hit. cbv zeta. split.
  - intros Hnone. unfold iterates_prefixes in Hit. rewrite Hnone in Hit. cbn in Hit.
    by apply Permutation_nil_r in Hit as ->.
  - intros Hsome. destruct iteration as [|p0 prefixes].
    + exfalso. destruct (found_prefixes content) as [|q l] eqn:Hq; [done|].
      assert (Hin : q ∈ @nil string); [|by inversion Hin].
      apply (iterates_elem _ content); [done|]. rewrite Hq. apply elem_of_cons. by left.
    + destruct (max_by_spec (fun p => str_count p content) prefixes p0) as [Hin Hmax].
      split; [by apply (iterates_elem _ _ _ Hit)|].
      intros p Hp. apply Hmax. by apply (iterates_elem _ _ _ Hit).
Qed.

(** X26: the department of a page.  A page gives at most one department,
    under the name that [_extract_department_from_url] reads from the URL,
    whatever the order in which the set of prefixes is iterated.  Its prefix
    is [UNKN] when the page shows no course prefix; otherwise it is one of
    the prefixes found, two to four capitals, and no other prefix found
    occurs more often in the page.  The order of iteration can make a
    difference only between prefixes that occur equally often. *)
Theorem department_of_a_page (iteration iteration' : list string) (content url : string)
    (Hiteration : iterates_prefixes iteration content)
    (Hiteration' : iterates_prefixes iteration' content) :
  let found := extract_departments_from_content iteration content url in
  let found' := extract_departments_from_content iteration' content url in
  (length found <= 1)%nat
  /\ PyDict.keys found' = PyDict.keys found
  /\ forall name d, (name, d) ∈ found ->
       name = extract_department_from_url url
       /\ d_name d = name
       /\ (found_prefixes content = [] -> d_prefix d = "UNKN")
       /\ (found_prefixes content <> [] ->
             d_prefix d ∈ found_prefixes content
             /\ prefix_shape (d_prefix d)
             /\ forall p, p ∈ found_prefixes content ->
                          str_count p content <= str_count (d_prefix d) content)
       /\ forall name' d', (name', d') ∈ found' ->
            str_count (d_prefix d') content = str_count (d_prefix d) content.
Proof.
  cbv zeta. unfold extract_departments_from_content, extract_department_from_url.
  destruct (Re.search Re.no_flags url_tail_pattern url) as [m|]; cbn [PyDict.set length].
  2: { split; [lia|]. split; [done|]. intros name d Hd. by inversion Hd. }
  split; [lia|]. split; [done|].
  intros name d Hd. apply list_elem_of_singleton in Hd.
  injection Hd as Hname Hd. subst name d. cbn [d_name d_prefix].
  destruct (main_prefix_spec iteration content Hiteration) as [Hnone Hsome].
  destruct (main_prefix_spec iteration' content Hiteration') as [Hnone' Hsome'].
  cbv zeta in *.
  split; [done|]. split; [done|]. split; [done|]. split.
  - intros Hne. destruct (Hsome Hne) as [Hin Hmax]. split; [done|].
    split; [by eapply found_prefixes_shape|done].
  - intros name' d' Hd'. apply list_elem_of_singleton in Hd'.
    injection Hd' as Hname' Hd'. subst name' d'. cbn [d_prefix].
    destruct (found_prefixes content) as [|q l] eqn:Hq.
    + by rewrite Hnone, Hnone'.
    + destruct Hsome as [Hin Hmax]; [done|]. destruct Hsome' as [Hin' Hmax']; [done|].
      specialize (Hmax _ Hin'). specialize (Hmax' _ Hin). lia.
Qed.

Lemma department_of_a_page_witness :
  let content := "ART 1010 Drawing. CS 1400 Programming. CS 1410 Objects. CS 2420 Data" in
  let url := "https://catalog.utahtech.edu/programs/computer-science/" in
  let found := extract_departments_from_content ["CS"; "ART"] content url in
  let found' := extract_departments_from_content ["ART"; "CS"] content url in
  iterates_prefixes ["CS"; "ART"] content
  /\ iterates_prefixes ["ART"; "CS"] content
  /\ List.map d_prefix (PyDict.values found) = ["CS"]
  /\ (length found <= 1)%nat
  /\ PyDict.keys found' = PyDict.keys found
  /\ forall name d, (name, d) ∈ found ->
       name = extract_department_from_url url
       /\ d_name d = name
       /\ (found_prefixes content = [] -> d_prefix d = "UNKN")
       /\ (found_prefixes content <> [] ->
             d_prefix d ∈ found_prefixes content
             /\ prefix_shape (d_prefix d)
             /\ forall p, p ∈ found_prefixes content ->
                          str_count p content <= str_count (d_prefix d) content)
       /\ forall name' d', (name', d') ∈ found' ->
            str_count (d_prefix d') content = str_count (d_prefix d) content.
Proof.
  cbv zeta.
  assert (H1 : iterates_prefixes ["CS"; "ART"]
                 "ART 1010 Drawing. CS 1400 Programming. CS 1410 Objects. CS 2420 Data").
  { unfold iterates_prefixes. vm_compute. apply perm_swap. }
  assert (H2 : iterates_prefixes ["ART"; "CS"]
                 "ART 1010 Drawing. CS 1400 Programming. CS 1410 Objects. CS 2420 Data").
  { unfold iterates_prefixes. vm_compute. reflexivity. }
  split; [exact H1|]. split; [exact H2|]. split; [vm_compute; reflexivity|].
  exact (department_of_a_page _ _ _
           "https://catalog.utahtech.edu/programs/computer-science/" H1 H2).
Defined.
